(** * HPy debug mode: handle wrappers, quarantine queue and session state

    Shallow embedding of the internal header of [hpy/debug/src]
    (debug_internal.h): the [DebugHandle], [DHQueue] and [HPyDebugInfo]
    structures, the inline functions [DHPy_sanity_check],
    [UHPy_sanity_check], [as_DebugHandle], [as_DHPy], [DHPy_unwrap] and
    [get_info], and the operations that the header only declares
    ([DHPy_open], [DHPy_close], [DHPy_free], [DHPy_invalid_handle], the
    [DHQueue_*] functions), which are modelled from the design document.
    The inline functions [HPy_FromVoidP], [HPy_AsVoidP] and
    [HPy_FatalError] of the universal header (hpy/universal/hpy.h) come
    last.

    Memory is a finite map from addresses to structures; a C function
    becomes a state transformer that returns normally, aborts the process
    (failed [assert], [HPy_FatalError]), or has undefined behaviour. *)

From Stdlib Require Import ZArith Lia List Bool Sorted.
From stdpp Require Import base tactics option list gmap.

Local Open Scope Z_scope.
Local Set Warnings "-clear-no-such-hyp".

(** ** Machine integers and pointers

    [HPy_ssize_t] is the signed integer of pointer width and a pointer is an
    address of the same width; the development fixes the LP64 width. *)

Definition ptr_bits : Z := 64.
Definition ptr_modulus : Z := 2 ^ ptr_bits.
Definition ssize_half : Z := 2 ^ (ptr_bits - 1).

(** An address, as held in a pointer variable. *)
Definition ptr_range (p : Z) : Prop := 0 <= p < ptr_modulus.
(** A value of type [HPy_ssize_t]. *)
Definition ssize_range (i : Z) : Prop := - ssize_half <= i < ssize_half.

(** [(HPy_ssize_t)p]: the address reinterpreted as a signed integer. *)
Definition ssize_of_ptr (p : Z) : Z :=
  if p <? ssize_half then p else p - ptr_modulus.

(** [(T * )i]: the signed integer reinterpreted as an address. *)
Definition ptr_of_ssize (i : Z) : Z := i mod ptr_modulus.

Definition NULL : Z := 0.

(** ** Handles

    [typedef struct _HPy_s { HPy_ssize_t _i; } HPy;] with
    [typedef HPy UHPy; typedef HPy DHPy;]. *)

Record HPy : Type := mkHPy { _i : Z }.
Definition UHPy : Type := HPy.
Definition DHPy : Type := HPy.

Global Instance HPy_eq_dec : EqDecision HPy.
Proof. solve_decision. Defined.

(** [HPy_NULL] and [HPy_IsNull] are macros of the public hpy.h, which is not
    among the sources at hand. They are given the meaning the header relies
    on: the null handle is the one whose [_i] is 0, that is the [DHPy] of
    the null pointer, on which [DHPy_sanity_check] "works fine". *)
Definition HPy_NULL : HPy := {| _i := 0 |}.
Definition HPy_IsNull (h : HPy) : bool := _i h =? 0.

Definition HPY_DEBUG_MAGIC : Z := 0xDEB00FF.

(** ** Structures *)

(** [struct DebugHandle]. Pointers are addresses ([Z]); [associated_data] is
    the address of the raw data copy, or [NULL]. *)
Module DebugHandle.
Record t : Type := mk {
  uh : UHPy;
  generation : Z;
  is_closed : bool;
  associated_data : Z;
  associated_data_size : Z;
  prev : Z;
  next : Z
}.
Definition set_is_closed (b : bool) (h : t) : t :=
  mk (uh h) (generation h) b (associated_data h) (associated_data_size h) (prev h) (next h).
Definition set_associated_data (d : Z) (h : t) : t :=
  mk (uh h) (generation h) (is_closed h) d (associated_data_size h) (prev h) (next h).
Definition set_associated_data_size (n : Z) (h : t) : t :=
  mk (uh h) (generation h) (is_closed h) (associated_data h) n (prev h) (next h).
Definition set_prev (p : Z) (h : t) : t :=
  mk (uh h) (generation h) (is_closed h) (associated_data h) (associated_data_size h) p (next h).
Definition set_next (p : Z) (h : t) : t :=
  mk (uh h) (generation h) (is_closed h) (associated_data h) (associated_data_size h) (prev h) p.
End DebugHandle.
Abbreviation DebugHandle := DebugHandle.t.

(** [struct DHQueue]. *)
Module DHQueue.
Record t : Type := mk {
  head : Z;
  tail : Z;
  size : Z
}.
End DHQueue.
Abbreviation DHQueue := DHQueue.t.

Definition DEFAULT_CLOSED_HANDLES_QUEUE_MAX_SIZE : Z := 1024.
Definition DEFAULT_PROTECTED_RAW_DATA_MAX_SIZE : Z := 1024 * 1024 * 10.

(** [struct HPyDebugInfo]. *)
Module HPyDebugInfo.
Record t : Type := mk {
  magic_number : Z;
  uctx : Z;
  current_generation : Z;
  uh_on_invalid_handle : UHPy;
  closed_handles_queue_max_size : Z;
  protected_raw_data_max_size : Z;
  protected_raw_data_size : Z;
  open_handles : DHQueue;
  closed_handles : DHQueue
}.
Definition set_current_generation (g : Z) (i : t) : t :=
  mk (magic_number i) (uctx i) g (uh_on_invalid_handle i)
     (closed_handles_queue_max_size i) (protected_raw_data_max_size i)
     (protected_raw_data_size i) (open_handles i) (closed_handles i).
Definition set_protected_raw_data_size (n : Z) (i : t) : t :=
  mk (magic_number i) (uctx i) (current_generation i) (uh_on_invalid_handle i)
     (closed_handles_queue_max_size i) (protected_raw_data_max_size i)
     n (open_handles i) (closed_handles i).
Definition set_open_handles (q : DHQueue) (i : t) : t :=
  mk (magic_number i) (uctx i) (current_generation i) (uh_on_invalid_handle i)
     (closed_handles_queue_max_size i) (protected_raw_data_max_size i)
     (protected_raw_data_size i) q (closed_handles i).
Definition set_closed_handles (q : DHQueue) (i : t) : t :=
  mk (magic_number i) (uctx i) (current_generation i) (uh_on_invalid_handle i)
     (closed_handles_queue_max_size i) (protected_raw_data_max_size i)
     (protected_raw_data_size i) (open_handles i) q.
End HPyDebugInfo.
Abbreviation HPyDebugInfo := HPyDebugInfo.t.

(** [struct _HPyContext_s]: the members read by the debug mode. The handle
    constants [h_None] ... [h_ListType] and the table of [ctx_*] function
    pointers that follow [ctx_version] are never read by the functions
    below and are left out. *)
Record HPyContext : Type := mkHPyContext {
  name : Z;
  _private : Z;
  ctx_version : Z
}.

(** ** Program state and outcomes *)

(** Observable actions, recorded in order. *)
Inductive event : Type :=
| EvInvalidHandle (dh : DHPy)          (* DHPy_invalid_handle entered *)
| EvCallback (callback : UHPy)         (* the on_invalid_handle callback is called *)
| EvMalloc (p : Z)                     (* malloc(sizeof(DebugHandle)) returned p *)
| EvFree (p : Z)                       (* free(p) *)
| EvOpen (p : Z) (gen : Z)             (* DHPy_open produced wrapper p with generation gen *)
| EvRawDataProtect (data size : Z)     (* raw_data_protect(data, size) *)
| EvRawDataFree (data size : Z).       (* raw_data_free(data, size) *)

Global Instance event_eq_dec : EqDecision event.
Proof. solve_decision. Defined.

Record state : Type := mkState {
  handles : gmap Z DebugHandle;   (* the live DebugHandle objects, by address *)
  infos : gmap Z HPyDebugInfo;    (* the live HPyDebugInfo objects, by address *)
  trace : list event
}.

Inductive abort_reason : Type :=
| AssertionFailed    (* assert(e) with e false *)
| FatalError.        (* HPy_FatalError *)

Inductive outcome (A : Type) : Type :=
| Ret (a : A) (s : state)               (* the call returns a in state s *)
| Abort (r : abort_reason) (s : state)  (* the process is terminated in state s *)
| Undefined.                            (* undefined behaviour *)
Arguments Ret {A} a s.
Arguments Abort {A} r s.
Arguments Undefined {A}.

Definition M (A : Type) : Type := state -> outcome A.

Global Instance M_ret : MRet M := fun A a s => Ret a s.
Global Instance M_bind : MBind M := fun A B f m s =>
  match m s with
  | Ret a s' => f a s'
  | Abort r s' => Abort r s'
  | Undefined => Undefined
  end.

Definition abort {A} (r : abort_reason) : M A := fun s => Abort r s.

(** [assert(e)] of <assert.h>, with [NDEBUG] not defined. *)
Definition assert (e : bool) : M unit :=
  if e then mret tt else abort AssertionFailed.

Definition emit (e : event) : M unit := fun s =>
  Ret tt {| handles := handles s; infos := infos s; trace := trace s ++ [e] |}.

(** Reading and writing a [DebugHandle] through a pointer. *)
Definition load_handle (p : Z) : M DebugHandle := fun s =>
  match handles s !! p with
  | Some h => Ret h s
  | None => Undefined
  end.

Definition store_handle (p : Z) (h : DebugHandle) : M unit := fun s =>
  match handles s !! p with
  | Some _ => Ret tt {| handles := <[p := h]> (handles s); infos := infos s; trace := trace s |}
  | None => Undefined
  end.

(** Reading and writing an [HPyDebugInfo] through a pointer. *)
Definition load_info (p : Z) : M HPyDebugInfo := fun s =>
  match infos s !! p with
  | Some i => Ret i s
  | None => Undefined
  end.

Definition store_info (p : Z) (i : HPyDebugInfo) : M unit := fun s =>
  match infos s !! p with
  | Some _ => Ret tt {| handles := handles s; infos := <[p := i]> (infos s); trace := trace s |}
  | None => Undefined
  end.

(** A field assignment [p->f = v]. *)
Definition write_handle (p : Z) (f : DebugHandle -> DebugHandle) : M unit :=
  h ← load_handle p;
  store_handle p (f h).

Definition write_info (p : Z) (f : HPyDebugInfo -> HPyDebugInfo) : M unit :=
  i ← load_info p;
  store_info p (f i).

(** ** The inline functions of the header *)

(** [static inline void DHPy_sanity_check(DHPy dh)] *)
Definition DHPy_sanity_check (dh : DHPy) : M unit :=
  assert (Z.land (_i dh) 1 =? 0).

(** [static inline void UHPy_sanity_check(UHPy uh)]; the body is compiled
    only when [HPY_DEBUG_ENABLE_UHPY_SANITY_CHECK] is defined. *)
Definition UHPy_sanity_check (HPY_DEBUG_ENABLE_UHPY_SANITY_CHECK : bool) (uh : UHPy) : M unit :=
  if HPY_DEBUG_ENABLE_UHPY_SANITY_CHECK then
    if negb (HPy_IsNull uh) then assert (Z.land (_i uh) 1 =? 1) else mret tt
  else mret tt.

(** [static inline DebugHandle * as_DebugHandle(DHPy dh)] *)
Definition as_DebugHandle (dh : DHPy) : M Z :=
  DHPy_sanity_check dh;;
  mret (ptr_of_ssize (_i dh)).

(** [static inline DHPy as_DHPy(DebugHandle *handle)] *)
Definition as_DHPy (handle : Z) : DHPy :=
  {| _i := ssize_of_ptr handle |}.

(** [static inline HPyDebugInfo *get_info(HPyContext *dctx)] *)
Definition get_info (dctx : HPyContext) : M Z :=
  let info := _private dctx in
  i ← load_info info;
  assert (HPyDebugInfo.magic_number i =? HPY_DEBUG_MAGIC);;
  mret info.

(** Modelled from the spec: [DHPy_invalid_handle] is only declared in the
    header. The design document describes the violation path: the session's
    invalid-handle callback is invoked if one is registered, then the
    process is terminated through a fatal, non-returning path. *)
Definition DHPy_invalid_handle (dctx : HPyContext) (dh : DHPy) : M unit :=
  emit (EvInvalidHandle dh);;
  info ← get_info dctx;
  i ← load_info info;
  (if HPy_IsNull (HPyDebugInfo.uh_on_invalid_handle i) then mret tt
   else emit (EvCallback (HPyDebugInfo.uh_on_invalid_handle i)));;
  abort FatalError.

(** [static inline UHPy DHPy_unwrap(HPyContext *dctx, DHPy dh)] *)
Definition DHPy_unwrap (dctx : HPyContext) (dh : DHPy) : M UHPy :=
  if HPy_IsNull dh then mret HPy_NULL
  else
    handle ← as_DebugHandle dh;
    h ← load_handle handle;
    (if DebugHandle.is_closed h then DHPy_invalid_handle dctx dh else mret tt);;
    h' ← load_handle handle;
    mret (DebugHandle.uh h').

(** ** The quarantine queue

    The [DHQueue_*] functions are only declared in the header. The design
    document describes a doubly-linked ordered set with a cached size
    counter: [append] is a tail insert, [pop_front] removes the oldest
    member, [remove] unlinks an arbitrary member. The links are the [prev]
    and [next] members of [DebugHandle]. A queue lives inside
    [HPyDebugInfo]: where the C functions take a [DHQueue *], the functions
    below take the structure and return the updated one, which the caller
    stores back. *)

(** Modelled from the spec: [DHQueue_init] is only declared; an empty queue
    has no head, no tail and size 0. *)
Definition DHQueue_init : DHQueue :=
  {| DHQueue.head := NULL; DHQueue.tail := NULL; DHQueue.size := 0 |}.

(** Modelled from the spec: [DHQueue_append] is only declared; tail insert,
    the size counter goes up by one. *)
Definition DHQueue_append (q : DHQueue) (h : Z) : M DHQueue :=
  if DHQueue.head q =? NULL then
    write_handle h (DebugHandle.set_prev NULL);;
    write_handle h (DebugHandle.set_next NULL);;
    mret {| DHQueue.head := h; DHQueue.tail := h; DHQueue.size := DHQueue.size q + 1 |}
  else
    write_handle h (DebugHandle.set_next NULL);;
    write_handle h (DebugHandle.set_prev (DHQueue.tail q));;
    write_handle (DHQueue.tail q) (DebugHandle.set_next h);;
    mret {| DHQueue.head := DHQueue.head q; DHQueue.tail := h;
            DHQueue.size := DHQueue.size q + 1 |}.

(** Modelled from the spec: [DHQueue_remove] is only declared; the member
    [h] is unlinked from its neighbours wherever it is in the queue, the
    size counter goes down by one. *)
Definition DHQueue_remove (q : DHQueue) (h : Z) : M DHQueue :=
  hv ← load_handle h;
  let prv := DebugHandle.prev hv in
  let nxt := DebugHandle.next hv in
  (if prv =? NULL then mret tt else write_handle prv (DebugHandle.set_next nxt));;
  (if nxt =? NULL then mret tt else write_handle nxt (DebugHandle.set_prev prv));;
  write_handle h (DebugHandle.set_prev NULL);;
  write_handle h (DebugHandle.set_next NULL);;
  mret {| DHQueue.head := (if prv =? NULL then nxt else DHQueue.head q);
          DHQueue.tail := (if nxt =? NULL then prv else DHQueue.tail q);
          DHQueue.size := DHQueue.size q - 1 |}.

(** Modelled from the spec: [DHQueue_popfront] is only declared; the oldest
    member, at the head, is removed and returned. Popping an empty queue is
    not described; it is modelled as a failed sanity assertion. *)
Definition DHQueue_popfront (q : DHQueue) : M (DHQueue * Z) :=
  assert (negb (DHQueue.head q =? NULL));;
  q' ← DHQueue_remove q (DHQueue.head q);
  mret (q', DHQueue.head q).

(** ** Allocation of wrappers and the raw-data guard *)

(** The addresses [malloc] can return for a [DebugHandle]: non-null, of
    pointer width, and (as the header notes for every [DHPy]) ending in a 0
    bit. *)
Definition DebugHandle_ptrb (p : Z) : bool :=
  (0 <? p) && (p <? ptr_modulus) && (Z.land p 1 =? 0).

Definition uninit_DebugHandle : DebugHandle :=
  DebugHandle.mk HPy_NULL 0 false NULL 0 NULL NULL.

(** [malloc(sizeof(DebugHandle))]. The allocator's choice [m] is an input:
    a fresh wrapper address is handed out, anything else stands for an
    allocation failure, which returns [NULL]. *)
Definition malloc_DebugHandle (m : Z) : M Z := fun s =>
  if DebugHandle_ptrb m && bool_decide (handles s !! m = None) then
    Ret m {| handles := <[m := uninit_DebugHandle]> (handles s);
             infos := infos s;
             trace := trace s ++ [EvMalloc m] |}
  else Ret NULL s.

(** [free(handle)]; freeing an address that is not live is undefined. *)
Definition free_DebugHandle (p : Z) : M unit := fun s =>
  match handles s !! p with
  | Some _ => Ret tt {| handles := delete p (handles s);
                        infos := infos s;
                        trace := trace s ++ [EvFree p] |}
  | None => Undefined
  end.

(** Modelled from the spec: [raw_data_protect] and [raw_data_free] are only
    declared in the header and their implementation depends on the platform;
    what they do to the buffer itself is outside the model, the calls are
    recorded. [raw_data_free] returns 0, which indicates success. *)
Definition raw_data_protect (data size : Z) : M unit :=
  emit (EvRawDataProtect data size).

(** Modelled from the spec: [raw_data_free] is only declared; see
    [raw_data_protect]. *)
Definition raw_data_free (data size : Z) : M Z :=
  emit (EvRawDataFree data size);;
  mret 0.

(** Modelled from the spec: the raw-data guard policy applied when a handle
    is closed. Protecting increments the session's protected-byte counter;
    if protecting the buffer would push the counter over the configured
    budget, the buffer is released immediately instead. *)
Definition protect_raw_data (info handle : Z) : M unit :=
  h ← load_handle handle;
  if DebugHandle.associated_data h =? NULL then mret tt
  else
    i ← load_info info;
    let new_size :=
      HPyDebugInfo.protected_raw_data_size i + DebugHandle.associated_data_size h in
    if new_size >? HPyDebugInfo.protected_raw_data_max_size i then
      raw_data_free (DebugHandle.associated_data h) (DebugHandle.associated_data_size h);;
      write_handle handle (DebugHandle.set_associated_data NULL)
    else
      raw_data_protect (DebugHandle.associated_data h) (DebugHandle.associated_data_size h);;
      store_info info (HPyDebugInfo.set_protected_raw_data_size new_size i).

(** Modelled from the spec: releasing the buffer attached to a wrapper that
    is freed or whose storage is reused; the protected bytes are given
    back. *)
Definition release_raw_data (info handle : Z) : M unit :=
  h ← load_handle handle;
  if DebugHandle.associated_data h =? NULL then mret tt
  else
    i ← load_info info;
    store_info info
      (HPyDebugInfo.set_protected_raw_data_size
         (HPyDebugInfo.protected_raw_data_size i - DebugHandle.associated_data_size h) i);;
    raw_data_free (DebugHandle.associated_data h) (DebugHandle.associated_data_size h);;
    write_handle handle (DebugHandle.set_associated_data NULL).

(** ** The handle wrapper operations and the session *)

Section Session.

(** Whether the build defines [HPY_DEBUG_ENABLE_UHPY_SANITY_CHECK]. *)
Variable HPY_DEBUG_ENABLE_UHPY_SANITY_CHECK : bool.

(** Modelled from the spec: [DHPy_free] is only declared in the header. It
    releases the wrapper's storage and any attached raw buffer and is only
    valid on a closed wrapper. *)
Definition DHPy_free (dctx : HPyContext) (dh : DHPy) : M unit :=
  handle ← as_DebugHandle dh;
  info ← get_info dctx;
  h ← load_handle handle;
  assert (DebugHandle.is_closed h);;
  release_raw_data info handle;;
  free_DebugHandle handle.

(** Modelled from the spec: storage for a new wrapper. Following the
    header's comment on the free list, the storage of the oldest closed
    wrapper is reused when [closed_handles] is full (its raw buffer is then
    released); otherwise, and when there is no closed wrapper to reuse,
    storage is obtained from [malloc], whose choice is the argument [m]. The
    result is [NULL] when no storage is available. *)
Definition DHPy_open_storage (info : Z) (m : Z) : M Z :=
  i ← load_info info;
  if (HPyDebugInfo.closed_handles_queue_max_size i
        <=? DHQueue.size (HPyDebugInfo.closed_handles i))
     && negb (DHQueue.head (HPyDebugInfo.closed_handles i) =? NULL) then
    '(q, oldest) ← DHQueue_popfront (HPyDebugInfo.closed_handles i);
    write_info info (HPyDebugInfo.set_closed_handles q);;
    release_raw_data info oldest;;
    mret oldest
  else malloc_DebugHandle m.

(** Modelled from the spec: the new wrapper is given the underlying handle
    and the current generation, is marked open with no raw data attached,
    and is inserted into the open queue. *)
Definition DHPy_open_init (info : Z) (handle : Z) (uh : UHPy) : M DHPy :=
  i ← load_info info;
  write_handle handle (fun h =>
    DebugHandle.mk uh (HPyDebugInfo.current_generation i) false NULL 0
                   (DebugHandle.prev h) (DebugHandle.next h));;
  q ← DHQueue_append (HPyDebugInfo.open_handles i) handle;
  write_info info (HPyDebugInfo.set_open_handles q);;
  emit (EvOpen handle (HPyDebugInfo.current_generation i));;
  mret (as_DHPy handle).

(** Modelled from the spec: [DHPy_open] is only declared in the header. It
    allocates or reuses a wrapper, assigns the current generation and
    inserts the wrapper into the open queue. Resource exhaustion is
    reported by returning [HPy_NULL]. The extra argument [m] is the
    allocator's choice. *)
Definition DHPy_open (dctx : HPyContext) (uh : UHPy) (m : Z) : M DHPy :=
  UHPy_sanity_check HPY_DEBUG_ENABLE_UHPY_SANITY_CHECK uh;;
  info ← get_info dctx;
  handle ← DHPy_open_storage info m;
  if handle =? NULL then mret HPy_NULL
  else DHPy_open_init info handle uh.

(** Modelled from the spec: [DHPy_close] is only declared in the header. It
    removes the wrapper from the open queue, marks it closed and appends it
    to the quarantine; closing an already closed wrapper takes the same
    fatal path as a stale unwrap. The attached raw buffer goes through the
    raw-data guard, and if the quarantine has become too big the oldest
    closed wrapper is popped and freed. *)
Definition DHPy_close (dctx : HPyContext) (dh : DHPy) : M unit :=
  info ← get_info dctx;
  handle ← as_DebugHandle dh;
  h ← load_handle handle;
  if DebugHandle.is_closed h then DHPy_invalid_handle dctx dh
  else
    i ← load_info info;
    q ← DHQueue_remove (HPyDebugInfo.open_handles i) handle;
    write_info info (HPyDebugInfo.set_open_handles q);;
    write_handle handle (DebugHandle.set_is_closed true);;
    i ← load_info info;
    q ← DHQueue_append (HPyDebugInfo.closed_handles i) handle;
    write_info info (HPyDebugInfo.set_closed_handles q);;
    protect_raw_data info handle;;
    i ← load_info info;
    if HPyDebugInfo.closed_handles_queue_max_size i
         <? DHQueue.size (HPyDebugInfo.closed_handles i) then
      '(q, oldest) ← DHQueue_popfront (HPyDebugInfo.closed_handles i);
      write_info info (HPyDebugInfo.set_closed_handles q);;
      DHPy_free dctx (as_DHPy oldest)
    else mret tt.

(** Modelled from the spec: the generation counter is incremented at
    checkpoints chosen by the caller. *)
Definition new_generation (dctx : HPyContext) : M unit :=
  info ← get_info dctx;
  write_info info (fun i =>
    HPyDebugInfo.set_current_generation (HPyDebugInfo.current_generation i + 1) i).

(** Modelled from the spec: a context function that hands out raw data tied
    to a handle unwraps the handle, and stores the copy made by
    [raw_data_copy] (the address [copy], of [size] bytes) in the wrapper's
    [associated_data] and [associated_data_size]. *)
Definition attach_raw_data (dctx : HPyContext) (dh : DHPy) (copy size : Z) : M unit :=
  DHPy_unwrap dctx dh;;
  handle ← as_DebugHandle dh;
  write_handle handle (DebugHandle.set_associated_data copy);;
  write_handle handle (DebugHandle.set_associated_data_size size).

(** The calls a client can make on a session. *)
Inductive op : Type :=
| OpOpen (uh : UHPy) (m : Z)
| OpClose (dh : DHPy)
| OpUnwrap (dh : DHPy)
| OpNewGeneration
| OpAttach (dh : DHPy) (copy size : Z).

Definition step (dctx : HPyContext) (o : op) : M unit :=
  match o with
  | OpOpen uh m => DHPy_open dctx uh m;; mret tt
  | OpClose dh => DHPy_close dctx dh
  | OpUnwrap dh => DHPy_unwrap dctx dh;; mret tt
  | OpNewGeneration => new_generation dctx
  | OpAttach dh copy size => attach_raw_data dctx dh copy size
  end.

Fixpoint run (dctx : HPyContext) (ops : list op) : M unit :=
  match ops with
  | [] => mret tt
  | o :: rest => step dctx o;; run dctx rest
  end.

End Session.

(** Modelled from the spec: the configuration surface of session
    construction, which is not in the header: the quarantine maximum, the
    protected-byte budget and the optional invalid-handle callback. *)
Record config : Type := mkConfig {
  cfg_closed_handles_queue_max_size : option Z;
  cfg_protected_raw_data_max_size : option Z;
  cfg_on_invalid_handle : option UHPy
}.

Definition default_config : config := mkConfig None None None.

(** Modelled from the spec: session construction, which is not in the
    header. The session is tagged with [HPY_DEBUG_MAGIC], a limit that is
    not configured takes its default from the header, the queues are empty
    and nothing is protected yet. The generation counter starts at 0. *)
Definition HPyDebugInfo_init (uctx : Z) (cfg : config) : HPyDebugInfo :=
  {| HPyDebugInfo.magic_number := HPY_DEBUG_MAGIC;
     HPyDebugInfo.uctx := uctx;
     HPyDebugInfo.current_generation := 0;
     HPyDebugInfo.uh_on_invalid_handle := default HPy_NULL (cfg_on_invalid_handle cfg);
     HPyDebugInfo.closed_handles_queue_max_size :=
       default DEFAULT_CLOSED_HANDLES_QUEUE_MAX_SIZE (cfg_closed_handles_queue_max_size cfg);
     HPyDebugInfo.protected_raw_data_max_size :=
       default DEFAULT_PROTECTED_RAW_DATA_MAX_SIZE (cfg_protected_raw_data_max_size cfg);
     HPyDebugInfo.protected_raw_data_size := 0;
     HPyDebugInfo.open_handles := DHQueue_init;
     HPyDebugInfo.closed_handles := DHQueue_init |}.

(** Modelled from the spec: the state right after the session at address
    [_private dctx] has been constructed; no wrapper exists yet. *)
Definition session_init (dctx : HPyContext) (uctx : Z) (cfg : config) : state :=
  {| handles := ∅;
     infos := {[ _private dctx := HPyDebugInfo_init uctx cfg ]};
     trace := [] |}.

(** * Specification vocabulary *)

(** A well-formed wrapper address, as a proposition. *)
Definition DebugHandle_ptr (p : Z) : Prop :=
  0 < p < ptr_modulus /\ Z.land p 1 = 0.


(** [n] successive calls of [DHPy_unwrap] on the same handle, collecting the
    results. *)
Fixpoint DHPy_unwrap_repeat (dctx : HPyContext) (dh : DHPy) (n : nat) : M (list UHPy) :=
  match n with
  | O => mret []
  | S n' =>
      u ← DHPy_unwrap dctx dh;
      us ← DHPy_unwrap_repeat dctx dh n';
      mret (u :: us)
  end.

(** The events of the violation path: entering [DHPy_invalid_handle], then
    the callback if one is registered. *)
Definition violation_events (i : HPyDebugInfo) (dh : DHPy) : list event :=
  EvInvalidHandle dh ::
  (if HPy_IsNull (HPyDebugInfo.uh_on_invalid_handle i) then []
   else [EvCallback (HPyDebugInfo.uh_on_invalid_handle i)]).

Definition with_trace (s : state) (t : list event) : state :=
  {| handles := handles s; infos := infos s; trace := t |}.

(** A state with no wrapper and no session at all. *)
Definition empty_state : state := {| handles := ∅; infos := ∅; trace := [] |}.

(** The generations assigned by the [DHPy_open] calls of a trace, in
    order. *)
Definition open_gens (t : list event) : list Z :=
  flat_map (fun e => match e with EvOpen _ g => [g] | _ => [] end) t.

(** The configuration of a session: the tag, the underlying context, the
    callback and the two limits. *)
Definition same_config (i i' : HPyDebugInfo) : Prop :=
  HPyDebugInfo.magic_number i' = HPyDebugInfo.magic_number i /\
  HPyDebugInfo.uctx i' = HPyDebugInfo.uctx i /\
  HPyDebugInfo.uh_on_invalid_handle i' = HPyDebugInfo.uh_on_invalid_handle i /\
  HPyDebugInfo.closed_handles_queue_max_size i'
  = HPyDebugInfo.closed_handles_queue_max_size i /\
  HPyDebugInfo.protected_raw_data_max_size i'
  = HPyDebugInfo.protected_raw_data_max_size i.

(** The protected-byte counter of the session at address [a] is within its
    budget, and every recorded buffer length is a length. *)
Definition budget_ok (a : Z) (s : state) : Prop :=
  (forall i, infos s !! a = Some i ->
     HPyDebugInfo.protected_raw_data_size i <= HPyDebugInfo.protected_raw_data_max_size i) /\
  (forall p h, handles s !! p = Some h -> 0 <= DebugHandle.associated_data_size h).

(** Allocation bookkeeping: for every address, the number of times [malloc]
    handed it out is the number of times it was freed, plus one if a wrapper
    is live there. So a wrapper is never freed twice. *)
Definition count_malloc (p : Z) (t : list event) : nat :=
  count_occ event_eq_dec t (EvMalloc p).

Definition count_free (p : Z) (t : list event) : nat :=
  count_occ event_eq_dec t (EvFree p).

Definition alloc_balanced (s : state) : Prop :=
  forall p, count_malloc p (trace s)
            = (count_free p (trace s) + match handles s !! p with Some _ => 1 | None => 0 end)%nat.

(** Events that are neither an allocation, a release of storage nor the
    creation of a wrapper. *)
Definition quiet_event (e : event) : Prop :=
  match e with
  | EvMalloc _ | EvFree _ | EvOpen _ _ => False
  | _ => True
  end.

(** What every returning call does to the session at address [a]: the
    session stays in place with the same configuration and a generation
    counter that has not decreased, the budget is respected if it was
    (provided [W], which stands for the buffer lengths passed by the caller
    being non-negative), the allocation bookkeeping stays balanced, the trace is
    extended, and the generations assigned in the extension are in
    order and lie between the old and the new counter. *)
Record session_step (W : Prop) (a : Z) (s s' : state) : Prop := mk_session_step {
  ss_info : forall i, infos s !! a = Some i ->
    exists i', infos s' !! a = Some i' /\ same_config i i' /\
      HPyDebugInfo.current_generation i <= HPyDebugInfo.current_generation i';
  ss_none : infos s !! a = None -> infos s' !! a = None;
  ss_budget : W -> budget_ok a s -> budget_ok a s';
  ss_alloc : alloc_balanced s -> alloc_balanced s';
  ss_trace : exists t, trace s' = trace s ++ t /\
    StronglySorted Z.le (open_gens t) /\
    forall g, g ∈ open_gens t ->
      exists i i', infos s !! a = Some i /\ infos s' !! a = Some i' /\
        HPyDebugInfo.current_generation i <= g <= HPyDebugInfo.current_generation i'
}.

(** A call only relinked wrappers: the sessions and the trace are as
    before, the same wrappers exist, and each kept everything but its queue
    links. *)
Definition relinked (h h' : DebugHandle) : Prop :=
  DebugHandle.uh h' = DebugHandle.uh h /\
  DebugHandle.generation h' = DebugHandle.generation h /\
  DebugHandle.is_closed h' = DebugHandle.is_closed h /\
  DebugHandle.associated_data h' = DebugHandle.associated_data h /\
  DebugHandle.associated_data_size h' = DebugHandle.associated_data_size h.

Definition links_only (s s' : state) : Prop :=
  infos s' = infos s /\ trace s' = trace s /\
  forall x, option_Forall2 relinked (handles s !! x) (handles s' !! x).

(** The calls whose arguments are well formed: a raw buffer has a
    non-negative length. *)
Definition wf_op (o : op) : Prop :=
  match o with
  | OpAttach _ _ size => 0 <= size
  | _ => True
  end.

(** ** Representation of a queue

    [dll_seg hp prv l nxt]: in the wrapper memory [hp] the addresses of [l]
    are doubly linked in this order; the first one points back to [prv] and
    the last one points forward to [nxt]. *)
Fixpoint dll_seg (hp : gmap Z DebugHandle) (prv : Z) (l : list Z) (nxt : Z) : Prop :=
  match l with
  | [] => True
  | p :: l' =>
      exists h, hp !! p = Some h /\
        DebugHandle.prev h = prv /\
        DebugHandle.next h = hd nxt l' /\
        dll_seg hp p l' nxt
  end.

(** The queue structure [q] holds exactly the wrappers [l], oldest first. *)
Definition queue_repr (hp : gmap Z DebugHandle) (q : DHQueue) (l : list Z) : Prop :=
  DHQueue.head q = hd NULL l /\
  DHQueue.tail q = List.last l NULL /\
  DHQueue.size q = Z.of_nat (length l) /\
  dll_seg hp NULL l NULL.

Definition set_handles (hp : gmap Z DebugHandle) (s : state) : state :=
  {| handles := hp; infos := infos s; trace := trace s |}.

Definition set_infos (im : gmap Z HPyDebugInfo) (s : state) : state :=
  {| handles := handles s; infos := im; trace := trace s |}.

(** ** The session invariant

    [flags_ok hp lo lc]: the live wrappers are exactly accounted for by the
    open wrappers [lo] and the closed wrappers [lc], and the [is_closed]
    flag of each says which of the two it is. *)
Definition flags_ok (hp : gmap Z DebugHandle) (lo lc : list Z) : Prop :=
  (forall p, is_Some (hp !! p) -> p ∈ lo ++ lc) /\
  (forall p h, p ∈ lo -> hp !! p = Some h -> DebugHandle.is_closed h = false) /\
  (forall p h, p ∈ lc -> hp !! p = Some h -> DebugHandle.is_closed h = true).

(** [session_inv dctx s lo lc]: in state [s] the session of [dctx] carries
    its tag, its open queue holds the wrappers [lo] and its quarantine the
    wrappers [lc] (oldest first), the quarantine is within its maximum, and
    the wrappers are distinct, well-formed addresses. *)
Record session_inv (dctx : HPyContext) (s : state) (lo lc : list Z) : Prop := mk_session_inv {
  inv_info : exists i, infos s !! _private dctx = Some i /\
      HPyDebugInfo.magic_number i = HPY_DEBUG_MAGIC /\
      queue_repr (handles s) (HPyDebugInfo.open_handles i) lo /\
      queue_repr (handles s) (HPyDebugInfo.closed_handles i) lc /\
      Z.of_nat (length lc) <= HPyDebugInfo.closed_handles_queue_max_size i;
  inv_nodup : NoDup (lo ++ lc);
  inv_ptr : forall p, p ∈ lo ++ lc -> DebugHandle_ptr p;
  inv_flags : flags_ok (handles s) lo lc
}.

(** Two wrapper values that agree on everything the queues and the
    lifecycle depend on: only the attached raw data may differ. *)
Definition same_but_data (h h' : DebugHandle) : Prop :=
  DebugHandle.uh h' = DebugHandle.uh h /\
  DebugHandle.generation h' = DebugHandle.generation h /\
  DebugHandle.is_closed h' = DebugHandle.is_closed h /\
  DebugHandle.prev h' = DebugHandle.prev h /\
  DebugHandle.next h' = DebugHandle.next h.

(** The state an outcome ends in (the empty state stands in for undefined
    behaviour). *)
Definition final_state {A} (o : outcome A) : state :=
  match o with
  | Ret _ s => s
  | Abort _ s => s
  | Undefined => empty_state
  end.

(** ** The members of a queue, read off the memory *)





(** ** A concrete session, used to exercise the statements *)

Definition example_dctx : HPyContext := mkHPyContext 0 4096 0.

(** Quarantine of one wrapper, budget of 100 bytes, no callback. *)
Definition example_config : config := mkConfig (Some 1) (Some 100) None.

Definition example_run (cfg : config) (ops : list op) : outcome unit :=
  run false example_dctx ops (session_init example_dctx 0 cfg).

(** ** The universal header (hpy/universal/hpy.h) *)

(** [static inline HPy HPy_FromVoidP(void *p)] *)
Definition HPy_FromVoidP (p : Z) : HPy :=
  {| _i := ssize_of_ptr p |}.

(** [static inline void* HPy_AsVoidP(HPy h)] *)
Definition HPy_AsVoidP (h : HPy) : Z :=
  ptr_of_ssize (_i h).

(** [static inline _HPy_NO_RETURN void HPy_FatalError(HPyContext *ctx,
    const char *message)]: the context's [ctx_FatalError] member is called,
    then [abort()]. The member is one of the function pointers left out of
    [HPyContext]; it is an argument here, and [message] is the address of
    the C string. The function has no result, so it is given any result
    type. *)
Definition HPy_FatalError {A : Type} (ctx_FatalError : HPyContext -> Z -> M unit)
    (ctx : HPyContext) (message : Z) : M A :=
  ctx_FatalError ctx message;;
  abort FatalError.

(** ** [DHPy_unwrap] and the routine it calls

    The header defines [DHPy_unwrap] and only declares the routine it calls
    on a closed wrapper. [DHPy_unwrap_with] is the body of [DHPy_unwrap] over
    any definition of that routine: what is proved of it holds whatever
    [DHPy_invalid_handle] is linked in. *)
Definition DHPy_unwrap_with (DHPy_invalid_handle : HPyContext -> DHPy -> M unit)
    (dctx : HPyContext) (dh : DHPy) : M UHPy :=
  if HPy_IsNull dh then mret HPy_NULL
  else
    handle ← as_DebugHandle dh;
    h ← load_handle handle;
    (if DebugHandle.is_closed h then DHPy_invalid_handle dctx dh else mret tt);;
    h' ← load_handle handle;
    mret (DebugHandle.uh h').

(** A state with one wrapper at address 4096 and no session. *)
Definition example_wrapper_state (h : DebugHandle) : state :=
  {| handles := {[ 4096 := h ]}; infos := ∅; trace := [] |}.
(** * Properties *)

(** ** Pointer casts and tag bits *)

Example HPY_DEBUG_MAGIC_value : HPY_DEBUG_MAGIC = 233505023.
Proof. reflexivity. Qed.

Lemma DebugHandle_ptrb_spec p : DebugHandle_ptrb p = true <-> DebugHandle_ptr p.
Proof.
  unfold DebugHandle_ptrb, DebugHandle_ptr.
  rewrite !andb_true_iff, !Z.ltb_lt, Z.eqb_eq. tauto.
Qed.

Lemma land_1_mod x : Z.land x 1 = x mod 2.
Proof. change 1 with (Z.ones 1). rewrite Z.land_ones by lia. reflexivity. Qed.

Lemma ptr_of_ssize_of_ptr p : ptr_range p -> ptr_of_ssize (ssize_of_ptr p) = p.
Proof.
  unfold ptr_range, ptr_of_ssize, ssize_of_ptr. intros Hp.
  destruct (p <? ssize_half) eqn:E.
  - apply Z.mod_small. exact Hp.
  - replace (p - ptr_modulus) with (p + (-1) * ptr_modulus) by ring.
    rewrite Z.mod_add by (unfold ptr_modulus, ptr_bits; lia).
    apply Z.mod_small. exact Hp.
Qed.

Lemma ssize_of_ptr_of_ssize i : ssize_range i -> ssize_of_ptr (ptr_of_ssize i) = i.
Proof.
  unfold ssize_range, ptr_of_ssize, ssize_of_ptr.
  assert (Hm : ptr_modulus = 2 * ssize_half) by reflexivity.
  assert (Hh : 0 < ssize_half) by reflexivity.
  intros Hi. destruct (Z_lt_le_dec i 0) as [Hneg | Hpos].
  - assert (E : i mod ptr_modulus = i + ptr_modulus).
    { replace i with (i + ptr_modulus + (-1) * ptr_modulus) at 1 by ring.
      rewrite Z.mod_add by lia. apply Z.mod_small. lia. }
    rewrite E. destruct (i + ptr_modulus <? ssize_half) eqn:E'.
    + apply Z.ltb_lt in E'. lia.
    + ring.
  - rewrite Z.mod_small by lia.
    destruct (i <? ssize_half) eqn:E'; [reflexivity | apply Z.ltb_ge in E'; lia].
Qed.

Lemma ssize_of_ptr_low_bit p : Z.land (ssize_of_ptr p) 1 = Z.land p 1.
Proof.
  unfold ssize_of_ptr. destruct (p <? ssize_half); [reflexivity |].
  rewrite !land_1_mod.
  replace (p - ptr_modulus) with (p + (- ssize_half) * 2) by (unfold ptr_modulus, ssize_half, ptr_bits; lia).
  apply Z.mod_add. lia.
Qed.

Lemma ptr_of_ssize_low_bit i : Z.land (ptr_of_ssize i) 1 = Z.land i 1.
Proof.
  unfold ptr_of_ssize. rewrite !land_1_mod.
  apply Z.mod_mod_divide. exists ssize_half. reflexivity.
Qed.

Lemma ssize_of_ptr_range p : ptr_range p -> ssize_range (ssize_of_ptr p).
Proof.
  unfold ptr_range, ssize_range, ssize_of_ptr.
  assert (Hm : ptr_modulus = 2 * ssize_half) by reflexivity.
  intros Hp. destruct (p <? ssize_half) eqn:E.
  - apply Z.ltb_lt in E. lia.
  - apply Z.ltb_ge in E. lia.
Qed.

Lemma ssize_of_ptr_null p : ptr_range p -> ssize_of_ptr p = 0 -> p = 0.
Proof.
  intros Hp H0. rewrite <- (ptr_of_ssize_of_ptr p Hp), H0. reflexivity.
Qed.

Lemma as_DHPy_not_null p : DebugHandle_ptr p -> HPy_IsNull (as_DHPy p) = false.
Proof.
  intros [Hr _]. unfold HPy_IsNull, as_DHPy. simpl.
  apply Z.eqb_neq. intros H0. apply ssize_of_ptr_null in H0; unfold ptr_range; lia.
Qed.

(** ** Running the monad *)

Lemma bind_run {A B} (m : M A) (f : A -> M B) s :
  (m ≫= f) s =
  match m s with
  | Ret a s' => f a s'
  | Abort r s' => Abort r s'
  | Undefined => Undefined
  end.
Proof. reflexivity. Qed.

Lemma bind_Ret {A B} (m : M A) (f : A -> M B) s a s' :
  m s = Ret a s' -> (m ≫= f) s = f a s'.
Proof. intros H. rewrite bind_run, H. reflexivity. Qed.

Lemma bind_Abort {A B} (m : M A) (f : A -> M B) s r s' :
  m s = Abort r s' -> (m ≫= f) s = Abort r s'.
Proof. intros H. rewrite bind_run, H. reflexivity. Qed.

Lemma bind_inv_Ret {A B} (m : M A) (f : A -> M B) s b s' :
  (m ≫= f) s = Ret b s' -> exists a s1, m s = Ret a s1 /\ f a s1 = Ret b s'.
Proof.
  rewrite bind_run. destruct (m s) as [a s1 | |]; [eauto | discriminate | discriminate].
Qed.

Lemma assert_true s : assert true s = Ret tt s.
Proof. reflexivity. Qed.

Lemma assert_false s : assert false s = Abort AssertionFailed s.
Proof. reflexivity. Qed.

Lemma load_handle_Some p h s : handles s !! p = Some h -> load_handle p s = Ret h s.
Proof. intros H. unfold load_handle. rewrite H. reflexivity. Qed.

Lemma load_info_Some p i s : infos s !! p = Some i -> load_info p s = Ret i s.
Proof. intros H. unfold load_info. rewrite H. reflexivity. Qed.

Lemma as_DebugHandle_even dh s :
  Z.land (_i dh) 1 = 0 -> as_DebugHandle dh s = Ret (ptr_of_ssize (_i dh)) s.
Proof.
  intros H. unfold as_DebugHandle, DHPy_sanity_check. rewrite H. reflexivity.
Qed.

Lemma as_DebugHandle_odd dh s :
  Z.land (_i dh) 1 = 1 -> as_DebugHandle dh s = Abort AssertionFailed s.
Proof.
  intros H. unfold as_DebugHandle, DHPy_sanity_check. rewrite H. reflexivity.
Qed.

Lemma as_DebugHandle_as_DHPy p s :
  ptr_range p -> Z.land p 1 = 0 -> as_DebugHandle (as_DHPy p) s = Ret p s.
Proof.
  intros Hr Hb. rewrite as_DebugHandle_even.
  - simpl. rewrite ptr_of_ssize_of_ptr by exact Hr. reflexivity.
  - simpl. rewrite ssize_of_ptr_low_bit. exact Hb.
Qed.

Lemma get_info_ok dctx i s :
  infos s !! _private dctx = Some i ->
  HPyDebugInfo.magic_number i = HPY_DEBUG_MAGIC ->
  get_info dctx s = Ret (_private dctx) s.
Proof.
  intros Hi Hm. unfold get_info.
  rewrite (bind_Ret _ _ _ _ _ (load_info_Some _ _ _ Hi)).
  rewrite Hm, Z.eqb_refl. reflexivity.
Qed.

Lemma get_info_bad_magic dctx i s :
  infos s !! _private dctx = Some i ->
  HPyDebugInfo.magic_number i <> HPY_DEBUG_MAGIC ->
  get_info dctx s = Abort AssertionFailed s.
Proof.
  intros Hi Hm. unfold get_info.
  rewrite (bind_Ret _ _ _ _ _ (load_info_Some _ _ _ Hi)).
  apply Z.eqb_neq in Hm. rewrite Hm. reflexivity.
Qed.

Lemma get_info_inv dctx s info s' :
  get_info dctx s = Ret info s' ->
  info = _private dctx /\ s' = s /\
  exists i, infos s !! info = Some i /\ HPyDebugInfo.magic_number i = HPY_DEBUG_MAGIC.
Proof.
  unfold get_info. rewrite bind_run. unfold load_info.
  destruct (infos s !! _private dctx) as [i|] eqn:Hi; [| discriminate].
  rewrite bind_run. destruct (HPyDebugInfo.magic_number i =? HPY_DEBUG_MAGIC) eqn:Hm.
  - simpl. intros [= <- <-]. apply Z.eqb_eq in Hm. eauto.
  - discriminate.
Qed.

(** ** The casts between [DHPy] and [DebugHandle *] *)

(** C10. The casts are mutually inverse: casting a [DebugHandle] pointer to a
    [DHPy] and back yields the pointer (the sanity check passes because a
    wrapper address ends in a 0 bit), and casting a [DHPy] whose low bit is 0
    to a pointer and back yields the same [DHPy]. *)
Theorem as_DebugHandle_as_DHPy_inverse :
  (forall p s, ptr_range p -> Z.land p 1 = 0 ->
     as_DebugHandle (as_DHPy p) s = Ret p s) /\
  (forall d s, ssize_range (_i d) -> Z.land (_i d) 1 = 0 ->
     exists p, as_DebugHandle d s = Ret p s /\ as_DHPy p = d).
Proof.
  split.
  - intros p s Hr Hb. apply as_DebugHandle_as_DHPy; assumption.
  - intros [i] s Hr Hb. simpl in *. exists (ptr_of_ssize i). split.
    + apply as_DebugHandle_even. exact Hb.
    + unfold as_DHPy. f_equal. apply ssize_of_ptr_of_ssize. exact Hr.
Qed.

Lemma as_DebugHandle_as_DHPy_inverse_witness :
  as_DebugHandle (as_DHPy 4096) empty_state = Ret 4096 empty_state /\
  (exists p, as_DebugHandle (mkHPy (-16)) empty_state = Ret p empty_state /\
             as_DHPy p = mkHPy (-16)).
Proof.
  split.
  - apply (proj1 as_DebugHandle_as_DHPy_inverse 4096 empty_state).
    + unfold ptr_range. vm_compute. split; [discriminate | reflexivity].
    + reflexivity.
  - apply (proj2 as_DebugHandle_as_DHPy_inverse (mkHPy (-16)) empty_state).
    + unfold ssize_range. vm_compute. split; [discriminate | reflexivity].
    + reflexivity.
Defined.

(** ** Unwrapping *)

(** C9. Unwrapping the null handle returns [HPy_NULL] in every state and for
    every context, and leaves the state, hence the record of violations, as
    it was. The result does not depend on the wrappers in memory: it is the
    same whatever they are, also when nothing is mapped at address 0 (where
    reading a wrapper would be undefined) and when a wrapper, closed or
    not, is mapped there (reading a closed one would start the violation
    path).
    [DHPy_sanity_check] accepts the null handle too. *)
Theorem DHPy_unwrap_null dctx s :
  DHPy_unwrap dctx HPy_NULL s = Ret HPy_NULL s /\
  (forall hp, DHPy_unwrap dctx HPy_NULL (set_handles hp s) = Ret HPy_NULL (set_handles hp s)) /\
  DHPy_unwrap dctx HPy_NULL (set_handles ∅ s) = Ret HPy_NULL (set_handles ∅ s) /\
  (forall h,
     DHPy_unwrap dctx HPy_NULL (set_handles {[ NULL := h ]} s)
     = Ret HPy_NULL (set_handles {[ NULL := h ]} s)) /\
  DHPy_sanity_check HPy_NULL s = Ret tt s.
Proof.
  assert (Hnull : forall s0, DHPy_unwrap dctx HPy_NULL s0 = Ret HPy_NULL s0).
  { intros s0. unfold DHPy_unwrap.
    replace (HPy_IsNull HPy_NULL) with true by reflexivity. reflexivity. }
  split; [apply Hnull |]. split; [intros hp; apply Hnull |].
  split; [apply Hnull |]. split; [intros h; apply Hnull |].
  unfold DHPy_sanity_check. simpl. apply assert_true.
Qed.

Lemma DHPy_unwrap_open dctx p h s :
  handles s !! p = Some h ->
  DebugHandle.is_closed h = false ->
  DebugHandle_ptr p ->
  DHPy_unwrap dctx (as_DHPy p) s = Ret (DebugHandle.uh h) s.
Proof.
  intros Hh Hopen Hp. unfold DHPy_unwrap.
  rewrite (as_DHPy_not_null p Hp). destruct Hp as [Hr Hb].
  rewrite (bind_Ret _ _ _ _ _ (as_DebugHandle_as_DHPy p s ltac:(unfold ptr_range; lia) Hb)).
  rewrite (bind_Ret _ _ _ _ _ (load_handle_Some _ _ _ Hh)).
  rewrite Hopen. rewrite bind_run. simpl.
  rewrite (bind_Ret _ _ _ _ _ (load_handle_Some _ _ _ Hh)). reflexivity.
Qed.

(** C2. For an open wrapper, [DHPy_unwrap] returns the stored underlying
    handle [uh] and leaves the state, hence the wrapper, as it was; any
    number of successive calls all return that same value. *)
Theorem DHPy_unwrap_open_same dctx p h s n :
  handles s !! p = Some h ->
  DebugHandle.is_closed h = false ->
  DebugHandle_ptr p ->
  DHPy_unwrap dctx (as_DHPy p) s = Ret (DebugHandle.uh h) s /\
  DHPy_unwrap_repeat dctx (as_DHPy p) n s = Ret (replicate n (DebugHandle.uh h)) s.
Proof.
  intros Hh Hopen Hp. split; [apply DHPy_unwrap_open; assumption |].
  induction n as [| n IH]; [reflexivity |].
  simpl. rewrite (bind_Ret _ _ _ _ _ (DHPy_unwrap_open dctx p h s Hh Hopen Hp)).
  rewrite (bind_Ret _ _ _ _ _ IH). reflexivity.
Qed.

Lemma DHPy_invalid_handle_fatal dctx dh i s :
  infos s !! _private dctx = Some i ->
  HPyDebugInfo.magic_number i = HPY_DEBUG_MAGIC ->
  DHPy_invalid_handle dctx dh s
  = Abort FatalError (with_trace s (trace s ++ violation_events i dh)).
Proof.
  intros Hi Hm. unfold DHPy_invalid_handle.
  rewrite bind_run. simpl.
  set (s1 := {| handles := handles s; infos := infos s; trace := trace s ++ [EvInvalidHandle dh] |}).
  assert (Hi1 : infos s1 !! _private dctx = Some i) by exact Hi.
  rewrite (bind_Ret _ _ _ _ _ (get_info_ok dctx i s1 Hi1 Hm)).
  rewrite (bind_Ret _ _ _ _ _ (load_info_Some _ _ _ Hi1)).
  unfold violation_events, with_trace.
  destruct (HPy_IsNull (HPyDebugInfo.uh_on_invalid_handle i)); rewrite bind_run; simpl.
  - unfold abort. f_equal.
  - unfold abort. f_equal. unfold s1; simpl. rewrite <- app_assoc. reflexivity.
Qed.

(** Whatever the context, [DHPy_invalid_handle] does not return. *)
Lemma DHPy_invalid_handle_no_return dctx dh s u s' :
  DHPy_invalid_handle dctx dh s <> Ret u s'.
Proof.
  unfold DHPy_invalid_handle. rewrite bind_run. simpl.
  rewrite bind_run. destruct (get_info dctx _) as [info s1 | |]; [| discriminate | discriminate].
  rewrite bind_run. destruct (load_info info s1) as [i s2 | |]; [| discriminate | discriminate].
  rewrite bind_run.
  destruct (HPy_IsNull (HPyDebugInfo.uh_on_invalid_handle i)); simpl; discriminate.
Qed.

Lemma DHPy_unwrap_closed dctx i p h s :
  infos s !! _private dctx = Some i ->
  HPyDebugInfo.magic_number i = HPY_DEBUG_MAGIC ->
  handles s !! p = Some h ->
  DebugHandle.is_closed h = true ->
  DebugHandle_ptr p ->
  DHPy_unwrap dctx (as_DHPy p) s
  = Abort FatalError (with_trace s (trace s ++ violation_events i (as_DHPy p))).
Proof.
  intros Hi Hm Hh Hclosed Hp. unfold DHPy_unwrap.
  rewrite (as_DHPy_not_null p Hp). destruct Hp as [Hr Hb].
  rewrite (bind_Ret _ _ _ _ _ (as_DebugHandle_as_DHPy p s ltac:(unfold ptr_range; lia) Hb)).
  rewrite (bind_Ret _ _ _ _ _ (load_handle_Some _ _ _ Hh)).
  rewrite Hclosed.
  apply bind_Abort. apply DHPy_invalid_handle_fatal; assumption.
Qed.

Lemma DHPy_close_closed dctx i p h s :
  infos s !! _private dctx = Some i ->
  HPyDebugInfo.magic_number i = HPY_DEBUG_MAGIC ->
  handles s !! p = Some h ->
  DebugHandle.is_closed h = true ->
  DebugHandle_ptr p ->
  DHPy_close dctx (as_DHPy p) s
  = Abort FatalError (with_trace s (trace s ++ violation_events i (as_DHPy p))).
Proof.
  intros Hi Hm Hh Hclosed [Hr Hb]. unfold DHPy_close.
  rewrite (bind_Ret _ _ _ _ _ (get_info_ok dctx i s Hi Hm)).
  rewrite (bind_Ret _ _ _ _ _ (as_DebugHandle_as_DHPy p s ltac:(unfold ptr_range; lia) Hb)).
  rewrite (bind_Ret _ _ _ _ _ (load_handle_Some _ _ _ Hh)).
  rewrite Hclosed. apply DHPy_invalid_handle_fatal; assumption.
Qed.

Lemma DHPy_unwrap_closed_no_return dctx p h s u s' :
  handles s !! p = Some h ->
  DebugHandle.is_closed h = true ->
  DebugHandle_ptr p ->
  DHPy_unwrap dctx (as_DHPy p) s <> Ret u s'.
Proof.
  intros Hh Hclosed Hp. unfold DHPy_unwrap.
  rewrite (as_DHPy_not_null p Hp). destruct Hp as [Hr Hb].
  rewrite (bind_Ret _ _ _ _ _ (as_DebugHandle_as_DHPy p s ltac:(unfold ptr_range; lia) Hb)).
  rewrite (bind_Ret _ _ _ _ _ (load_handle_Some _ _ _ Hh)).
  rewrite Hclosed, bind_run.
  destruct (DHPy_invalid_handle dctx (as_DHPy p) s) as [u1 s1 | |] eqn:E;
    [| discriminate | discriminate].
  exfalso. exact (DHPy_invalid_handle_no_return _ _ _ _ _ E).
Qed.

Lemma DHPy_close_closed_no_return dctx p h s u s' :
  handles s !! p = Some h ->
  DebugHandle.is_closed h = true ->
  DebugHandle_ptr p ->
  DHPy_close dctx (as_DHPy p) s <> Ret u s'.
Proof.
  intros Hh Hclosed [Hr Hb] H. unfold DHPy_close in H.
  apply bind_inv_Ret in H. destruct H as (info & s0 & H0 & H).
  apply get_info_inv in H0. destruct H0 as (-> & -> & _).
  rewrite (bind_Ret _ _ _ _ _ (as_DebugHandle_as_DHPy p s ltac:(unfold ptr_range; lia) Hb)) in H.
  rewrite (bind_Ret _ _ _ _ _ (load_handle_Some _ _ _ Hh)) in H.
  rewrite Hclosed in H. exact (DHPy_invalid_handle_no_return _ _ _ _ _ H).
Qed.

(** For a live wrapper with [is_closed] set: whatever the context, neither
    unwrapping it nor closing it again returns a value; and in a session
    whose tag is intact both calls enter [DHPy_invalid_handle] (recorded in
    the trace, followed by the callback when one is registered) and
    terminate the process through the fatal path. *)
Lemma closed_wrapper_takes_violation_path p h s :
  handles s !! p = Some h ->
  DebugHandle.is_closed h = true ->
  DebugHandle_ptr p ->
  (forall dctx u s'', DHPy_unwrap dctx (as_DHPy p) s <> Ret u s'') /\
  (forall dctx u s'', DHPy_close dctx (as_DHPy p) s <> Ret u s'') /\
  (forall dctx i,
     infos s !! _private dctx = Some i ->
     HPyDebugInfo.magic_number i = HPY_DEBUG_MAGIC ->
     let s' := with_trace s (trace s ++ violation_events i (as_DHPy p)) in
     DHPy_unwrap dctx (as_DHPy p) s = Abort FatalError s' /\
     DHPy_close dctx (as_DHPy p) s = Abort FatalError s' /\
     In (EvInvalidHandle (as_DHPy p)) (trace s')).
Proof.
  intros Hh Hclosed Hp. split; [| split].
  - intros dctx u s''. eapply DHPy_unwrap_closed_no_return; eassumption.
  - intros dctx u s''. eapply DHPy_close_closed_no_return; eassumption.
  - intros dctx i Hi Hm s'. split; [| split].
    + apply (DHPy_unwrap_closed dctx i p h s Hi Hm Hh Hclosed Hp).
    + apply (DHPy_close_closed dctx i p h s Hi Hm Hh Hclosed Hp).
    + unfold s', with_trace, violation_events. simpl.
      apply in_or_app. right. left. reflexivity.
Qed.

(** ** Sanity checks *)

Lemma DHPy_unwrap_odd dctx dh s :
  Z.land (_i dh) 1 = 1 -> DHPy_unwrap dctx dh s = Abort AssertionFailed s.
Proof.
  intros Hodd. unfold DHPy_unwrap.
  assert (Hnn : HPy_IsNull dh = false).
  { unfold HPy_IsNull. apply Z.eqb_neq. intros H0. rewrite H0 in Hodd. discriminate. }
  rewrite Hnn. apply bind_Abort. apply as_DebugHandle_odd. exact Hodd.
Qed.

(** C6 (as amended). A handle whose low bit is 1, that is a raw underlying
    reference, is rejected by [DHPy_sanity_check] when it is cast or
    unwrapped as a wrapper: the assertion fails in the unchanged state,
    before any wrapper is read, so also when no wrapper exists at all. In
    the other direction [UHPy_sanity_check] rejects a non-null handle whose
    low bit is 0 only in a build that defines
    [HPY_DEBUG_ENABLE_UHPY_SANITY_CHECK]; by default it accepts every
    handle, and it always accepts [HPy_NULL]. *)
Theorem sanity_checks_on_tag_bit :
  (forall dctx dh s, Z.land (_i dh) 1 = 1 ->
     as_DebugHandle dh s = Abort AssertionFailed s /\
     DHPy_unwrap dctx dh s = Abort AssertionFailed s) /\
  (forall uh s, Z.land (_i uh) 1 = 0 -> _i uh <> 0 ->
     UHPy_sanity_check true uh s = Abort AssertionFailed s) /\
  (forall uh s, UHPy_sanity_check false uh s = Ret tt s) /\
  (forall s, UHPy_sanity_check true HPy_NULL s = Ret tt s).
Proof.
  repeat split.
  - apply as_DebugHandle_odd. assumption.
  - apply DHPy_unwrap_odd. assumption.
  - intros uh s Hb Hnn. unfold UHPy_sanity_check, HPy_IsNull.
    apply Z.eqb_neq in Hnn. rewrite Hnn, Hb. reflexivity.
Qed.

Lemma sanity_checks_on_tag_bit_witness :
  (as_DebugHandle (mkHPy 17) empty_state = Abort AssertionFailed empty_state /\
   DHPy_unwrap (mkHPyContext 0 1000 0) (mkHPy 17) empty_state
   = Abort AssertionFailed empty_state) /\
  UHPy_sanity_check true (mkHPy 16) empty_state = Abort AssertionFailed empty_state.
Proof.
  split.
  - apply (proj1 sanity_checks_on_tag_bit (mkHPyContext 0 1000 0) (mkHPy 17) empty_state).
    reflexivity.
  - apply (proj1 (proj2 sanity_checks_on_tag_bit) (mkHPy 16) empty_state).
    + reflexivity.
    + simpl. discriminate.
Defined.

(** C6, as stated, fails: in a default build a wrapped reference (here the
    [DHPy] of the wrapper address 16, low bit 0 and not null) passes
    [UHPy_sanity_check], the check made where a raw reference is
    expected. *)
Lemma UHPy_sanity_check_default_accepts_wrapped :
  Z.land (_i (as_DHPy 16)) 1 = 0 /\
  HPy_IsNull (as_DHPy 16) = false /\
  UHPy_sanity_check false (as_DHPy 16) empty_state = Ret tt empty_state.
Proof. repeat split. Qed.

(** ** The session tag *)

(** C7. [get_info] returns the session only after comparing its
    [magic_number] with [HPY_DEBUG_MAGIC]: whenever it returns, the result
    is the context's private data, the state is unchanged and the tag
    matches; when the private data carries another tag the assertion fails;
    and it does return for a properly tagged session. *)
Theorem get_info_validates_magic dctx s :
  (forall info s', get_info dctx s = Ret info s' ->
     info = _private dctx /\ s' = s /\
     exists i, infos s !! info = Some i /\
               HPyDebugInfo.magic_number i = HPY_DEBUG_MAGIC) /\
  (forall i, infos s !! _private dctx = Some i ->
     HPyDebugInfo.magic_number i <> HPY_DEBUG_MAGIC ->
     get_info dctx s = Abort AssertionFailed s) /\
  (forall i, infos s !! _private dctx = Some i ->
     HPyDebugInfo.magic_number i = HPY_DEBUG_MAGIC ->
     get_info dctx s = Ret (_private dctx) s).
Proof.
  repeat split.
  - apply get_info_inv in H. tauto.
  - apply get_info_inv in H. destruct H as (_ & -> & _). reflexivity.
  - apply get_info_inv in H. destruct H as (-> & _ & Hx). destruct Hx as [i Hi]. exists i; tauto.
  - intros i Hi Hm. eapply get_info_bad_magic; eassumption.
  - intros i Hi Hm. eapply get_info_ok; eassumption.
Qed.

(** ** What a returning call does to a session *)

Lemma same_config_refl i : same_config i i.
Proof. unfold same_config. tauto. Qed.

Lemma same_config_trans i1 i2 i3 :
  same_config i1 i2 -> same_config i2 i3 -> same_config i1 i3.
Proof. unfold same_config. intros (?&?&?&?&?) (?&?&?&?&?). repeat split; congruence. Qed.

Lemma open_gens_app t1 t2 : open_gens (t1 ++ t2) = open_gens t1 ++ open_gens t2.
Proof. unfold open_gens. apply flat_map_app. Qed.

Lemma StronglySorted_le_app (l1 l2 : list Z) (m : Z) :
  StronglySorted Z.le l1 -> StronglySorted Z.le l2 ->
  (forall x, x ∈ l1 -> x <= m) -> (forall y, y ∈ l2 -> m <= y) ->
  StronglySorted Z.le (l1 ++ l2).
Proof.
  intros H1 H2 Hl Hr. induction H1 as [| x l1 Hs IH Hx]; simpl; [exact H2 |].
  constructor.
  - apply IH. intros y Hy. apply Hl. right. exact Hy.
  - apply Forall_app. split; [exact Hx |].
    apply Forall_forall. intros y Hy.
    transitivity m; [apply Hl; left | apply Hr; exact Hy].
Qed.

Lemma mret_inv {A} (a b : A) s s' : (mret a : M A) s = Ret b s' -> b = a /\ s' = s.
Proof. intros [= -> ->]. split; reflexivity. Qed.

Lemma assert_inv e s u s' : assert e s = Ret u s' -> e = true /\ s' = s.
Proof. destruct e; [intros [= _ ->]; split; reflexivity | discriminate]. Qed.

Lemma emit_inv e s u s' :
  emit e s = Ret u s' ->
  s' = {| handles := handles s; infos := infos s; trace := trace s ++ [e] |}.
Proof. intros [= _ <-]. reflexivity. Qed.

Lemma load_handle_inv p s h s' :
  load_handle p s = Ret h s' -> s' = s /\ handles s !! p = Some h.
Proof.
  unfold load_handle. destruct (handles s !! p); [intros [= -> ->]; tauto | discriminate].
Qed.

Lemma load_info_inv p s i s' :
  load_info p s = Ret i s' -> s' = s /\ infos s !! p = Some i.
Proof.
  unfold load_info. destruct (infos s !! p); [intros [= -> ->]; tauto | discriminate].
Qed.

Lemma store_info_inv p i s u s' :
  store_info p i s = Ret u s' ->
  is_Some (infos s !! p) /\
  s' = {| handles := handles s; infos := <[p := i]> (infos s); trace := trace s |}.
Proof.
  unfold store_info. destruct (infos s !! p); [intros [= _ <-]; eauto | discriminate].
Qed.

Lemma write_handle_inv p f s u s' :
  write_handle p f s = Ret u s' ->
  exists h, handles s !! p = Some h /\
    s' = {| handles := <[p := f h]> (handles s); infos := infos s; trace := trace s |}.
Proof.
  unfold write_handle. intros H. apply bind_inv_Ret in H. destruct H as (h & s1 & H1 & H2).
  apply load_handle_inv in H1. destruct H1 as [-> Hh]. exists h. split; [exact Hh |].
  unfold store_handle in H2. rewrite Hh in H2. injection H2 as _ <-. reflexivity.
Qed.

Lemma write_info_inv p f s u s' :
  write_info p f s = Ret u s' ->
  exists i, infos s !! p = Some i /\
    s' = {| handles := handles s; infos := <[p := f i]> (infos s); trace := trace s |}.
Proof.
  unfold write_info. intros H. apply bind_inv_Ret in H. destruct H as (i & s1 & H1 & H2).
  apply load_info_inv in H1. destruct H1 as [-> Hi]. exists i. split; [exact Hi |].
  unfold store_info in H2. rewrite Hi in H2. injection H2 as _ <-. reflexivity.
Qed.

(** Splitting a returning sequence into its returning parts. *)
Tactic Notation "inv_bind" hyp(H) "as" ident(a) ident(s) ident(H1) :=
  apply bind_inv_Ret in H; destruct H as (a & s & H1 & H).

Lemma relinked_refl h : relinked h h.
Proof. unfold relinked. tauto. Qed.

Lemma relinked_trans h1 h2 h3 : relinked h1 h2 -> relinked h2 h3 -> relinked h1 h3.
Proof. unfold relinked. intros (?&?&?&?&?) (?&?&?&?&?). repeat split; congruence. Qed.

Lemma relinked_set_prev v h : relinked h (DebugHandle.set_prev v h).
Proof. unfold relinked. simpl. tauto. Qed.

Lemma relinked_set_next v h : relinked h (DebugHandle.set_next v h).
Proof. unfold relinked. simpl. tauto. Qed.

Lemma links_only_refl s : links_only s s.
Proof.
  unfold links_only. repeat split. intros x.
  destruct (handles s !! x); constructor. apply relinked_refl.
Qed.

Lemma links_only_trans s1 s2 s3 : links_only s1 s2 -> links_only s2 s3 -> links_only s1 s3.
Proof.
  intros (Hi1 & Ht1 & Hh1) (Hi2 & Ht2 & Hh2). repeat split; [congruence | congruence |].
  intros x. specialize (Hh1 x). specialize (Hh2 x).
  destruct Hh1 as [h1 h2 Hr1 |]; inversion Hh2 as [h2' h3 Hr2 |]; subst; constructor.
  eapply relinked_trans; eassumption.
Qed.

Lemma write_handle_links p f s u s' :
  (forall h, relinked h (f h)) ->
  write_handle p f s = Ret u s' -> links_only s s'.
Proof.
  intros Hf H. apply write_handle_inv in H. destruct H as (h & Hh & ->).
  repeat split. simpl. intros x.
  destruct (decide (p = x)) as [<- | Hne].
  - rewrite lookup_insert_eq, Hh. constructor. apply Hf.
  - rewrite lookup_insert_ne by exact Hne.
    destruct (handles s !! x); constructor. apply relinked_refl.
Qed.

Lemma DHQueue_append_links q h s q' s' :
  DHQueue_append q h s = Ret q' s' ->
  links_only s s' /\ DHQueue.size q' = DHQueue.size q + 1.
Proof.
  unfold DHQueue_append. intros H. destruct (DHQueue.head q =? NULL).
  - inv_bind H as u1 s1 H1. inv_bind H as u2 s2 H2.
    apply mret_inv in H. destruct H as [-> ->]. split; [| reflexivity].
    apply (links_only_trans _ s1).
    + eapply write_handle_links; [| exact H1]. apply relinked_set_prev.
    + eapply write_handle_links; [| exact H2]. apply relinked_set_next.
  - inv_bind H as u1 s1 H1. inv_bind H as u2 s2 H2. inv_bind H as u3 s3 H3.
    apply mret_inv in H. destruct H as [-> ->]. split; [| reflexivity].
    apply (links_only_trans _ s1).
    { eapply write_handle_links; [| exact H1]. apply relinked_set_next. }
    apply (links_only_trans _ s2).
    + eapply write_handle_links; [| exact H2]. apply relinked_set_prev.
    + eapply write_handle_links; [| exact H3]. apply relinked_set_next.
Qed.

Lemma DHQueue_remove_links q h s q' s' :
  DHQueue_remove q h s = Ret q' s' ->
  links_only s s' /\ DHQueue.size q' = DHQueue.size q - 1.
Proof.
  unfold DHQueue_remove. intros H. inv_bind H as hv s0 H0.
  apply load_handle_inv in H0. destruct H0 as [-> Hh].
  inv_bind H as u1 s1 H1. inv_bind H as u2 s2 H2.
  inv_bind H as u3 s3 H3. inv_bind H as u4 s4 H4.
  apply mret_inv in H. destruct H as [-> ->]. split; [| reflexivity].
  assert (L1 : links_only s s1).
  { destruct (DebugHandle.prev hv =? NULL).
    - apply mret_inv in H1. destruct H1 as [_ ->]. apply links_only_refl.
    - eapply write_handle_links; [| exact H1]. apply relinked_set_next. }
  assert (L2 : links_only s1 s2).
  { destruct (DebugHandle.next hv =? NULL).
    - apply mret_inv in H2. destruct H2 as [_ ->]. apply links_only_refl.
    - eapply write_handle_links; [| exact H2]. apply relinked_set_prev. }
  apply (links_only_trans _ s1); [exact L1 |].
  apply (links_only_trans _ s2); [exact L2 |].
  apply (links_only_trans _ s3).
  - eapply write_handle_links; [| exact H3]. apply relinked_set_prev.
  - eapply write_handle_links; [| exact H4]. apply relinked_set_next.
Qed.

Lemma DHQueue_popfront_links q s q' x s' :
  DHQueue_popfront q s = Ret (q', x) s' ->
  links_only s s' /\ DHQueue.size q' = DHQueue.size q - 1 /\ x = DHQueue.head q.
Proof.
  unfold DHQueue_popfront. intros H. inv_bind H as u0 s0 H0.
  apply assert_inv in H0. destruct H0 as [_ ->].
  inv_bind H as q1 s1 H1. apply mret_inv in H. destruct H as [[= -> ->] ->].
  apply DHQueue_remove_links in H1. tauto.
Qed.

Lemma alloc_balanced_same s s' :
  trace s' = trace s ->
  (forall p, is_Some (handles s' !! p) <-> is_Some (handles s !! p)) ->
  alloc_balanced s -> alloc_balanced s'.
Proof.
  intros Ht Hd Hal p. rewrite Ht, (Hal p). f_equal. specialize (Hd p).
  destruct (handles s !! p), (handles s' !! p); trivial; exfalso.
  - destruct Hd as [_ Hd]. destruct Hd as [? ?]; [eauto | discriminate].
  - destruct Hd as [Hd _]. destruct Hd as [? ?]; [eauto | discriminate].
Qed.

Lemma count_occ_snoc_eq (t : list event) e :
  count_occ event_eq_dec (t ++ [e]) e = S (count_occ event_eq_dec t e).
Proof.
  rewrite count_occ_app, (count_occ_cons_eq event_eq_dec [] (eq_refl e)).
  cbn [count_occ]. lia.
Qed.

Lemma count_occ_snoc_neq (t : list event) e e' :
  e <> e' -> count_occ event_eq_dec (t ++ [e]) e' = count_occ event_eq_dec t e'.
Proof.
  intros Hne. rewrite count_occ_app, (count_occ_cons_neq event_eq_dec [] Hne).
  cbn [count_occ]. lia.
Qed.

Lemma alloc_balanced_quiet_event s e :
  quiet_event e ->
  alloc_balanced s ->
  alloc_balanced {| handles := handles s; infos := infos s; trace := trace s ++ [e] |}.
Proof.
  intros He Hal p. specialize (Hal p). unfold count_malloc, count_free in *.
  cbn [trace handles].
  rewrite !count_occ_snoc_neq; [exact Hal | |]; intros ->; destruct He.
Qed.

Lemma alloc_balanced_malloc s m h :
  handles s !! m = None ->
  alloc_balanced s ->
  alloc_balanced {| handles := <[m := h]> (handles s); infos := infos s;
                    trace := trace s ++ [EvMalloc m] |}.
Proof.
  intros Hm Hal p. specialize (Hal p). unfold count_malloc, count_free in *.
  cbn [trace handles].
  rewrite (count_occ_snoc_neq _ (EvMalloc m) (EvFree p)) by discriminate.
  destruct (decide (m = p)) as [-> | Hne].
  - rewrite count_occ_snoc_eq, lookup_insert_eq. rewrite Hm in Hal. lia.
  - rewrite count_occ_snoc_neq by congruence.
    rewrite lookup_insert_ne by exact Hne. exact Hal.
Qed.

Lemma alloc_balanced_free s p h :
  handles s !! p = Some h ->
  alloc_balanced s ->
  alloc_balanced {| handles := delete p (handles s); infos := infos s;
                    trace := trace s ++ [EvFree p] |}.
Proof.
  intros Hp Hal x. specialize (Hal x). unfold count_malloc, count_free in *.
  cbn [trace handles].
  rewrite (count_occ_snoc_neq _ (EvFree p) (EvMalloc x)) by discriminate.
  destruct (decide (p = x)) as [-> | Hne].
  - rewrite count_occ_snoc_eq, lookup_delete_eq. rewrite Hp in Hal. lia.
  - rewrite count_occ_snoc_neq by congruence.
    rewrite lookup_delete_ne by exact Hne. exact Hal.
Qed.

Section SessionStep.

Variable W : Prop.

Global Instance session_step_refl a : Reflexive (session_step W a).
Proof.
  intros s. split.
  - intros i Hi. exists i. split; [exact Hi |]. split; [apply same_config_refl | lia].
  - tauto.
  - tauto.
  - tauto.
  - exists []. rewrite app_nil_r. split; [reflexivity |]. split; [constructor |].
    intros g Hg. inversion Hg.
Qed.

Global Instance session_step_trans a : Transitive (session_step W a).
Proof.
  intros s1 s2 s3 [Hi1 Hn1 Hb1 Ha1 (t1 & Ht1 & Hs1 & Hg1)] [Hi2 Hn2 Hb2 Ha2 (t2 & Ht2 & Hs2 & Hg2)].
  split.
  - intros i Hi. destruct (Hi1 i Hi) as (i2 & Hi2' & Hc1 & Hle1).
    destruct (Hi2 i2 Hi2') as (i3 & Hi3 & Hc2 & Hle2).
    exists i3. split; [exact Hi3 |]. split; [eapply same_config_trans; eassumption | lia].
  - tauto.
  - tauto.
  - tauto.
  - exists (t1 ++ t2). split; [rewrite Ht2, Ht1, app_assoc; reflexivity |].
    rewrite open_gens_app. split.
    + destruct (open_gens t1) as [| g1 l1] eqn:G1; [exact Hs2 |].
      destruct (Hg1 g1 ltac:(left)) as (i1 & i2 & _ & Hi2' & _).
      rewrite <- G1 in *. clear G1.
      apply (StronglySorted_le_app _ _ (HPyDebugInfo.current_generation i2)); trivial.
      * intros x Hx. destruct (Hg1 x Hx) as (i & i' & _ & Hi' & Hle).
        assert (i' = i2) as -> by congruence. lia.
      * intros y Hy. destruct (Hg2 y Hy) as (i & i' & Hi & _ & Hle).
        assert (i = i2) as -> by congruence. lia.
    + intros g Hg. apply elem_of_app in Hg. destruct Hg as [Hg | Hg].
      * destruct (Hg1 g Hg) as (i1 & i2 & Hi1' & Hi2' & Hle).
        destruct (Hi2 i2 Hi2') as (i3 & Hi3 & _ & Hle2).
        exists i1, i3. repeat split; trivial; lia.
      * destruct (Hg2 g Hg) as (i2 & i3 & Hi2' & Hi3 & Hle).
        destruct (infos s1 !! a) as [i1 |] eqn:E1.
        -- destruct (Hi1 i1 eq_refl) as (i2' & Hi2'' & _ & Hle1).
           assert (i2' = i2) as -> by congruence.
           exists i1, i3. repeat split; trivial; lia.
        -- specialize (Hn1 eq_refl). congruence.
Qed.

Lemma session_step_quiet a s s' t :
  trace s' = trace s ++ t ->
  open_gens t = [] ->
  (forall i, infos s !! a = Some i ->
     exists i', infos s' !! a = Some i' /\ same_config i i' /\
       HPyDebugInfo.current_generation i <= HPyDebugInfo.current_generation i') ->
  (infos s !! a = None -> infos s' !! a = None) ->
  (W -> budget_ok a s -> budget_ok a s') ->
  (alloc_balanced s -> alloc_balanced s') ->
  session_step W a s s'.
Proof.
  intros Ht Hg Hi Hn Hb Hal. split; trivial.
  exists t. rewrite Hg. split; [exact Ht |]. split; [constructor |].
  intros g Hin. inversion Hin.
Qed.

Lemma session_step_same_infos a s s' t :
  infos s' = infos s ->
  trace s' = trace s ++ t ->
  open_gens t = [] ->
  (W -> (forall p h, handles s !! p = Some h -> 0 <= DebugHandle.associated_data_size h) ->
   (forall p h, handles s' !! p = Some h -> 0 <= DebugHandle.associated_data_size h)) ->
  (alloc_balanced s -> alloc_balanced s') ->
  session_step W a s s'.
Proof.
  intros Hi Ht Hg Hsz Hal. apply (session_step_quiet a s s' t); trivial.
  - intros i Hai. exists i. rewrite Hi. split; [exact Hai |].
    split; [apply same_config_refl | lia].
  - rewrite Hi. tauto.
  - unfold budget_ok. rewrite Hi. intros HW [Hc Hs].
    split; [exact Hc | apply Hsz; assumption].
Qed.

Lemma links_only_step a s s' : links_only s s' -> session_step W a s s'.
Proof.
  intros (Hi & Ht & Hh). apply (session_step_same_infos a s s' []); trivial.
  - rewrite app_nil_r. exact Ht.
  - intros _ Hs p h' Hp. specialize (Hh p). rewrite Hp in Hh.
    inversion Hh as [h h'' Hr Hp0 |]; subst.
    destruct Hr as (_ & _ & _ & _ & ->). apply (Hs p h). congruence.
  - apply alloc_balanced_same; [exact Ht |].
    intros p. specialize (Hh p). destruct Hh; split; intros [? ?]; eauto; discriminate.
Qed.

Lemma write_handle_step a p f s u s' :
  (W -> forall h, 0 <= DebugHandle.associated_data_size h ->
                  0 <= DebugHandle.associated_data_size (f h)) ->
  write_handle p f s = Ret u s' -> session_step W a s s'.
Proof.
  intros Hf H. apply write_handle_inv in H. destruct H as (h & Hh & ->).
  apply (session_step_same_infos a _ _ []); simpl; trivial.
  - rewrite app_nil_r. reflexivity.
  - intros HW Hs x hx Hx. destruct (decide (p = x)) as [<- | Hne].
    + rewrite lookup_insert_eq in Hx. injection Hx as <-. apply Hf; [exact HW |]. apply (Hs p h Hh).
    + rewrite lookup_insert_ne in Hx by exact Hne. apply (Hs x hx Hx).
  - apply alloc_balanced_same; [reflexivity |]. simpl. intros x.
    destruct (decide (p = x)) as [<- | Hne].
    + rewrite lookup_insert_eq, Hh. split; eauto.
    + rewrite lookup_insert_ne by exact Hne. tauto.
Qed.

Lemma emit_step a e s u s' :
  quiet_event e -> emit e s = Ret u s' -> session_step W a s s'.
Proof.
  intros He H. apply emit_inv in H. subst s'.
  apply (session_step_same_infos a _ _ [e]); simpl; trivial.
  - destruct e; simpl in *; tauto.
  - apply alloc_balanced_quiet_event. exact He.
Qed.

Lemma raw_data_free_step a data size s r s' :
  raw_data_free data size s = Ret r s' -> session_step W a s s'.
Proof.
  unfold raw_data_free. intros H. inv_bind H as u1 s1 H1.
  apply mret_inv in H. destruct H as [_ ->].
  eapply emit_step; [| exact H1]. exact I.
Qed.

Lemma raw_data_protect_step a data size s r s' :
  raw_data_protect data size s = Ret r s' -> session_step W a s s'.
Proof.
  unfold raw_data_protect. intros H. eapply emit_step; [| exact H]. exact I.
Qed.

(** Storing an updated session: the configuration is kept, the generation
    does not go down, and the new counter is within the budget whenever the
    old state respected it. *)
Lemma store_info_step a b i i' s u s' :
  infos s !! b = Some i ->
  same_config i i' ->
  HPyDebugInfo.current_generation i <= HPyDebugInfo.current_generation i' ->
  (budget_ok b s ->
   HPyDebugInfo.protected_raw_data_size i' <= HPyDebugInfo.protected_raw_data_max_size i') ->
  store_info b i' s = Ret u s' -> session_step W a s s'.
Proof.
  intros Hb Hc Hg Hbud H. apply store_info_inv in H. destruct H as [_ ->].
  apply (session_step_quiet a _ _ []); simpl; trivial.
  - rewrite app_nil_r. reflexivity.
  - intros j Hj. destruct (decide (b = a)) as [-> | Hne].
    + rewrite lookup_insert_eq. exists i'. assert (j = i) as -> by congruence. tauto.
    + rewrite lookup_insert_ne by exact Hne. exists j.
      split; [exact Hj |]. split; [apply same_config_refl | lia].
  - intros Hn. destruct (decide (b = a)) as [-> | Hne]; [congruence |].
    rewrite lookup_insert_ne by exact Hne. exact Hn.
  - intros _ [Hcnt Hsz]. split; [| exact Hsz]. simpl.
    intros j Hj. destruct (decide (b = a)) as [-> | Hne].
    + rewrite lookup_insert_eq in Hj. injection Hj as <-. apply Hbud. split; assumption.
    + rewrite lookup_insert_ne in Hj by exact Hne. apply Hcnt. exact Hj.
Qed.

Lemma protect_raw_data_step a info handle s u s' :
  protect_raw_data info handle s = Ret u s' -> session_step W a s s'.
Proof.
  unfold protect_raw_data. intros H. inv_bind H as h s0 H0.
  apply load_handle_inv in H0. destruct H0 as [-> Hh].
  destruct (DebugHandle.associated_data h =? NULL).
  { apply mret_inv in H. destruct H as [_ ->]. reflexivity. }
  inv_bind H as i s0 H0. apply load_info_inv in H0. destruct H0 as [-> Hi].
  destruct (_ >? _) eqn:Hover.
  - inv_bind H as r1 s1 H1. transitivity s1.
    + eapply raw_data_free_step. exact H1.
    + eapply write_handle_step; [| exact H]. intros _ h0 Hsz. exact Hsz.
  - inv_bind H as r1 s1 H1. transitivity s1.
    + eapply raw_data_protect_step. exact H1.
    + apply emit_inv in H1. subst s1.
      eapply store_info_step; [exact Hi | | | | exact H]; simpl.
      * unfold same_config. simpl. tauto.
      * lia.
      * intros _. rewrite Z.gtb_ltb in Hover. apply Z.ltb_ge in Hover. exact Hover.
Qed.

Lemma release_raw_data_step a info handle s u s' :
  release_raw_data info handle s = Ret u s' -> session_step W a s s'.
Proof.
  unfold release_raw_data. intros H. inv_bind H as h s0 H0.
  apply load_handle_inv in H0. destruct H0 as [-> Hh].
  destruct (DebugHandle.associated_data h =? NULL).
  { apply mret_inv in H. destruct H as [_ ->]. reflexivity. }
  inv_bind H as i s0 H0. apply load_info_inv in H0. destruct H0 as [-> Hi].
  inv_bind H as u1 s1 H1. inv_bind H as r2 s2 H2.
  transitivity s1.
  { eapply store_info_step; [exact Hi | | | | exact H1]; simpl.
    - unfold same_config. simpl. tauto.
    - lia.
    - intros [Hcnt Hsz]. specialize (Hcnt i Hi). specialize (Hsz handle h Hh). lia. }
  transitivity s2.
  - eapply raw_data_free_step. exact H2.
  - eapply write_handle_step; [| exact H]. intros _ h0 Hsz. exact Hsz.
Qed.

Lemma malloc_DebugHandle_step a m s p s' :
  malloc_DebugHandle m s = Ret p s' -> session_step W a s s'.
Proof.
  unfold malloc_DebugHandle. intros H.
  destruct (DebugHandle_ptrb m && bool_decide (handles s !! m = None)) eqn:E.
  - injection H as _ <-. apply (session_step_same_infos a _ _ [EvMalloc m]); simpl; trivial.
    + intros _ Hs x hx Hx. destruct (decide (m = x)) as [<- | Hne].
      * rewrite lookup_insert_eq in Hx. injection Hx as <-. simpl. lia.
      * rewrite lookup_insert_ne in Hx by exact Hne. apply (Hs x hx Hx).
    + apply andb_true_iff in E. destruct E as [_ E]. apply bool_decide_eq_true in E.
      apply alloc_balanced_malloc. exact E.
  - injection H as _ <-. reflexivity.
Qed.

Lemma free_DebugHandle_step a p s u s' :
  free_DebugHandle p s = Ret u s' -> session_step W a s s'.
Proof.
  unfold free_DebugHandle. intros H. destruct (handles s !! p) as [h |] eqn:E; [| discriminate].
  injection H as _ <-. apply (session_step_same_infos a _ _ [EvFree p]); simpl; trivial.
  - intros _ Hs x hx Hx. apply lookup_delete_Some in Hx. destruct Hx as [_ Hx]. apply (Hs x hx Hx).
  - apply (alloc_balanced_free s p h). exact E.
Qed.

Lemma as_DebugHandle_inv dh s p s' :
  as_DebugHandle dh s = Ret p s' ->
  s' = s /\ p = ptr_of_ssize (_i dh) /\ Z.land (_i dh) 1 = 0.
Proof.
  unfold as_DebugHandle, DHPy_sanity_check. intros H. inv_bind H as u0 s0 H0.
  apply assert_inv in H0. destruct H0 as [Hb ->]. apply mret_inv in H. destruct H as [-> ->].
  apply Z.eqb_eq in Hb. tauto.
Qed.

Lemma UHPy_sanity_check_inv flag uh s u s' :
  UHPy_sanity_check flag uh s = Ret u s' -> s' = s.
Proof.
  unfold UHPy_sanity_check. destruct flag; [| intros H; apply mret_inv in H; tauto].
  destruct (negb (HPy_IsNull uh)); intros H.
  - apply assert_inv in H. tauto.
  - apply mret_inv in H. tauto.
Qed.

(** A returning [DHPy_unwrap] leaves the state as it was. *)
Lemma DHPy_unwrap_inv dctx dh s u s' :
  DHPy_unwrap dctx dh s = Ret u s' -> s' = s.
Proof.
  unfold DHPy_unwrap. destruct (HPy_IsNull dh).
  { intros H. apply mret_inv in H. tauto. }
  intros H. inv_bind H as p s0 H0. apply as_DebugHandle_inv in H0. destruct H0 as (-> & _ & _).
  inv_bind H as h s0 H0. apply load_handle_inv in H0. destruct H0 as [-> Hh].
  inv_bind H as u1 s1 H1. destruct (DebugHandle.is_closed h).
  - exfalso. exact (DHPy_invalid_handle_no_return _ _ _ _ _ H1).
  - apply mret_inv in H1. destruct H1 as [_ ->].
    inv_bind H as h' s0 H0. apply load_handle_inv in H0. destruct H0 as [-> _].
    apply mret_inv in H. tauto.
Qed.

Lemma DHPy_free_step dctx dh s u s' :
  DHPy_free dctx dh s = Ret u s' -> session_step W (_private dctx) s s'.
Proof.
  unfold DHPy_free. intros H.
  inv_bind H as p s0 H0. apply as_DebugHandle_inv in H0. destruct H0 as (-> & _ & _).
  inv_bind H as info s0 H0. apply get_info_inv in H0. destruct H0 as (-> & -> & _).
  inv_bind H as h s0 H0. apply load_handle_inv in H0. destruct H0 as [-> Hh].
  inv_bind H as u1 s1 H1. apply assert_inv in H1. destruct H1 as [_ ->].
  inv_bind H as u2 s2 H2. transitivity s2.
  - eapply release_raw_data_step. exact H2.
  - eapply free_DebugHandle_step. exact H.
Qed.

Lemma write_info_step a b f s u s' :
  (forall i, same_config i (f i)) ->
  (forall i, HPyDebugInfo.current_generation i <= HPyDebugInfo.current_generation (f i)) ->
  (forall i, HPyDebugInfo.protected_raw_data_size (f i) = HPyDebugInfo.protected_raw_data_size i) ->
  write_info b f s = Ret u s' -> session_step W a s s'.
Proof.
  intros Hc Hg Hp H. unfold write_info in H. inv_bind H as i s0 H0.
  apply load_info_inv in H0. destruct H0 as [-> Hi].
  eapply store_info_step; [exact Hi | apply Hc | apply Hg | | exact H].
  intros [Hcnt _]. rewrite Hp. destruct (Hc i) as (_ & _ & _ & _ & ->). apply Hcnt. exact Hi.
Qed.

Lemma set_open_handles_step a b q s u s' :
  write_info b (HPyDebugInfo.set_open_handles q) s = Ret u s' -> session_step W a s s'.
Proof.
  apply write_info_step; intros i; simpl; try lia. unfold same_config. simpl. tauto.
Qed.

Lemma set_closed_handles_step a b q s u s' :
  write_info b (HPyDebugInfo.set_closed_handles q) s = Ret u s' -> session_step W a s s'.
Proof.
  apply write_info_step; intros i; simpl; try lia. unfold same_config. simpl. tauto.
Qed.

Lemma emit_open_step a p g i s u s' :
  infos s !! a = Some i ->
  g = HPyDebugInfo.current_generation i ->
  emit (EvOpen p g) s = Ret u s' -> session_step W a s s'.
Proof.
  intros Hi Hg H. apply emit_inv in H. subst s'. split; cbn [handles infos trace].
  - intros j Hj. exists j. split; [exact Hj |]. split; [apply same_config_refl | lia].
  - tauto.
  - tauto.
  - intros Hal x. specialize (Hal x). unfold count_malloc, count_free in *.
    cbn [trace handles]. rewrite !count_occ_snoc_neq by discriminate. exact Hal.
  - exists [EvOpen p g]. split; [reflexivity |]. cbn [open_gens flat_map app]. split.
    + constructor; constructor.
    + intros g' Hg'. apply list_elem_of_singleton in Hg'. subst g'.
      exists i, i. repeat split; trivial; lia.
Qed.

Lemma DHPy_open_storage_step a info m s handle s' :
  DHPy_open_storage info m s = Ret handle s' -> session_step W a s s'.
Proof.
  unfold DHPy_open_storage. intros H.
  inv_bind H as i s0 H0. apply load_info_inv in H0. destruct H0 as [-> Hi].
  destruct (_ && _).
  - inv_bind H as qx t1 P1. destruct qx as [q oldest].
    inv_bind H as u2 t2 P2. inv_bind H as u3 t3 P3.
    apply mret_inv in H. destruct H as [-> ->].
    transitivity t1; [apply links_only_step; apply (DHQueue_popfront_links _ _ _ _ _ P1) |].
    transitivity t2; [eapply set_closed_handles_step; exact P2 |].
    eapply release_raw_data_step. exact P3.
  - eapply malloc_DebugHandle_step. exact H.
Qed.

Lemma DHPy_open_init_step info handle uh s dh s' :
  DHPy_open_init info handle uh s = Ret dh s' -> session_step W info s s'.
Proof.
  unfold DHPy_open_init. intros H.
  inv_bind H as i s0 H0. apply load_info_inv in H0. destruct H0 as [-> Hi].
  inv_bind H as u2 s2 H2. inv_bind H as q s3 H3. inv_bind H as u4 s4 H4.
  inv_bind H as u5 s5 H5. apply mret_inv in H. destruct H as [-> ->].
  pose proof (write_handle_inv _ _ _ _ _ H2) as (h0 & Hh0 & E2).
  pose proof (DHQueue_append_links _ _ _ _ _ H3) as [(I3 & _ & _) _].
  pose proof (write_info_inv _ _ _ _ _ H4) as (i4 & Hi4 & E4).
  transitivity s2.
  { eapply write_handle_step; [| exact H2]. intros _ h _. simpl. lia. }
  transitivity s3.
  { apply links_only_step. apply (DHQueue_append_links _ _ _ _ _ H3). }
  transitivity s4.
  { eapply set_open_handles_step. exact H4. }
  eapply emit_open_step; [| | exact H5].
  - rewrite E4. simpl. apply lookup_insert_eq.
  - simpl. rewrite I3, E2 in Hi4. simpl in Hi4. congruence.
Qed.

Lemma DHPy_open_step flag dctx uh m s dh s' :
  DHPy_open flag dctx uh m s = Ret dh s' -> session_step W (_private dctx) s s'.
Proof.
  unfold DHPy_open. intros H.
  inv_bind H as u0 s0 H0. apply UHPy_sanity_check_inv in H0. subst s0.
  inv_bind H as info s0 H0. apply get_info_inv in H0. destruct H0 as (-> & -> & _).
  inv_bind H as handle s1 H1.
  transitivity s1; [eapply DHPy_open_storage_step; exact H1 |].
  destruct (handle =? NULL).
  - apply mret_inv in H. destruct H as [_ ->]. reflexivity.
  - eapply DHPy_open_init_step. exact H.
Qed.

Lemma DHPy_close_step dctx dh s u s' :
  DHPy_close dctx dh s = Ret u s' -> session_step W (_private dctx) s s'.
Proof.
  unfold DHPy_close. intros H. set (a := _private dctx) in *.
  inv_bind H as info s0 H0. apply get_info_inv in H0. destruct H0 as (-> & -> & _).
  fold a in H.
  inv_bind H as p s0 H0. apply as_DebugHandle_inv in H0. destruct H0 as (-> & _ & _).
  inv_bind H as h s0 H0. apply load_handle_inv in H0. destruct H0 as [-> Hh].
  destruct (DebugHandle.is_closed h).
  { exfalso. exact (DHPy_invalid_handle_no_return _ _ _ _ _ H). }
  inv_bind H as i s0 H0. apply load_info_inv in H0. destruct H0 as [-> Hi].
  inv_bind H as q1 s1 H1. inv_bind H as u2 s2 H2. inv_bind H as u3 s3 H3.
  inv_bind H as i4 s0 H0. apply load_info_inv in H0. destruct H0 as [-> Hi4].
  inv_bind H as q5 s5 H5. inv_bind H as u6 s6 H6. inv_bind H as u7 s7 H7.
  inv_bind H as i8 s0 H0. apply load_info_inv in H0. destruct H0 as [-> Hi8].
  transitivity s1; [apply links_only_step; apply (DHQueue_remove_links _ _ _ _ _ H1) |].
  transitivity s2; [eapply set_open_handles_step; exact H2 |].
  transitivity s3.
  { eapply write_handle_step; [| exact H3]. intros _ h0 Hsz. exact Hsz. }
  transitivity s5; [apply links_only_step; apply (DHQueue_append_links _ _ _ _ _ H5) |].
  transitivity s6; [eapply set_closed_handles_step; exact H6 |].
  transitivity s7; [eapply protect_raw_data_step; exact H7 |].
  destruct (_ <? _).
  - inv_bind H as qx t1 P1. destruct qx as [q oldest]. inv_bind H as u9 t2 P2.
    transitivity t1; [apply links_only_step; apply (DHQueue_popfront_links _ _ _ _ _ P1) |].
    transitivity t2; [eapply set_closed_handles_step; exact P2 |].
    eapply DHPy_free_step. exact H.
  - apply mret_inv in H. destruct H as [_ ->]. reflexivity.
Qed.

Lemma new_generation_step dctx s u s' :
  new_generation dctx s = Ret u s' -> session_step W (_private dctx) s s'.
Proof.
  unfold new_generation. intros H.
  inv_bind H as info s0 H0. apply get_info_inv in H0. destruct H0 as (-> & -> & _).
  eapply write_info_step; [| | | exact H]; intros i; simpl; try lia.
  unfold same_config. simpl. tauto.
Qed.

Lemma attach_raw_data_step dctx dh copy size s u s' :
  (W -> 0 <= size) ->
  attach_raw_data dctx dh copy size s = Ret u s' -> session_step W (_private dctx) s s'.
Proof.
  unfold attach_raw_data. intros Hsize H.
  inv_bind H as u0 s0 H0. apply DHPy_unwrap_inv in H0. subst s0.
  inv_bind H as p s0 H0. apply as_DebugHandle_inv in H0. destruct H0 as (-> & _ & _).
  inv_bind H as u1 s1 H1. transitivity s1.
  - eapply write_handle_step; [| exact H1]. intros _ h Hsz. exact Hsz.
  - eapply write_handle_step; [| exact H]. intros HW h _. simpl. apply Hsize. exact HW.
Qed.

Lemma step_session_step flag dctx o s u s' :
  (W -> wf_op o) -> step flag dctx o s = Ret u s' -> session_step W (_private dctx) s s'.
Proof.
  destruct o as [uh m | dh | dh | | dh copy size]; simpl; intros Hwf H.
  - inv_bind H as d s1 H1. apply mret_inv in H. destruct H as [_ ->].
    eapply DHPy_open_step. exact H1.
  - eapply DHPy_close_step. exact H.
  - inv_bind H as d s1 H1. apply mret_inv in H. destruct H as [_ ->].
    apply DHPy_unwrap_inv in H1. subst s1. reflexivity.
  - eapply new_generation_step. exact H.
  - eapply attach_raw_data_step; eassumption.
Qed.

Lemma run_session_step flag dctx ops s u s' :
  (W -> Forall wf_op ops) -> run flag dctx ops s = Ret u s' -> session_step W (_private dctx) s s'.
Proof.
  revert s. induction ops as [| o ops IH]; simpl; intros s Hwf H.
  - apply mret_inv in H. destruct H as [_ ->]. reflexivity.
  - inv_bind H as u1 s1 H1. transitivity s1.
    + eapply step_session_step; [| exact H1].
      intros HW. apply Hwf in HW. inversion HW; assumption.
    + apply IH; [| exact H]. intros HW. apply Hwf in HW. inversion HW; assumption.
Qed.

End SessionStep.

(** ** Doubly-linked segments *)

Lemma dll_seg_frame hp hp' prv l nxt :
  (forall x, x ∈ l -> hp' !! x = hp !! x) ->
  dll_seg hp prv l nxt -> dll_seg hp' prv l nxt.
Proof.
  revert prv. induction l as [| p l IH]; simpl; intros prv Hf H; [exact I |].
  destruct H as (h & Hp & Hprev & Hnext & Hrest).
  exists h. rewrite Hf by left. repeat split; trivial.
  apply IH; [| exact Hrest]. intros x Hx. apply Hf. right. exact Hx.
Qed.

Lemma dll_seg_insert hp prv l nxt p h :
  p ∉ l -> dll_seg hp prv l nxt -> dll_seg (<[p := h]> hp) prv l nxt.
Proof.
  intros Hp. apply dll_seg_frame. intros x Hx.
  apply lookup_insert_ne. intros ->. contradiction.
Qed.

Lemma dll_seg_delete hp prv l nxt p :
  p ∉ l -> dll_seg hp prv l nxt -> dll_seg (delete p hp) prv l nxt.
Proof.
  intros Hp. apply dll_seg_frame. intros x Hx.
  apply lookup_delete_ne. intros ->. contradiction.
Qed.

Lemma dll_seg_lookup hp prv l nxt x :
  dll_seg hp prv l nxt -> x ∈ l -> is_Some (hp !! x).
Proof.
  revert prv. induction l as [| p l IH]; simpl; intros prv H Hx.
  - inversion Hx.
  - destruct H as (h & Hp & _ & _ & Hrest). apply elem_of_cons in Hx.
    destruct Hx as [-> | Hx]; [eauto | eapply IH; eassumption].
Qed.

Lemma hd_app_nonempty (d d' : Z) l1 l2 : hd d (l1 ++ l2) = hd (hd d l2) l1.
Proof. destruct l1; reflexivity. Qed.

Lemma last_cons_default (p d : Z) l : List.last (p :: l) d = List.last l p.
Proof.
  revert p d. induction l as [| x l IH]; intros p d; [reflexivity |].
  change (List.last (p :: x :: l) d) with (List.last (x :: l) d). rewrite !IH.
  reflexivity.
Qed.

Lemma dll_seg_app hp prv l1 l2 nxt :
  dll_seg hp prv (l1 ++ l2) nxt <->
  dll_seg hp prv l1 (hd nxt l2) /\ dll_seg hp (List.last l1 prv) l2 nxt.
Proof.
  revert prv. induction l1 as [| p l1 IH]; intros prv.
  - simpl. tauto.
  - change ((p :: l1) ++ l2) with (p :: (l1 ++ l2)). cbn [dll_seg].
    rewrite last_cons_default. split.
    + intros (h & Hp & Hprev & Hnext & Hrest). apply IH in Hrest. destruct Hrest as [H1 H2].
      split; [| exact H2]. exists h. repeat split; trivial.
      rewrite Hnext. apply (hd_app_nonempty nxt nxt).
    + intros [(h & Hp & Hprev & Hnext & H1) H2]. exists h. repeat split; trivial.
      * rewrite Hnext. symmetry. apply (hd_app_nonempty nxt nxt).
      * apply IH. split; assumption.
Qed.

(** Redirecting the forward link of the last wrapper of a segment. *)
Lemma dll_seg_set_next_last hp prv l a ha n n' :
  dll_seg hp prv (l ++ [a]) n -> a ∉ l -> hp !! a = Some ha ->
  dll_seg (<[a := DebugHandle.set_next n' ha]> hp) prv (l ++ [a]) n'.
Proof.
  intros H Ha Hlk. apply dll_seg_app in H. destruct H as [H1 H2].
  apply dll_seg_app. split.
  - simpl in *. apply dll_seg_insert; assumption.
  - simpl in *. destruct H2 as (h & Hp & Hprev & _ & _).
    assert (h = ha) as -> by congruence.
    exists (DebugHandle.set_next n' ha). rewrite lookup_insert_eq. simpl. tauto.
Qed.

(** Redirecting the backward link of the first wrapper of a segment. *)
Lemma dll_seg_set_prev_first hp prv prv' b l hb n :
  dll_seg hp prv (b :: l) n -> b ∉ l -> hp !! b = Some hb ->
  dll_seg (<[b := DebugHandle.set_prev prv' hb]> hp) prv' (b :: l) n.
Proof.
  simpl. intros (h & Hp & _ & Hnext & Hrest) Hb Hlk.
  assert (h = hb) as -> by congruence.
  exists (DebugHandle.set_prev prv' hb). rewrite lookup_insert_eq. simpl.
  repeat split; trivial. apply dll_seg_insert; assumption.
Qed.

Lemma write_handle_Some p f h s :
  handles s !! p = Some h ->
  write_handle p f s = Ret tt (set_handles (<[p := f h]> (handles s)) s).
Proof.
  intros Hh. unfold write_handle.
  rewrite (bind_Ret _ _ _ _ _ (load_handle_Some _ _ _ Hh)).
  unfold store_handle. rewrite Hh. reflexivity.
Qed.

Lemma write_info_Some p f i s :
  infos s !! p = Some i ->
  write_info p f s = Ret tt (set_infos (<[p := f i]> (infos s)) s).
Proof.
  intros Hi. unfold write_info.
  rewrite (bind_Ret _ _ _ _ _ (load_info_Some _ _ _ Hi)).
  unfold store_info. rewrite Hi. reflexivity.
Qed.

(** ** The queue operations on a represented queue *)

Lemma hd_elem_of (d : Z) l : l <> [] -> hd d l ∈ l.
Proof. destruct l; [congruence | intros _; left]. Qed.

Lemma last_elem_of (d : Z) l : l <> [] -> List.last l d ∈ l.
Proof.
  destruct l as [| x l] using rev_ind; [congruence | intros _].
  rewrite last_last. apply elem_of_app. right. left.
Qed.

Lemma last_app_nonempty (d : Z) l1 l2 :
  l2 <> [] -> List.last (l1 ++ l2) d = List.last l2 d.
Proof.
  destruct l2 as [| x l2 _] using rev_ind; [congruence | intros _].
  rewrite app_assoc, !last_last. reflexivity.
Qed.

Lemma DHQueue_append_spec q l p hp_p s :
  queue_repr (handles s) q l ->
  NoDup l -> p ∉ l -> (forall x, x ∈ l -> x <> NULL) ->
  handles s !! p = Some hp_p ->
  exists q' s', DHQueue_append q p s = Ret q' s' /\
    queue_repr (handles s') q' (l ++ [p]) /\
    (forall x, x ∉ p :: l -> handles s' !! x = handles s !! x).
Proof.
  intros (Hhead & Htail & Hsize & Hdll) Hnd Hp Hnn Hlk. unfold DHQueue_append.
  destruct l as [| t l0 _] using rev_ind.
  - simpl in Hhead. rewrite Hhead. simpl.
    rewrite (bind_Ret _ _ _ _ _ (write_handle_Some p _ hp_p s Hlk)).
    erewrite bind_Ret; [| apply write_handle_Some; simpl; apply lookup_insert_eq].
    eexists _, _. split; [reflexivity |]. simpl. split.
    + repeat split; simpl; [rewrite Hsize; reflexivity |].
      eexists. rewrite lookup_insert_eq. split; [reflexivity |]. simpl. tauto.
    + intros x Hx. rewrite !lookup_insert_ne; [reflexivity | |];
        intros ->; apply Hx; left.
  - assert (Hh : (DHQueue.head q =? NULL) = false).
    { apply Z.eqb_neq. rewrite Hhead. apply Hnn. apply hd_elem_of.
      intros E. apply app_eq_nil in E. destruct E as [_ E]. discriminate. }
    rewrite Hh. rewrite last_last in Htail.
    assert (Htp : t <> p).
    { intros ->. apply Hp. apply elem_of_app. right. left. }
    apply NoDup_app in Hnd. destruct Hnd as (Hnd0 & Hdisj & _).
    assert (Ht0 : t ∉ l0).
    { intros Hin. apply (Hdisj t Hin). left. }
    assert (Hp0 : p ∉ l0).
    { intros Hin. apply Hp. apply elem_of_app. left. exact Hin. }
    pose proof Hdll as Hdll'. apply dll_seg_app in Hdll'. destruct Hdll' as [_ Hlast].
    simpl in Hlast. destruct Hlast as (ht & Hlt & Hprev_t & _ & _).
    rewrite (bind_Ret _ _ _ _ _ (write_handle_Some p _ hp_p s Hlk)).
    erewrite bind_Ret; [| apply write_handle_Some; simpl; apply lookup_insert_eq].
    erewrite bind_Ret;
      [| apply write_handle_Some; simpl; rewrite Htail;
         rewrite !lookup_insert_ne by (intros E; apply Htp; symmetry; exact E); exact Hlt].
    eexists _, _. split; [reflexivity |]. simpl. split.
    + repeat split; simpl.
      * rewrite Hhead. rewrite <- app_assoc. rewrite !(hd_app_nonempty NULL NULL).
        destruct l0; reflexivity.
      * rewrite last_last. reflexivity.
      * rewrite Hsize, !length_app. simpl. lia.
      * rewrite Htail. rewrite <- app_assoc. apply dll_seg_app. split.
        -- simpl. apply dll_seg_app in Hdll. destruct Hdll as [Hd0 _]. simpl in Hd0.
           repeat (apply dll_seg_insert; trivial).
        -- simpl. eexists. rewrite lookup_insert_eq. split; [reflexivity |].
           simpl. split; [exact Hprev_t |]. split; [reflexivity |].
           eexists. rewrite lookup_insert_ne by exact Htp. rewrite lookup_insert_eq.
           split; [reflexivity |]. simpl. tauto.
    + intros x Hx. rewrite Htail.
      assert (x <> p) by (intros ->; apply Hx; left).
      assert (x <> t) by (intros ->; apply Hx; right; apply elem_of_app; right; left).
      rewrite !lookup_insert_ne by congruence. reflexivity.
Qed.

Lemma DHQueue_remove_spec q l1 p l2 s :
  queue_repr (handles s) q (l1 ++ p :: l2) ->
  NoDup (l1 ++ p :: l2) ->
  (forall x, x ∈ l1 ++ p :: l2 -> x <> NULL) ->
  exists q' s', DHQueue_remove q p s = Ret q' s' /\
    queue_repr (handles s') q' (l1 ++ l2) /\
    (forall x, x ∉ l1 ++ p :: l2 -> handles s' !! x = handles s !! x).
Proof.
  destruct s as [hp im tr]. simpl.
  intros (Hhead & Htail & Hsize & Hdll) Hnd Hnn.
  apply dll_seg_app in Hdll. destruct Hdll as [Hd1 Hd2].
  cbn [hd dll_seg] in Hd1, Hd2. destruct Hd2 as (hp_p & Hlk & Hprev & Hnext & Hd2).
  apply NoDup_app in Hnd. destruct Hnd as (Hnd1 & Hdisj & Hnd2).
  apply NoDup_cons in Hnd2. destruct Hnd2 as [Hp2 Hnd2].
  assert (Hp1 : p ∉ l1) by (intros Hin; apply (Hdisj p Hin); left).
  assert (Hdisj' : forall x, x ∈ l1 -> x ∉ l2).
  { intros x Hx1 Hx2. apply (Hdisj x Hx1). right. exact Hx2. }
  set (prv := List.last l1 NULL) in *. set (nxt := hd NULL l2) in *.
  (* the wrapper before p, if any, now points forward to nxt *)
  assert (S1 : exists hpA,
    (if DebugHandle.prev hp_p =? NULL then mret tt
     else write_handle (DebugHandle.prev hp_p) (DebugHandle.set_next (DebugHandle.next hp_p)))
      (mkState hp im tr) = Ret tt (mkState hpA im tr) /\
    dll_seg hpA NULL l1 nxt /\
    (forall x, x ∉ l1 -> hpA !! x = hp !! x) /\
    ((DebugHandle.prev hp_p =? NULL) = true <-> l1 = [])).
  { rewrite Hprev, Hnext. unfold prv. destruct l1 as [| a l1' _] using rev_ind.
    - exists hp. simpl. repeat split; trivial.
    - rewrite last_last.
      assert (Ha : a <> NULL) by (apply Hnn; apply elem_of_app; left; apply elem_of_app; right; left).
      apply Z.eqb_neq in Ha. rewrite Ha.
      apply NoDup_app in Hnd1. destruct Hnd1 as (_ & Hda & _).
      assert (Ha' : a ∉ l1') by (intros Hin; apply (Hda a Hin); left).
      pose proof Hd1 as Hd1'. apply dll_seg_app in Hd1'. destruct Hd1' as [_ Hla].
      simpl in Hla. destruct Hla as (ha & Hlka & _).
      exists (<[a := DebugHandle.set_next nxt ha]> hp). split; [| split; [| split]].
      + rewrite (write_handle_Some a _ ha (mkState hp im tr) Hlka). reflexivity.
      + eapply dll_seg_set_next_last; eassumption.
      + intros x Hx. apply lookup_insert_ne. intros ->. apply Hx. apply elem_of_app. right. left.
      + split; [discriminate |]. intros E. apply app_eq_nil in E. destruct E as [_ E]. discriminate. }
  destruct S1 as (hpA & E1 & HdA & HfA & Hl1).
  (* the wrapper after p, if any, now points back to prv *)
  assert (S2 : exists hpB,
    (if DebugHandle.next hp_p =? NULL then mret tt
     else write_handle (DebugHandle.next hp_p) (DebugHandle.set_prev (DebugHandle.prev hp_p)))
      (mkState hpA im tr) = Ret tt (mkState hpB im tr) /\
    dll_seg hpB prv l2 NULL /\
    (forall x, x ∉ l2 -> hpB !! x = hpA !! x) /\
    ((DebugHandle.next hp_p =? NULL) = true <-> l2 = [])).
  { rewrite Hprev, Hnext. unfold nxt. destruct l2 as [| b l2'].
    - exists hpA. simpl. repeat split; trivial.
    - change (hd NULL (b :: l2')) with b.
      assert (Hb : b <> NULL) by (apply Hnn; apply elem_of_app; right; right; left).
      apply Z.eqb_neq in Hb. rewrite Hb.
      apply NoDup_cons in Hnd2. destruct Hnd2 as [Hb' _].
      assert (Hb1 : b ∉ l1) by (intros Hin; apply (Hdisj' b Hin); left).
      pose proof Hd2 as Hd2'. simpl in Hd2'. destruct Hd2' as (hb & Hlkb & _).
      assert (HlkbA : hpA !! b = Some hb) by (rewrite HfA; assumption).
      exists (<[b := DebugHandle.set_prev prv hb]> hpA). split; [| split; [| split]].
      + rewrite (write_handle_Some b _ hb (mkState hpA im tr) HlkbA). reflexivity.
      + eapply dll_seg_set_prev_first; [| exact Hb' | exact HlkbA].
        eapply dll_seg_frame; [| exact Hd2]. intros x Hx. apply HfA.
        intros Hx1. exact (Hdisj' x Hx1 Hx).
      + intros x Hx. apply lookup_insert_ne. intros ->. apply Hx. left.
      + split; discriminate. }
  destruct S2 as (hpB & E2 & HdB & HfB & Hl2).
  assert (HlkB : hpB !! p = Some hp_p).
  { rewrite HfB by exact Hp2. rewrite HfA by exact Hp1. exact Hlk. }
  unfold DHQueue_remove.
  rewrite (bind_Ret _ _ _ _ _ (load_handle_Some p hp_p (mkState hp im tr) Hlk)).
  cbv zeta. rewrite (bind_Ret _ _ _ _ _ E1). rewrite (bind_Ret _ _ _ _ _ E2).
  rewrite (bind_Ret _ _ _ _ _ (write_handle_Some p _ hp_p (mkState hpB im tr) HlkB)).
  erewrite bind_Ret; [| apply write_handle_Some; simpl; apply lookup_insert_eq].
  eexists _, _. split; [reflexivity |]. simpl. split.
  - repeat split; simpl.
    + destruct (DebugHandle.prev hp_p =? NULL).
      * destruct Hl1 as [Hl1 _]. rewrite (Hl1 eq_refl). rewrite Hnext. reflexivity.
      * rewrite Hhead. destruct l1; [| reflexivity].
        destruct Hl1 as [_ Hl1]. specialize (Hl1 eq_refl). discriminate.
    + destruct (DebugHandle.next hp_p =? NULL).
      * destruct Hl2 as [Hl2 _]. rewrite (Hl2 eq_refl). rewrite app_nil_r. exact Hprev.
      * rewrite Htail. destruct l2 as [| b l2'].
        { destruct Hl2 as [_ Hl2]. specialize (Hl2 eq_refl). discriminate. }
        rewrite !last_app_nonempty by discriminate. reflexivity.
    + rewrite Hsize, !length_app. simpl. lia.
    + apply dll_seg_app. split.
      * eapply dll_seg_frame; [| exact HdA]. intros x Hx.
        assert (x <> p) by (intros ->; contradiction).
        rewrite !lookup_insert_ne by congruence. apply HfB. exact (Hdisj' x Hx).
      * fold prv. repeat (apply dll_seg_insert; trivial).
  - intros x Hx.
    assert (x <> p) by (intros ->; apply Hx; apply elem_of_app; right; left).
    rewrite !lookup_insert_ne by congruence.
    rewrite HfB, HfA; [reflexivity | |]; intros Hin; apply Hx; apply elem_of_app;
      [left | right; right]; exact Hin.
Qed.

Lemma DHQueue_popfront_spec q x l s :
  queue_repr (handles s) q (x :: l) ->
  NoDup (x :: l) ->
  (forall y, y ∈ x :: l -> y <> NULL) ->
  exists q' s', DHQueue_popfront q s = Ret (q', x) s' /\
    queue_repr (handles s') q' l /\
    (forall y, y ∉ x :: l -> handles s' !! y = handles s !! y).
Proof.
  intros Hq Hnd Hnn. pose proof Hq as (Hhead & _). simpl in Hhead.
  destruct (DHQueue_remove_spec q [] x l s Hq Hnd Hnn) as (q' & s' & E & Hq' & Hf).
  exists q', s'. split; [| split; assumption].
  unfold DHQueue_popfront.
  assert (Hx : (DHQueue.head q =? NULL) = false).
  { apply Z.eqb_neq. rewrite Hhead. apply Hnn. left. }
  rewrite Hx. simpl negb. rewrite (bind_Ret _ _ _ _ _ (assert_true s)).
  rewrite Hhead. rewrite (bind_Ret _ _ _ _ _ E). reflexivity.
Qed.

(** A queue only depends on the links of its own members. *)
Lemma dll_seg_same_links hp hp' prv l nxt :
  (forall x h, x ∈ l -> hp !! x = Some h ->
     exists h', hp' !! x = Some h' /\
       DebugHandle.prev h' = DebugHandle.prev h /\ DebugHandle.next h' = DebugHandle.next h) ->
  dll_seg hp prv l nxt -> dll_seg hp' prv l nxt.
Proof.
  revert prv. induction l as [| p l IH]; simpl; intros prv Hf H; [exact I |].
  destruct H as (h & Hp & Hprev & Hnext & Hrest).
  destruct (Hf p h ltac:(left) Hp) as (h' & Hp' & Eprev & Enext).
  exists h'. repeat split; [exact Hp' | congruence | congruence |].
  apply IH; [| exact Hrest]. intros x hx Hx. apply Hf. right. exact Hx.
Qed.

Lemma queue_repr_same_links hp hp' q l :
  (forall x h, x ∈ l -> hp !! x = Some h ->
     exists h', hp' !! x = Some h' /\
       DebugHandle.prev h' = DebugHandle.prev h /\ DebugHandle.next h' = DebugHandle.next h) ->
  queue_repr hp q l -> queue_repr hp' q l.
Proof.
  intros Hf (Hhead & Htail & Hsize & Hdll). repeat split; trivial.
  eapply dll_seg_same_links; eassumption.
Qed.

Lemma queue_repr_frame hp hp' q l :
  (forall x, x ∈ l -> hp' !! x = hp !! x) ->
  queue_repr hp q l -> queue_repr hp' q l.
Proof.
  intros Hf. apply queue_repr_same_links. intros x h Hx Hh.
  exists h. rewrite Hf by exact Hx. tauto.
Qed.

(** Rewriting one wrapper without touching its links. *)
Lemma queue_repr_insert hp q l p h h' :
  hp !! p = Some h ->
  DebugHandle.prev h' = DebugHandle.prev h ->
  DebugHandle.next h' = DebugHandle.next h ->
  queue_repr hp q l -> queue_repr (<[p := h']> hp) q l.
Proof.
  intros Hp Hprev Hnext. apply queue_repr_same_links. intros x hx Hx Hhx.
  destruct (decide (p = x)) as [<- | Hne].
  - rewrite lookup_insert_eq. exists h'. assert (hx = h) as -> by congruence. tauto.
  - rewrite lookup_insert_ne by exact Hne. exists hx. tauto.
Qed.

Lemma queue_repr_lookup hp q l x :
  queue_repr hp q l -> x ∈ l -> is_Some (hp !! x).
Proof. intros (_ & _ & _ & Hdll) Hx. eapply dll_seg_lookup; eassumption. Qed.

Lemma flags_ok_links_only s s' lo lc :
  links_only s s' -> flags_ok (handles s) lo lc -> flags_ok (handles s') lo lc.
Proof.
  intros (_ & _ & Hl) (Hdom & Hopen & Hclosed). repeat split.
  - intros p Hp. apply Hdom. specialize (Hl p). destruct Hl; [eauto |].
    destruct Hp as [? ?]; discriminate.
  - intros p h' Hp Hh'. specialize (Hl p). rewrite Hh' in Hl.
    inversion Hl as [h h'' Hr Hh |]; subst. destruct Hr as (_ & _ & -> & _).
    apply (Hopen p h Hp). congruence.
  - intros p h' Hp Hh'. specialize (Hl p). rewrite Hh' in Hl.
    inversion Hl as [h h'' Hr Hh |]; subst. destruct Hr as (_ & _ & -> & _).
    apply (Hclosed p h Hp). congruence.
Qed.

Lemma flags_ok_insert hp lo lc p h h' :
  hp !! p = Some h ->
  DebugHandle.is_closed h' = DebugHandle.is_closed h ->
  flags_ok hp lo lc -> flags_ok (<[p := h']> hp) lo lc.
Proof.
  intros Hp Hc (Hdom & Hopen & Hclosed). repeat split.
  - intros x Hx. apply Hdom. destruct (decide (p = x)) as [<- | Hne]; [eauto |].
    rewrite lookup_insert_ne in Hx by exact Hne. exact Hx.
  - intros x hx Hx Hhx. destruct (decide (p = x)) as [<- | Hne].
    + rewrite lookup_insert_eq in Hhx. injection Hhx as <-. rewrite Hc. eapply Hopen; eassumption.
    + rewrite lookup_insert_ne in Hhx by exact Hne. eapply Hopen; eassumption.
  - intros x hx Hx Hhx. destruct (decide (p = x)) as [<- | Hne].
    + rewrite lookup_insert_eq in Hhx. injection Hhx as <-. rewrite Hc. eapply Hclosed; eassumption.
    + rewrite lookup_insert_ne in Hhx by exact Hne. eapply Hclosed; eassumption.
Qed.

(** Marking an open wrapper closed moves it from the open wrappers to the
    end of the closed ones. *)
Lemma flags_ok_close hp lo1 p lo2 lc h h' :
  NoDup ((lo1 ++ p :: lo2) ++ lc) ->
  hp !! p = Some h ->
  DebugHandle.is_closed h' = true ->
  flags_ok hp (lo1 ++ p :: lo2) lc ->
  flags_ok (<[p := h']> hp) (lo1 ++ lo2) (lc ++ [p]).
Proof.
  intros Hnd Hp Hc (Hdom & Hopen & Hclosed). repeat split.
  - intros x Hx.
    assert (Hin : x ∈ (lo1 ++ p :: lo2) ++ lc).
    { apply Hdom. destruct (decide (p = x)) as [<- | Hne]; [eauto |].
      rewrite lookup_insert_ne in Hx by exact Hne. exact Hx. }
    set_solver.
  - intros x hx Hx Hhx. destruct (decide (p = x)) as [<- | Hne].
    + exfalso. apply NoDup_app in Hnd. destruct Hnd as (Hnd & _ & _).
      apply NoDup_app in Hnd. destruct Hnd as (_ & Hd & Hnd2).
      apply NoDup_cons in Hnd2. destruct Hnd2 as [Hp2 _].
      apply elem_of_app in Hx. destruct Hx as [Hx | Hx]; [| contradiction].
      apply (Hd p Hx). left.
    + rewrite lookup_insert_ne in Hhx by exact Hne. apply (Hopen x hx); [| exact Hhx]. set_solver.
  - intros x hx Hx Hhx. destruct (decide (p = x)) as [<- | Hne].
    + rewrite lookup_insert_eq in Hhx. injection Hhx as <-. exact Hc.
    + rewrite lookup_insert_ne in Hhx by exact Hne. apply (Hclosed x hx); [| exact Hhx]. set_solver.
Qed.

(** Freeing the oldest closed wrapper. *)
Lemma flags_ok_delete hp lo x lc :
  NoDup (lo ++ x :: lc) ->
  flags_ok hp lo (x :: lc) -> flags_ok (delete x hp) lo lc.
Proof.
  intros Hnd (Hdom & Hopen & Hclosed). repeat split.
  - intros y Hy. destruct (decide (x = y)) as [<- | Hne].
    + rewrite lookup_delete_eq in Hy. destruct Hy as [? ?]. discriminate.
    + rewrite lookup_delete_ne in Hy by exact Hne. specialize (Hdom y Hy). set_solver.
  - intros y hy Hy Hhy. apply lookup_delete_Some in Hhy. destruct Hhy as [_ Hhy].
    eapply Hopen; eassumption.
  - intros y hy Hy Hhy. apply lookup_delete_Some in Hhy. destruct Hhy as [_ Hhy].
    apply (Hclosed y hy); [right; exact Hy | exact Hhy].
Qed.

(** ** The raw-data guard, case by case *)

Lemma set_protected_raw_data_size_id i :
  HPyDebugInfo.set_protected_raw_data_size (HPyDebugInfo.protected_raw_data_size i) i = i.
Proof. destruct i. reflexivity. Qed.

Lemma same_but_data_refl h : same_but_data h h.
Proof. unfold same_but_data. tauto. Qed.

Lemma same_but_data_set_associated_data d h :
  same_but_data h (DebugHandle.set_associated_data d h).
Proof. unfold same_but_data. simpl. tauto. Qed.

Lemma raw_data_free_run data size s :
  raw_data_free data size s
  = Ret 0 {| handles := handles s; infos := infos s;
             trace := trace s ++ [EvRawDataFree data size] |}.
Proof. reflexivity. Qed.

Lemma raw_data_protect_run data size s :
  raw_data_protect data size s
  = Ret tt {| handles := handles s; infos := infos s;
              trace := trace s ++ [EvRawDataProtect data size] |}.
Proof. reflexivity. Qed.

(** No buffer attached: nothing happens. *)
Lemma protect_raw_data_none info handle h s :
  handles s !! handle = Some h ->
  DebugHandle.associated_data h = NULL ->
  protect_raw_data info handle s = Ret tt s.
Proof.
  intros Hh Hd. unfold protect_raw_data.
  rewrite (bind_Ret _ _ _ _ _ (load_handle_Some _ _ _ Hh)). rewrite Hd. reflexivity.
Qed.

(** Protecting would exceed the budget: the buffer is released with
    [raw_data_free], it is never passed to [raw_data_protect], the wrapper
    forgets it, and the session (so its counter) is left as it was. *)
Lemma protect_raw_data_over info handle h i s :
  handles s !! handle = Some h ->
  DebugHandle.associated_data h <> NULL ->
  infos s !! info = Some i ->
  HPyDebugInfo.protected_raw_data_max_size i
  < HPyDebugInfo.protected_raw_data_size i + DebugHandle.associated_data_size h ->
  protect_raw_data info handle s
  = Ret tt {| handles := <[handle := DebugHandle.set_associated_data NULL h]> (handles s);
              infos := infos s;
              trace := trace s ++ [EvRawDataFree (DebugHandle.associated_data h)
                                                 (DebugHandle.associated_data_size h)] |}.
Proof.
  intros Hh Hd Hi Hover. unfold protect_raw_data.
  rewrite (bind_Ret _ _ _ _ _ (load_handle_Some _ _ _ Hh)).
  apply Z.eqb_neq in Hd. rewrite Hd.
  rewrite (bind_Ret _ _ _ _ _ (load_info_Some _ _ _ Hi)). cbv zeta.
  rewrite Z.gtb_ltb. apply Z.ltb_lt in Hover. rewrite Hover.
  rewrite (bind_Ret _ _ _ _ _ (raw_data_free_run _ _ s)).
  erewrite write_handle_Some; [reflexivity | exact Hh].
Qed.

(** Protecting stays within the budget: the buffer is protected and the
    counter grows by its length. *)
Lemma protect_raw_data_within info handle h i s :
  handles s !! handle = Some h ->
  DebugHandle.associated_data h <> NULL ->
  infos s !! info = Some i ->
  HPyDebugInfo.protected_raw_data_size i + DebugHandle.associated_data_size h
  <= HPyDebugInfo.protected_raw_data_max_size i ->
  protect_raw_data info handle s
  = Ret tt {| handles := handles s;
              infos := <[info := HPyDebugInfo.set_protected_raw_data_size
                           (HPyDebugInfo.protected_raw_data_size i
                            + DebugHandle.associated_data_size h) i]> (infos s);
              trace := trace s ++ [EvRawDataProtect (DebugHandle.associated_data h)
                                                    (DebugHandle.associated_data_size h)] |}.
Proof.
  intros Hh Hd Hi Hok. unfold protect_raw_data.
  rewrite (bind_Ret _ _ _ _ _ (load_handle_Some _ _ _ Hh)).
  apply Z.eqb_neq in Hd. rewrite Hd.
  rewrite (bind_Ret _ _ _ _ _ (load_info_Some _ _ _ Hi)). cbv zeta.
  rewrite Z.gtb_ltb. apply Z.ltb_ge in Hok. rewrite Hok.
  rewrite (bind_Ret _ _ _ _ _ (raw_data_protect_run _ _ s)).
  unfold store_info. cbn [infos]. rewrite Hi. reflexivity.
Qed.

Lemma protect_raw_data_spec info handle h i s :
  handles s !! handle = Some h ->
  infos s !! info = Some i ->
  exists h' n t,
    protect_raw_data info handle s
    = Ret tt {| handles := <[handle := h']> (handles s);
                infos := <[info := HPyDebugInfo.set_protected_raw_data_size n i]> (infos s);
                trace := trace s ++ t |} /\
    same_but_data h h' /\ Forall quiet_event t.
Proof.
  intros Hh Hi.
  destruct (decide (DebugHandle.associated_data h = NULL)) as [Hd | Hd].
  - exists h, (HPyDebugInfo.protected_raw_data_size i), [].
    rewrite (protect_raw_data_none _ _ _ _ Hh Hd).
    rewrite set_protected_raw_data_size_id, !insert_id, app_nil_r by assumption.
    destruct s. split; [reflexivity |]. split; [apply same_but_data_refl | constructor].
  - destruct (Z_lt_le_dec (HPyDebugInfo.protected_raw_data_max_size i)
                (HPyDebugInfo.protected_raw_data_size i + DebugHandle.associated_data_size h))
      as [Hover | Hok].
    + eexists _, (HPyDebugInfo.protected_raw_data_size i), _.
      rewrite (protect_raw_data_over _ _ _ _ _ Hh Hd Hi Hover).
      rewrite set_protected_raw_data_size_id, (insert_id (infos s)) by assumption.
      split; [reflexivity |].
      split; [apply same_but_data_set_associated_data | repeat constructor].
    + exists h. eexists _, _.
      rewrite (protect_raw_data_within _ _ _ _ _ Hh Hd Hi Hok).
      rewrite (insert_id (handles s)) by assumption.
      split; [reflexivity |]. split; [apply same_but_data_refl | repeat constructor].
Qed.

Lemma release_raw_data_spec info handle h i s :
  handles s !! handle = Some h ->
  infos s !! info = Some i ->
  exists h' n t,
    release_raw_data info handle s
    = Ret tt {| handles := <[handle := h']> (handles s);
                infos := <[info := HPyDebugInfo.set_protected_raw_data_size n i]> (infos s);
                trace := trace s ++ t |} /\
    same_but_data h h' /\ Forall quiet_event t.
Proof.
  intros Hh Hi. unfold release_raw_data.
  rewrite (bind_Ret _ _ _ _ _ (load_handle_Some _ _ _ Hh)).
  destruct (DebugHandle.associated_data h =? NULL).
  - exists h, (HPyDebugInfo.protected_raw_data_size i), [].
    rewrite set_protected_raw_data_size_id, !insert_id, app_nil_r by assumption.
    destruct s. split; [reflexivity |]. split; [apply same_but_data_refl | constructor].
  - rewrite (bind_Ret _ _ _ _ _ (load_info_Some _ _ _ Hi)).
    erewrite bind_Ret; [| unfold store_info; rewrite Hi; reflexivity].
    erewrite bind_Ret; [| apply raw_data_free_run].
    erewrite write_handle_Some; [| exact Hh].
    eexists _, _, _. split; [reflexivity |].
    split; [apply same_but_data_set_associated_data | repeat constructor].
Qed.

Lemma DHPy_free_spec dctx x hx i s :
  infos s !! _private dctx = Some i ->
  HPyDebugInfo.magic_number i = HPY_DEBUG_MAGIC ->
  handles s !! x = Some hx ->
  DebugHandle.is_closed hx = true ->
  DebugHandle_ptr x ->
  exists n t,
    DHPy_free dctx (as_DHPy x) s
    = Ret tt {| handles := delete x (handles s);
                infos := <[_private dctx := HPyDebugInfo.set_protected_raw_data_size n i]> (infos s);
                trace := trace s ++ t ++ [EvFree x] |} /\
    Forall quiet_event t.
Proof.
  intros Hi Hm Hx Hc [Hr Hb]. unfold DHPy_free.
  rewrite (bind_Ret _ _ _ _ _ (as_DebugHandle_as_DHPy x s ltac:(unfold ptr_range; lia) Hb)).
  rewrite (bind_Ret _ _ _ _ _ (get_info_ok dctx i s Hi Hm)).
  rewrite (bind_Ret _ _ _ _ _ (load_handle_Some _ _ _ Hx)).
  rewrite Hc. rewrite (bind_Ret _ _ _ _ _ (assert_true s)).
  destruct (release_raw_data_spec (_private dctx) x hx i s Hx Hi) as (h' & n & t & E & _ & Ht).
  rewrite (bind_Ret _ _ _ _ _ E).
  exists n, t. split; [| exact Ht].
  unfold free_DebugHandle. simpl. rewrite lookup_insert_eq.
  rewrite delete_insert_eq, app_assoc. reflexivity.
Qed.
Lemma NoDup_middle (l1 l2 l3 : list Z) p :
  NoDup ((l1 ++ p :: l2) ++ l3) <-> (p ∉ (l1 ++ l2) ++ l3) /\ NoDup ((l1 ++ l2) ++ l3).
Proof.
  rewrite <- NoDup_cons.
  assert (HP : ((l1 ++ p :: l2) ++ l3) ≡ₚ (p :: (l1 ++ l2) ++ l3)).
  { rewrite <- !app_assoc. simpl. symmetry. apply Permutation_middle. }
  rewrite HP. reflexivity.
Qed.

Lemma NoDup_snoc_iff (l : list Z) p : NoDup (l ++ [p]) <-> (p ∉ l) /\ NoDup l.
Proof.
  rewrite <- NoDup_cons.
  assert (HP : (l ++ [p]) ≡ₚ (p :: l)) by (symmetry; apply Permutation_cons_append).
  rewrite HP. reflexivity.
Qed.

Lemma DebugHandle_ptr_not_null p : DebugHandle_ptr p -> p <> NULL.
Proof. intros [Hr _] ->. unfold NULL in Hr. lia. Qed.

Lemma DebugHandle_ptr_range p : DebugHandle_ptr p -> ptr_range p.
Proof. intros [Hr _]. unfold ptr_range. lia. Qed.

(** ** Closing an open wrapper *)

Lemma DHPy_close_spec dctx dh s lo1 p lo2 lc :
  session_inv dctx s (lo1 ++ p :: lo2) lc ->
  Z.land (_i dh) 1 = 0 ->
  ptr_of_ssize (_i dh) = p ->
  exists i s' t,
    infos s !! _private dctx = Some i /\
    DHPy_close dctx dh s = Ret tt s' /\
    Forall quiet_event t /\
    ((Z.of_nat (length lc) < HPyDebugInfo.closed_handles_queue_max_size i /\
      session_inv dctx s' (lo1 ++ lo2) (lc ++ [p]) /\
      trace s' = trace s ++ t)
     \/
     (Z.of_nat (length lc) = HPyDebugInfo.closed_handles_queue_max_size i /\
      exists x lc', lc ++ [p] = x :: lc' /\
        session_inv dctx s' (lo1 ++ lo2) lc' /\
        handles s' !! x = None /\
        trace s' = trace s ++ t ++ [EvFree x])).
Proof.
  intros [(i & Hi & Hmagic & Hqo & Hqc & Hmax) Hnd Hptr Hflags] Hdh_even Hdh_p.
  set (a := _private dctx) in *.
  assert (Hnn : forall x, x ∈ (lo1 ++ p :: lo2) ++ lc -> x <> NULL).
  { intros x Hx. apply DebugHandle_ptr_not_null. apply Hptr. exact Hx. }
  assert (Hpp : DebugHandle_ptr p) by (apply Hptr; set_solver).
  pose proof Hnd as Hnd'. apply NoDup_middle in Hnd'. destruct Hnd' as [Hp_fresh Hnd_rest].
  pose proof Hnd as Hnd'. apply NoDup_app in Hnd'. destruct Hnd' as (Hnd_lo & Hdisj & Hnd_lc).
  assert (Hp_lc : p ∉ lc) by set_solver.
  assert (Hp_lo : p ∉ lo1 ++ lo2) by set_solver.
  destruct (queue_repr_lookup _ _ _ p Hqo ltac:(set_solver)) as [h Hh].
  assert (Hh_open : DebugHandle.is_closed h = false).
  { destruct Hflags as (_ & Hopen & _). apply (Hopen p h); [set_solver | exact Hh]. }
  exists i. unfold DHPy_close. fold a.
  rewrite (bind_Ret _ _ _ _ _ (get_info_ok dctx i s Hi Hmagic)). fold a.
  rewrite (bind_Ret _ _ _ _ _ (as_DebugHandle_even dh s Hdh_even)). rewrite Hdh_p.
  rewrite (bind_Ret _ _ _ _ _ (load_handle_Some _ _ _ Hh)). rewrite Hh_open.
  rewrite (bind_Ret _ _ _ _ _ (load_info_Some _ _ _ Hi)).
  (* remove p from the open queue *)
  destruct (DHQueue_remove_spec _ lo1 p lo2 s Hqo Hnd_lo ltac:(intros x Hx; apply Hnn; set_solver))
    as (q1 & s1 & E1 & Hq1 & Hf1).
  destruct (DHQueue_remove_links _ _ _ _ _ E1) as [L1 _].
  rewrite (bind_Ret _ _ _ _ _ E1).
  pose proof L1 as (Li1 & Lt1 & Lh1).
  assert (Hi1 : infos s1 !! a = Some i) by (rewrite Li1; exact Hi).
  assert (Hqc1 : queue_repr (handles s1) (HPyDebugInfo.closed_handles i) lc).
  { eapply queue_repr_frame; [| exact Hqc]. intros x Hx. apply Hf1. set_solver. }
  assert (Hfl1 : flags_ok (handles s1) (lo1 ++ p :: lo2) lc).
  { eapply flags_ok_links_only; [exact L1 | exact Hflags]. }
  assert (Hh1 : exists h1, handles s1 !! p = Some h1 /\ DebugHandle.is_closed h1 = false).
  { specialize (Lh1 p). rewrite Hh in Lh1. inversion Lh1 as [h0 h1 Hr E0 Hh1 |]; subst.
    exists h1. split; [reflexivity |]. destruct Hr as (_ & _ & -> & _). exact Hh_open. }
  destruct Hh1 as (h1 & Hh1 & Hh1_open).
  rewrite (bind_Ret _ _ _ _ _ (write_info_Some a _ i s1 Hi1)).
  set (i2 := HPyDebugInfo.set_open_handles q1 i).
  set (s2 := set_infos (<[a := i2]> (infos s1)) s1).
  (* mark p closed *)
  rewrite (bind_Ret _ _ _ _ _ (write_handle_Some p _ h1 s2 Hh1)).
  set (h3 := DebugHandle.set_is_closed true h1).
  set (s3 := set_handles (<[p := h3]> (handles s2)) s2).
  assert (Hi3 : infos s3 !! a = Some i2) by apply lookup_insert_eq.
  rewrite (bind_Ret _ _ _ _ _ (load_info_Some _ _ _ Hi3)).
  assert (Hqo3 : queue_repr (handles s3) q1 (lo1 ++ lo2)).
  { apply (queue_repr_insert _ _ _ p h1 h3 Hh1); [reflexivity | reflexivity | exact Hq1]. }
  assert (Hqc3 : queue_repr (handles s3) (HPyDebugInfo.closed_handles i) lc).
  { apply (queue_repr_insert _ _ _ p h1 h3 Hh1); [reflexivity | reflexivity | exact Hqc1]. }
  assert (Hfl3 : flags_ok (handles s3) (lo1 ++ lo2) (lc ++ [p])).
  { apply (flags_ok_close _ _ _ _ _ h1 h3 Hnd Hh1); [reflexivity | exact Hfl1]. }
  (* append p to the quarantine *)
  assert (Hh3 : handles s3 !! p = Some h3) by apply lookup_insert_eq.
  destruct (DHQueue_append_spec _ lc p h3 s3 Hqc3 Hnd_lc Hp_lc
              ltac:(intros x Hx; apply Hnn; set_solver) Hh3)
    as (q5 & s5 & E5 & Hq5 & Hf5).
  destruct (DHQueue_append_links _ _ _ _ _ E5) as [L5 _].
  change (HPyDebugInfo.closed_handles i2) with (HPyDebugInfo.closed_handles i).
  rewrite (bind_Ret _ _ _ _ _ E5).
  pose proof L5 as (Li5 & Lt5 & Lh5).
  assert (Hi5 : infos s5 !! a = Some i2) by (rewrite Li5; exact Hi3).
  assert (Hqo5 : queue_repr (handles s5) q1 (lo1 ++ lo2)).
  { eapply queue_repr_frame; [| exact Hqo3]. intros x Hx. apply Hf5. set_solver. }
  assert (Hfl5 : flags_ok (handles s5) (lo1 ++ lo2) (lc ++ [p])).
  { eapply flags_ok_links_only; [exact L5 | exact Hfl3]. }
  destruct (queue_repr_lookup _ _ _ p Hq5 ltac:(set_solver)) as [h5 Hh5].
  rewrite (bind_Ret _ _ _ _ _ (write_info_Some a _ i2 s5 Hi5)).
  set (i6 := HPyDebugInfo.set_closed_handles q5 i2).
  set (s6 := set_infos (<[a := i6]> (infos s5)) s5).
  (* the raw-data guard *)
  assert (Hi6 : infos s6 !! a = Some i6) by apply lookup_insert_eq.
  destruct (protect_raw_data_spec a p h5 i6 s6 Hh5 Hi6) as (h7 & n7 & t7 & E7 & Hsame7 & Hquiet7).
  rewrite (bind_Ret _ _ _ _ _ E7).
  match type of E7 with _ = Ret tt ?st => set (s7 := st) in * end.
  set (i7 := HPyDebugInfo.set_protected_raw_data_size n7 i6) in *.
  assert (Hi7 : infos s7 !! a = Some i7) by apply lookup_insert_eq.
  rewrite (bind_Ret _ _ _ _ _ (load_info_Some _ _ _ Hi7)).
  destruct Hsame7 as (_ & _ & Hc7 & Hprev7 & Hnext7).
  assert (Hqo7 : queue_repr (handles s7) q1 (lo1 ++ lo2)).
  { apply (queue_repr_insert _ _ _ p h5 h7 Hh5 Hprev7 Hnext7 Hqo5). }
  assert (Hqc7 : queue_repr (handles s7) q5 (lc ++ [p])).
  { apply (queue_repr_insert _ _ _ p h5 h7 Hh5 Hprev7 Hnext7 Hq5). }
  assert (Hfl7 : flags_ok (handles s7) (lo1 ++ lo2) (lc ++ [p])).
  { apply (flags_ok_insert _ _ _ p h5 h7 Hh5 Hc7 Hfl5). }
  assert (Htr7 : trace s7 = trace s ++ t7).
  { unfold s7. simpl. rewrite Lt5. simpl. rewrite Lt1. reflexivity. }
  assert (Hsz7 : DHQueue.size (HPyDebugInfo.closed_handles i7) = Z.of_nat (length lc) + 1).
  { simpl. destruct Hq5 as (_ & _ & -> & _). rewrite length_app. simpl. lia. }
  assert (Hnd7 : NoDup ((lo1 ++ lo2) ++ lc ++ [p])).
  { rewrite app_assoc. apply NoDup_snoc_iff. split; [set_solver | exact Hnd_rest]. }
  assert (Hptr7 : forall x, x ∈ (lo1 ++ lo2) ++ lc ++ [p] -> DebugHandle_ptr x).
  { intros x Hx. apply Hptr. set_solver. }
  change (HPyDebugInfo.closed_handles_queue_max_size i7)
    with (HPyDebugInfo.closed_handles_queue_max_size i).
  rewrite Hsz7.
  destruct (Z.ltb_spec (HPyDebugInfo.closed_handles_queue_max_size i) (Z.of_nat (length lc) + 1))
    as [Hfull | Hroom].
  - (* the quarantine is too big: the oldest closed wrapper goes *)
    destruct (lc ++ [p]) as [| x lc'] eqn:Elc.
    { apply app_eq_nil in Elc. destruct Elc as [_ Elc]. discriminate. }
    assert (Hlen : length (x :: lc') = S (length lc)).
    { rewrite <- Elc, length_app. simpl. lia. }
    simpl in Hlen.
    assert (Hnd_c : NoDup (x :: lc')).
    { apply NoDup_app in Hnd7. tauto. }
    change (HPyDebugInfo.closed_handles i7) with q5.
    destruct (DHQueue_popfront_spec q5 x lc' s7 Hqc7 Hnd_c
                ltac:(intros y Hy; apply DebugHandle_ptr_not_null, Hptr7; set_solver))
      as (q9 & s9 & E9 & Hq9 & Hf9).
    destruct (DHQueue_popfront_links _ _ _ _ _ E9) as [L9 _].
    rewrite (bind_Ret _ _ _ _ _ E9).
    pose proof L9 as (Li9 & Lt9 & Lh9).
    assert (Hi9 : infos s9 !! a = Some i7) by (rewrite Li9; exact Hi7).
    rewrite (bind_Ret _ _ _ _ _ (write_info_Some a _ i7 s9 Hi9)).
    set (i10 := HPyDebugInfo.set_closed_handles q9 i7).
    set (s10 := set_infos (<[a := i10]> (infos s9)) s9).
    assert (Hi10 : infos s10 !! a = Some i10) by apply lookup_insert_eq.
    assert (Hfl9 : flags_ok (handles s9) (lo1 ++ lo2) (x :: lc')).
    { eapply flags_ok_links_only; [exact L9 | exact Hfl7]. }
    assert (Hx9 : exists hx, handles s9 !! x = Some hx /\ DebugHandle.is_closed hx = true).
    { destruct (queue_repr_lookup _ _ _ x Hqc7 ltac:(left)) as [hx7 Hx7].
      specialize (Lh9 x). rewrite Hx7 in Lh9. inversion Lh9 as [h0 hx Hr E0 Hx9 |]; subst.
      exists hx. split; [reflexivity |]. destruct Hfl9 as (_ & _ & Hcl).
      apply (Hcl x hx); [left | congruence]. }
    destruct Hx9 as (hx & Hx9 & Hx_closed).
    destruct (DHPy_free_spec dctx x hx i10 s10 Hi10 Hmagic Hx9 Hx_closed (Hptr7 x ltac:(set_solver)))
      as (nF & tF & EF & HquietF).
    rewrite EF.
    eexists _, (t7 ++ tF). split; [exact Hi |]. split; [reflexivity |].
    split; [apply Forall_app; split; assumption |]. right.
    split; [lia |]. exists x, lc'. split; [reflexivity |].
    assert (Hx_lo : x ∉ lo1 ++ lo2).
    { intros Hin. apply NoDup_app in Hnd7. destruct Hnd7 as (_ & Hd & _).
      apply (Hd x Hin). left. }
    assert (Hx_lc' : x ∉ lc') by (apply NoDup_cons in Hnd_c; tauto).
    split; [| split].
    + split.
      * eexists. cbn [infos]. fold a. rewrite lookup_insert_eq. split; [reflexivity |].
        split; [exact Hmagic |]. cbn [handles]. split; [| split].
        -- apply (queue_repr_frame (handles s7)); [| exact Hqo7].
           intros y Hy. assert (y <> x) by (intros ->; contradiction).
           rewrite lookup_delete_ne by congruence. apply Hf9.
           intros Hin. apply NoDup_app in Hnd7. destruct Hnd7 as (_ & Hd & _).
           exact (Hd y Hy Hin).
        -- apply (queue_repr_frame (handles s9)); [| exact Hq9].
           intros y Hy. apply lookup_delete_ne. intros ->. contradiction.
        -- simpl. lia.
      * apply NoDup_app in Hnd7. destruct Hnd7 as (Hn1 & Hd & Hn2).
        apply NoDup_app. split; [exact Hn1 |]. split.
        -- intros y Hy Hin. apply (Hd y Hy). right. exact Hin.
        -- apply NoDup_cons in Hn2. tauto.
      * intros y Hy. apply Hptr7. set_solver.
      * cbn [handles]. apply flags_ok_delete; [| exact Hfl9].
        exact Hnd7.
    + cbn [handles]. apply lookup_delete_eq.
    + cbn [trace]. unfold s10, set_infos. cbn [trace].
      rewrite Lt9, Htr7, <- !app_assoc. reflexivity.
  - exists s7, t7. split; [exact Hi |]. split; [reflexivity |]. split; [exact Hquiet7 |]. left.
    split; [lia |]. split; [| exact Htr7].
    split; trivial.
    exists i7. split; [exact Hi7 |]. split; [exact Hmagic |].
    split; [exact Hqo7 |]. split; [exact Hqc7 |].
    change (HPyDebugInfo.closed_handles_queue_max_size i7)
      with (HPyDebugInfo.closed_handles_queue_max_size i).
    rewrite length_app. simpl. lia.
Qed.

(** ** Opening a wrapper *)

Lemma flags_ok_reopen hp lo x lc h' :
  NoDup (lo ++ x :: lc) ->
  DebugHandle.is_closed h' = false ->
  flags_ok hp lo (x :: lc) ->
  flags_ok (<[x := h']> hp) (lo ++ [x]) lc.
Proof.
  intros Hnd Hc (Hdom & Hopen & Hclosed).
  apply NoDup_app in Hnd. destruct Hnd as (_ & Hd & Hnd2).
  apply NoDup_cons in Hnd2. destruct Hnd2 as [Hx _].
  repeat split.
  - intros y Hy. destruct (decide (x = y)) as [<- | Hne]; [set_solver |].
    rewrite lookup_insert_ne in Hy by exact Hne. specialize (Hdom y Hy). set_solver.
  - intros y hy Hy Hhy. destruct (decide (x = y)) as [<- | Hne].
    + rewrite lookup_insert_eq in Hhy. injection Hhy as <-. exact Hc.
    + rewrite lookup_insert_ne in Hhy by exact Hne. apply (Hopen y hy); [set_solver | exact Hhy].
  - intros y hy Hy Hhy. destruct (decide (x = y)) as [<- | Hne]; [contradiction |].
    rewrite lookup_insert_ne in Hhy by exact Hne. apply (Hclosed y hy); [right; exact Hy | exact Hhy].
Qed.

Lemma flags_ok_alloc hp lo lc m h' :
  m ∉ lc ->
  DebugHandle.is_closed h' = false ->
  flags_ok hp lo lc ->
  flags_ok (<[m := h']> hp) (lo ++ [m]) lc.
Proof.
  intros Hm Hc (Hdom & Hopen & Hclosed).
  repeat split.
  - intros y Hy. destruct (decide (m = y)) as [<- | Hne]; [set_solver |].
    rewrite lookup_insert_ne in Hy by exact Hne. specialize (Hdom y Hy). set_solver.
  - intros y hy Hy Hhy. destruct (decide (m = y)) as [<- | Hne].
    + rewrite lookup_insert_eq in Hhy. injection Hhy as <-. exact Hc.
    + rewrite lookup_insert_ne in Hhy by exact Hne. apply (Hopen y hy); [set_solver | exact Hhy].
  - intros y hy Hy Hhy. destruct (decide (m = y)) as [<- | Hne]; [contradiction |].
    rewrite lookup_insert_ne in Hhy by exact Hne. apply (Hclosed y hy Hy Hhy).
Qed.

Lemma DHPy_open_init_spec dctx uh p hp s lo lc i :
  infos s !! _private dctx = Some i ->
  HPyDebugInfo.magic_number i = HPY_DEBUG_MAGIC ->
  queue_repr (handles s) (HPyDebugInfo.open_handles i) lo ->
  queue_repr (handles s) (HPyDebugInfo.closed_handles i) lc ->
  Z.of_nat (length lc) <= HPyDebugInfo.closed_handles_queue_max_size i ->
  handles s !! p = Some hp ->
  NoDup ((lo ++ [p]) ++ lc) ->
  (forall x, x ∈ (lo ++ [p]) ++ lc -> DebugHandle_ptr x) ->
  (forall h', DebugHandle.is_closed h' = false ->
     flags_ok (<[p := h']> (handles s)) (lo ++ [p]) lc) ->
  exists s' h' i',
    DHPy_open_init (_private dctx) p uh s = Ret (as_DHPy p) s' /\
    session_inv dctx s' (lo ++ [p]) lc /\
    trace s' = trace s ++ [EvOpen p (HPyDebugInfo.current_generation i)] /\
    handles s' !! p = Some h' /\
    DebugHandle.uh h' = uh /\
    DebugHandle.generation h' = HPyDebugInfo.current_generation i /\
    DebugHandle.is_closed h' = false /\
    infos s' !! _private dctx = Some i' /\
    HPyDebugInfo.current_generation i' = HPyDebugInfo.current_generation i.
Proof.
  intros Hi Hmagic Hqo Hqc Hmax Hp Hnd Hptr Hflags.
  set (a := _private dctx) in *.
  assert (Hnd' : NoDup (lo ++ [p])) by (apply NoDup_app in Hnd; tauto).
  apply NoDup_snoc_iff in Hnd'. destruct Hnd' as [Hp_lo Hnd_lo].
  assert (Hp_lc : p ∉ lc).
  { apply NoDup_app in Hnd. destruct Hnd as (_ & Hd & _). apply Hd. set_solver. }
  unfold DHPy_open_init.
  rewrite (bind_Ret _ _ _ _ _ (load_info_Some _ _ _ Hi)).
  rewrite (bind_Ret _ _ _ _ _ (write_handle_Some p _ hp s Hp)).
  match goal with |- context [set_handles (<[p := ?v]> _) s] => set (h2 := v) end.
  set (s2 := set_handles (<[p := h2]> (handles s)) s).
  assert (Hqo2 : queue_repr (handles s2) (HPyDebugInfo.open_handles i) lo).
  { eapply queue_repr_frame; [| exact Hqo]. intros x Hx.
    apply lookup_insert_ne. intros ->. contradiction. }
  assert (Hqc2 : queue_repr (handles s2) (HPyDebugInfo.closed_handles i) lc).
  { eapply queue_repr_frame; [| exact Hqc]. intros x Hx.
    apply lookup_insert_ne. intros ->. contradiction. }
  assert (Hh2 : handles s2 !! p = Some h2) by apply lookup_insert_eq.
  destruct (DHQueue_append_spec _ lo p h2 s2 Hqo2 Hnd_lo Hp_lo
              ltac:(intros x Hx; apply DebugHandle_ptr_not_null, Hptr; set_solver) Hh2)
    as (q3 & s3 & E3 & Hq3 & Hf3).
  destruct (DHQueue_append_links _ _ _ _ _ E3) as [L3 _].
  rewrite (bind_Ret _ _ _ _ _ E3).
  pose proof L3 as (Li3 & Lt3 & Lh3).
  assert (Hi3 : infos s3 !! a = Some i) by (rewrite Li3; exact Hi).
  rewrite (bind_Ret _ _ _ _ _ (write_info_Some a _ i s3 Hi3)).
  assert (Hh3 : exists h3, handles s3 !! p = Some h3 /\ relinked h2 h3).
  { specialize (Lh3 p). rewrite Hh2 in Lh3. inversion Lh3 as [h0 h3 Hr E0 Hh3 |]; subst.
    exists h3. split; [reflexivity | exact Hr]. }
  destruct Hh3 as (h3 & Hh3 & Euh & Egen & Ecl & _).
  rewrite bind_run. cbn [emit mret M_ret].
  eexists _, h3, _. split; [reflexivity |]. cbn [handles infos trace set_infos].
  split; [| split; [| split; [| split; [| split; [| split; [| split]]]]]].
  - split; cbn [handles infos trace].
    + eexists. rewrite lookup_insert_eq. split; [reflexivity |].
      split; [exact Hmagic |]. cbn. split; [exact Hq3 |]. split; [| exact Hmax].
      eapply queue_repr_frame; [| exact Hqc2]. intros x Hx. apply Hf3.
      intros Hin. apply NoDup_app in Hnd. destruct Hnd as (_ & Hd & _).
      apply (Hd x); [| exact Hx]. set_solver.
    + exact Hnd.
    + exact Hptr.
    + eapply flags_ok_links_only; [exact L3 |]. apply Hflags. reflexivity.
  - rewrite Lt3. reflexivity.
  - exact Hh3.
  - rewrite Euh. reflexivity.
  - rewrite Egen. reflexivity.
  - rewrite Ecl. reflexivity.
  - apply lookup_insert_eq.
  - reflexivity.
Qed.

(** The quarantine is full and not empty: the oldest closed wrapper's
    storage is reused. *)
Lemma DHPy_open_storage_reuse dctx m s lo x lc i :
  session_inv dctx s lo (x :: lc) ->
  infos s !! _private dctx = Some i ->
  HPyDebugInfo.closed_handles_queue_max_size i <= Z.of_nat (length (x :: lc)) ->
  exists s' i' hx t,
    DHPy_open_storage (_private dctx) m s = Ret x s' /\
    infos s' !! _private dctx = Some i' /\
    same_config i i' /\
    HPyDebugInfo.current_generation i' = HPyDebugInfo.current_generation i /\
    queue_repr (handles s') (HPyDebugInfo.open_handles i') lo /\
    queue_repr (handles s') (HPyDebugInfo.closed_handles i') lc /\
    handles s' !! x = Some hx /\
    flags_ok (handles s') lo (x :: lc) /\
    trace s' = trace s ++ t /\ Forall quiet_event t.
Proof.
  intros [(i0 & Hi0 & Hmagic & Hqo & Hqc & Hmax) Hnd Hptr Hflags] Hi Hfull.
  set (a := _private dctx) in *.
  assert (i0 = i) as -> by congruence. clear Hi0.
  assert (Hnd_c : NoDup (x :: lc)) by (apply NoDup_app in Hnd; tauto).
  unfold DHPy_open_storage.
  rewrite (bind_Ret _ _ _ _ _ (load_info_Some _ _ _ Hi)).
  destruct Hqc as (Hc_head & Hc_tail & Hc_size & Hc_dll).
  rewrite Hc_size. apply Z.leb_le in Hfull. rewrite Hfull.
  assert (Hx_nn : (DHQueue.head (HPyDebugInfo.closed_handles i) =? NULL) = false).
  { apply Z.eqb_neq. rewrite Hc_head. simpl.
    apply DebugHandle_ptr_not_null, Hptr. set_solver. }
  rewrite Hx_nn. cbn [negb andb].
  assert (Hqc : queue_repr (handles s) (HPyDebugInfo.closed_handles i) (x :: lc))
    by (repeat split; assumption).
  destruct (DHQueue_popfront_spec _ x lc s Hqc Hnd_c
              ltac:(intros y Hy; apply DebugHandle_ptr_not_null, Hptr; set_solver))
    as (q1 & s1 & E1 & Hq1 & Hf1).
  destruct (DHQueue_popfront_links _ _ _ _ _ E1) as [L1 _].
  rewrite (bind_Ret _ _ _ _ _ E1).
  pose proof L1 as (Li1 & Lt1 & Lh1).
  assert (Hi1 : infos s1 !! a = Some i) by (rewrite Li1; exact Hi).
  rewrite (bind_Ret _ _ _ _ _ (write_info_Some a _ i s1 Hi1)).
  set (i2 := HPyDebugInfo.set_closed_handles q1 i).
  set (s2 := set_infos (<[a := i2]> (infos s1)) s1).
  assert (Hi2 : infos s2 !! a = Some i2) by apply lookup_insert_eq.
  assert (Hx1 : exists hx1, handles s1 !! x = Some hx1).
  { destruct (queue_repr_lookup _ _ _ x Hqc ltac:(left)) as [hx0 Hx0].
    specialize (Lh1 x). rewrite Hx0 in Lh1. inversion Lh1 as [h0 hx1 Hr E0 Hx1 |]; subst.
    exists hx1. reflexivity. }
  destruct Hx1 as (hx1 & Hx1).
  destruct (release_raw_data_spec a x hx1 i2 s2 Hx1 Hi2) as (hx & n & t & E3 & Hsame & Hquiet).
  rewrite (bind_Ret _ _ _ _ _ E3).
  destruct Hsame as (_ & _ & Hcl & Hprev & Hnext).
  eexists _, _, hx, t. split; [reflexivity |]. cbn [handles infos trace set_infos s2].
  split; [apply lookup_insert_eq |]. split; [unfold same_config; cbn; tauto |].
  split; [reflexivity |]. split; [| split; [| split; [| split; [| split]]]].
  - cbn. apply (queue_repr_insert _ _ _ x hx1 hx Hx1 Hprev Hnext).
    eapply queue_repr_frame; [| exact Hqo]. intros y Hy. apply Hf1.
    intros Hin. apply NoDup_app in Hnd. destruct Hnd as (_ & Hd & _). exact (Hd y Hy Hin).
  - cbn. apply (queue_repr_insert _ _ _ x hx1 hx Hx1 Hprev Hnext). exact Hq1.
  - apply lookup_insert_eq.
  - apply (flags_ok_insert _ _ _ x hx1 hx Hx1 Hcl).
    eapply flags_ok_links_only; [exact L1 | exact Hflags].
  - rewrite Lt1. reflexivity.
  - exact Hquiet.
Qed.

(** The quarantine is not full, or there is no closed wrapper to reuse:
    storage comes from [malloc]. *)
Lemma DHPy_open_storage_malloc dctx m s lo lc i :
  session_inv dctx s lo lc ->
  infos s !! _private dctx = Some i ->
  Z.of_nat (length lc) < HPyDebugInfo.closed_handles_queue_max_size i \/ lc = [] ->
  DHPy_open_storage (_private dctx) m s = malloc_DebugHandle m s.
Proof.
  intros [(i0 & Hi0 & Hmagic & Hqo & Hqc & Hmax) Hnd Hptr Hflags] Hi Hcase.
  assert (i0 = i) as -> by congruence.
  unfold DHPy_open_storage.
  rewrite (bind_Ret _ _ _ _ _ (load_info_Some _ _ _ Hi)).
  destruct Hqc as (Hc_head & _ & Hc_size & _). rewrite Hc_size.
  destruct Hcase as [Hroom | ->].
  - apply Z.leb_gt in Hroom. rewrite Hroom. reflexivity.
  - simpl in Hc_head. rewrite Hc_head. simpl. rewrite andb_false_r. reflexivity.
Qed.

Lemma session_inv_info dctx s lo lc :
  session_inv dctx s lo lc ->
  exists i, infos s !! _private dctx = Some i /\
    HPyDebugInfo.magic_number i = HPY_DEBUG_MAGIC /\
    DHQueue.size (HPyDebugInfo.closed_handles i) = Z.of_nat (length lc) /\
    Z.of_nat (length lc) <= HPyDebugInfo.closed_handles_queue_max_size i.
Proof.
  intros [(i & Hi & Hmagic & _ & (_ & _ & Hsz & _) & Hmax) _ _ _]. exists i. tauto.
Qed.

(** What a returning [DHPy_open] has done. *)
Lemma DHPy_open_inv flag dctx uh m s lo lc dh s' :
  session_inv dctx s lo lc ->
  DHPy_open flag dctx uh m s = Ret dh s' ->
  (dh = HPy_NULL /\ s' = s) \/
  (exists p lc' h' i i' t,
     dh = as_DHPy p /\
     session_inv dctx s' (lo ++ [p]) lc' /\
     (lc' = lc \/ lc = p :: lc') /\
     handles s' !! p = Some h' /\
     DebugHandle.uh h' = uh /\
     DebugHandle.is_closed h' = false /\
     infos s !! _private dctx = Some i /\
     infos s' !! _private dctx = Some i' /\
     DebugHandle.generation h' = HPyDebugInfo.current_generation i /\
     HPyDebugInfo.current_generation i' = HPyDebugInfo.current_generation i /\
     trace s' = trace s ++ t ++ [EvOpen p (DebugHandle.generation h')] /\
     Forall (fun e => forall y, e <> EvFree y) t).
Proof.
  intros Hinv H. pose proof Hinv as [(i & Hi & Hmagic & Hqo & Hqc & Hmax) Hnd Hptr Hflags].
  unfold DHPy_open in H.
  inv_bind H as u0 s0 H0. apply UHPy_sanity_check_inv in H0. subst s0.
  rewrite (bind_Ret _ _ _ _ _ (get_info_ok dctx i s Hi Hmagic)) in H.
  assert (Hcases :
    (Z.of_nat (length lc) < HPyDebugInfo.closed_handles_queue_max_size i \/ lc = []) \/
    (exists x lc', lc = x :: lc' /\
       HPyDebugInfo.closed_handles_queue_max_size i <= Z.of_nat (length lc))).
  { destruct lc as [| x lc']; [left; right; reflexivity |].
    destruct (Z_lt_le_dec (Z.of_nat (length (x :: lc')))
                (HPyDebugInfo.closed_handles_queue_max_size i)); [left; left | right; eauto];
      assumption. }
  destruct Hcases as [Hcase | (x & lc' & -> & Hfull)].
  - (* storage from malloc *)
    rewrite bind_run, (DHPy_open_storage_malloc dctx m s lo lc i Hinv Hi Hcase) in H.
    unfold malloc_DebugHandle in H.
    destruct (DebugHandle_ptrb m && bool_decide (handles s !! m = None)) eqn:E.
    + apply andb_true_iff in E. destruct E as [Hm_ptr Hm_fresh].
      apply DebugHandle_ptrb_spec in Hm_ptr. apply bool_decide_eq_true in Hm_fresh.
      assert (Hm_nn : (m =? NULL) = false).
      { apply Z.eqb_neq. apply DebugHandle_ptr_not_null. exact Hm_ptr. }
      rewrite Hm_nn in H.
      match type of H with DHPy_open_init _ _ _ ?st = _ => set (s1 := st) in * end.
      assert (Hm_new : m ∉ lo ++ lc).
      { intros Hin. apply elem_of_app in Hin. destruct Hin as [Hin | Hin].
        - destruct (queue_repr_lookup _ _ _ m Hqo Hin) as [? ?]. congruence.
        - destruct (queue_repr_lookup _ _ _ m Hqc Hin) as [? ?]. congruence. }
      destruct (DHPy_open_init_spec dctx uh m uninit_DebugHandle s1 lo lc i) as
        (s2 & h' & i' & E2 & Hinv2 & Htr2 & Hh' & Huh & Hgen & Hcl & Hi' & Hgen');
        trivial.
      * eapply queue_repr_frame; [| exact Hqo]. intros x Hx.
        apply lookup_insert_ne. intros ->. apply Hm_new. set_solver.
      * eapply queue_repr_frame; [| exact Hqc]. intros x Hx.
        apply lookup_insert_ne. intros ->. apply Hm_new. set_solver.
      * apply lookup_insert_eq.
      * rewrite <- app_assoc. simpl. rewrite <- Permutation_middle.
        apply NoDup_cons. split; assumption.
      * intros x Hx. destruct (decide (x = m)) as [-> | Hne]; [exact Hm_ptr |].
        apply Hptr. set_solver.
      * intros h2 Hc2. cbn [handles s1]. rewrite insert_insert_eq.
        apply flags_ok_alloc; [set_solver | exact Hc2 | exact Hflags].
      * rewrite E2 in H. injection H as <- <-. right.
        exists m, lc, h', i, i', [EvMalloc m].
        split; [reflexivity |]. split; [exact Hinv2 |]. split; [left; reflexivity |].
        split; [exact Hh' |]. split; [exact Huh |]. split; [exact Hcl |].
        split; [exact Hi |]. split; [exact Hi' |]. split; [exact Hgen |].
        split; [exact Hgen' |]. split.
        -- rewrite Htr2, Hgen. cbn [trace s1]. rewrite <- !app_assoc. reflexivity.
        -- repeat constructor. intros y. discriminate.
    + rewrite Z.eqb_refl in H. apply mret_inv in H. destruct H as [-> ->]. left. tauto.
  - (* the storage of the oldest closed wrapper is reused *)
    destruct (DHPy_open_storage_reuse dctx m s lo x lc' i Hinv Hi Hfull)
      as (s1 & i1 & hx & t1 & E1 & Hi1 & Hcfg & Hg1 & Hqo1 & Hqc1 & Hx1 & Hfl1 & Htr1 & Hquiet1).
    rewrite (bind_Ret _ _ _ _ _ E1) in H.
    assert (Hx_ptr : DebugHandle_ptr x) by (apply Hptr; set_solver).
    assert (Hx_nn : (x =? NULL) = false).
    { apply Z.eqb_neq. apply DebugHandle_ptr_not_null. exact Hx_ptr. }
    rewrite Hx_nn in H.
    destruct Hcfg as (Hm1 & _ & _ & Hmax1 & _).
    destruct (DHPy_open_init_spec dctx uh x hx s1 lo lc' i1) as
      (s2 & h' & i' & E2 & Hinv2 & Htr2 & Hh' & Huh & Hgen & Hcl & Hi' & Hgen');
      trivial.
    + congruence.
    + rewrite Hmax1. simpl in Hmax. lia.
    + rewrite <- app_assoc. exact Hnd.
    + intros y Hy. apply Hptr. set_solver.
    + intros h2 Hc2. apply flags_ok_reopen; assumption.
    + rewrite E2 in H. injection H as <- <-. right.
      exists x, lc', h', i, i', t1.
      split; [reflexivity |]. split; [exact Hinv2 |]. split; [right; reflexivity |].
      split; [exact Hh' |]. split; [exact Huh |]. split; [exact Hcl |].
      split; [exact Hi |]. split; [exact Hi' |]. split; [congruence |].
      split; [congruence |]. split.
      * rewrite Htr2, Htr1, Hgen, <- !app_assoc. reflexivity.
      * eapply Forall_impl; [exact Hquiet1 |]. intros e He y ->. exact He.
Qed.

(** ** The invariant along a run *)

Lemma session_inv_init dctx uctx cfg :
  0 <= default DEFAULT_CLOSED_HANDLES_QUEUE_MAX_SIZE (cfg_closed_handles_queue_max_size cfg) ->
  session_inv dctx (session_init dctx uctx cfg) [] [].
Proof.
  intros Hmax. split.
  - exists (HPyDebugInfo_init uctx cfg). simpl. rewrite lookup_singleton_eq.
    repeat split; simpl; trivial.
  - constructor.
  - intros p Hp. inversion Hp.
  - repeat split.
    + intros p [h Hp]. simpl in Hp. rewrite lookup_empty in Hp. discriminate.
    + intros p h Hp. inversion Hp.
    + intros p h Hp. inversion Hp.
Qed.

(** A returning [DHPy_close] was given an open wrapper of the session. *)
Lemma DHPy_close_inv_open dctx dh s lo lc u s' :
  session_inv dctx s lo lc ->
  DHPy_close dctx dh s = Ret u s' ->
  Z.land (_i dh) 1 = 0 /\
  exists lo1 lo2, lo = lo1 ++ ptr_of_ssize (_i dh) :: lo2.
Proof.
  intros [_ Hnd _ (Hdom & _ & Hclosed)] H. unfold DHPy_close in H.
  inv_bind H as info s0 H0. apply get_info_inv in H0. destruct H0 as (-> & -> & _).
  inv_bind H as p s0 H0. apply as_DebugHandle_inv in H0. destruct H0 as (-> & -> & Heven).
  inv_bind H as h s0 H0. apply load_handle_inv in H0. destruct H0 as [-> Hh].
  split; [exact Heven |].
  destruct (DebugHandle.is_closed h) eqn:Hc.
  { exfalso. exact (DHPy_invalid_handle_no_return _ _ _ _ _ H). }
  apply list_elem_of_split.
  specialize (Hdom _ (ex_intro _ h Hh)). apply elem_of_app in Hdom.
  destruct Hdom as [Hin | Hin]; [exact Hin |].
  specialize (Hclosed _ h Hin Hh). congruence.
Qed.

Lemma new_generation_inv dctx s lo lc u s' :
  session_inv dctx s lo lc ->
  new_generation dctx s = Ret u s' ->
  session_inv dctx s' lo lc.
Proof.
  intros [(i & Hi & Hmagic & Hqo & Hqc & Hmax) Hnd Hptr Hflags] H.
  unfold new_generation in H.
  rewrite (bind_Ret _ _ _ _ _ (get_info_ok dctx i s Hi Hmagic)) in H.
  rewrite (write_info_Some _ _ i s Hi) in H. injection H as _ <-.
  split; trivial. eexists. cbn [infos set_infos]. rewrite lookup_insert_eq.
  split; [reflexivity |]. cbn. tauto.
Qed.

Lemma attach_raw_data_inv dctx dh copy size s lo lc u s' :
  session_inv dctx s lo lc ->
  attach_raw_data dctx dh copy size s = Ret u s' ->
  session_inv dctx s' lo lc.
Proof.
  intros [(i & Hi & Hmagic & Hqo & Hqc & Hmax) Hnd Hptr Hflags] H.
  unfold attach_raw_data in H.
  inv_bind H as u0 s0 H0. apply DHPy_unwrap_inv in H0. subst s0.
  inv_bind H as p s0 H0. apply as_DebugHandle_inv in H0. destruct H0 as (-> & _ & _).
  inv_bind H as u1 s1 H1.
  apply write_handle_inv in H1. destruct H1 as (h & Hh & ->).
  apply write_handle_inv in H. destruct H as (h1 & Hh1 & ->).
  cbn [handles] in Hh1. rewrite lookup_insert_eq in Hh1. injection Hh1 as <-.
  cbn [handles infos trace]. rewrite insert_insert_eq.
  split; trivial; cbn [handles infos].
  - exists i. split; [exact Hi |]. split; [exact Hmagic |].
    split; [| split; [| exact Hmax]];
      eapply (queue_repr_insert _ _ _ p h _ Hh); try eassumption; reflexivity.
  - eapply (flags_ok_insert _ _ _ p h _ Hh); [reflexivity | exact Hflags].
Qed.

Lemma step_session_inv flag dctx o s lo lc u s' :
  session_inv dctx s lo lc ->
  step flag dctx o s = Ret u s' ->
  exists lo' lc', session_inv dctx s' lo' lc'.
Proof.
  intros Hinv H. destruct o as [uh m | dh | dh | | dh copy size]; simpl in H.
  - inv_bind H as d s1 H1. apply mret_inv in H. destruct H as [_ ->].
    destruct (DHPy_open_inv _ _ _ _ _ _ _ _ _ Hinv H1) as [[_ ->] | (p & lc' & h' & i & i' & t & _ & Hinv' & _)];
      eauto.
  - destruct (DHPy_close_inv_open _ _ _ _ _ _ _ Hinv H) as (Heven & lo1 & lo2 & ->).
    destruct (DHPy_close_spec dctx dh s lo1 _ lo2 lc Hinv Heven eq_refl)
      as (i & s2 & t & _ & E & _ & [(_ & Hinv' & _) | (_ & x & lc' & _ & Hinv' & _)]);
      rewrite E in H; injection H as _ <-; eauto.
  - inv_bind H as d s1 H1. apply mret_inv in H. destruct H as [_ ->].
    apply DHPy_unwrap_inv in H1. subst s1. eauto.
  - eauto using new_generation_inv.
  - eauto using attach_raw_data_inv.
Qed.

Lemma run_session_inv flag dctx ops s lo lc u s' :
  session_inv dctx s lo lc ->
  run flag dctx ops s = Ret u s' ->
  exists lo' lc', session_inv dctx s' lo' lc'.
Proof.
  revert s lo lc. induction ops as [| o ops IH]; simpl; intros s lo lc Hinv H.
  - apply mret_inv in H. destruct H as [_ ->]. eauto.
  - inv_bind H as u1 s1 H1.
    destruct (step_session_inv _ _ _ _ _ _ _ _ Hinv H1) as (lo1 & lc1 & Hinv1).
    eapply IH; eassumption.
Qed.

(** ** Quarantine bound and eviction *)

Lemma alloc_balanced_init dctx uctx cfg : alloc_balanced (session_init dctx uctx cfg).
Proof. intros p. unfold count_malloc, count_free. simpl. rewrite lookup_empty. reflexivity. Qed.

Lemma count_free_quiet t y : Forall quiet_event t -> count_free y t = 0%nat.
Proof.
  unfold count_free. induction 1 as [| e t He _ IH]; [reflexivity |].
  rewrite count_occ_cons_neq; [exact IH |]. intros ->. destruct He.
Qed.

Lemma count_malloc_quiet t y : Forall quiet_event t -> count_malloc y t = 0%nat.
Proof.
  unfold count_malloc. induction 1 as [| e t He _ IH]; [reflexivity |].
  rewrite count_occ_cons_neq; [exact IH |]. intros ->. destruct He.
Qed.

(** C3. Along every sequence of calls on a session whose configured
    quarantine maximum is not negative, after each returning call the size
    of [closed_handles] is the number of quarantined wrappers and does not
    exceed [closed_handles_queue_max_size]; no wrapper is ever freed more
    often than it was allocated. When the quarantine holds exactly the
    maximum, closing any open wrapper appends it at the back, pops the
    oldest closed wrapper from the front and frees it: the close returns,
    that wrapper is no longer live, and the call frees it exactly once and
    frees nothing else. *)
Theorem closed_queue_bounded flag dctx uctx cfg ops u s' :
  0 <= default DEFAULT_CLOSED_HANDLES_QUEUE_MAX_SIZE (cfg_closed_handles_queue_max_size cfg) ->
  run flag dctx ops (session_init dctx uctx cfg) = Ret u s' ->
  exists i lo lc,
    infos s' !! _private dctx = Some i /\
    session_inv dctx s' lo lc /\
    DHQueue.size (HPyDebugInfo.closed_handles i) = Z.of_nat (length lc) /\
    DHQueue.size (HPyDebugInfo.closed_handles i)
    <= HPyDebugInfo.closed_handles_queue_max_size i /\
    HPyDebugInfo.closed_handles_queue_max_size i
    = default DEFAULT_CLOSED_HANDLES_QUEUE_MAX_SIZE (cfg_closed_handles_queue_max_size cfg) /\
    alloc_balanced s' /\
    (forall p, count_free p (trace s') <= count_malloc p (trace s'))%nat /\
    (forall lo1 p lo2,
       lo = lo1 ++ p :: lo2 ->
       Z.of_nat (length lc) = HPyDebugInfo.closed_handles_queue_max_size i ->
       exists x lc' s'' t,
         lc ++ [p] = x :: lc' /\
         DHPy_close dctx (as_DHPy p) s' = Ret tt s'' /\
         session_inv dctx s'' (lo1 ++ lo2) lc' /\
         handles s'' !! x = None /\
         trace s'' = trace s' ++ t /\
         count_free x t = 1%nat /\
         (forall y, y <> x -> count_free y t = 0%nat)).
Proof.
  intros Hmax Hrun.
  destruct (run_session_inv _ _ _ _ _ _ _ _ (session_inv_init dctx uctx cfg Hmax) Hrun)
    as (lo & lc & Hinv).
  pose proof (run_session_step False flag dctx ops _ u s' ltac:(intros []) Hrun)
    as [Hinfo _ _ Halloc _].
  specialize (Halloc (alloc_balanced_init dctx uctx cfg)).
  destruct (session_inv_info _ _ _ _ Hinv) as (i & Hi & _ & Hsz & Hle).
  destruct (Hinfo (HPyDebugInfo_init uctx cfg)) as (i' & Hi' & (_ & _ & _ & Hcfg & _) & _).
  { simpl. apply lookup_singleton_eq. }
  assert (i' = i) as -> by congruence.
  exists i, lo, lc. split; [exact Hi |]. split; [exact Hinv |]. split; [exact Hsz |].
  split; [lia |]. split; [exact Hcfg |]. split; [exact Halloc |]. split.
  { intros p. rewrite (Halloc p). lia. }
  intros lo1 p lo2 -> Hfull.
  assert (Hpp : DebugHandle_ptr p).
  { destruct Hinv as [_ _ Hptr _]. apply Hptr. set_solver. }
  assert (Heven : Z.land (_i (as_DHPy p)) 1 = 0).
  { simpl. rewrite ssize_of_ptr_low_bit. exact (proj2 Hpp). }
  assert (Hptr_p : ptr_of_ssize (_i (as_DHPy p)) = p).
  { simpl. apply ptr_of_ssize_of_ptr. apply DebugHandle_ptr_range. exact Hpp. }
  destruct (DHPy_close_spec dctx (as_DHPy p) s' lo1 p lo2 lc Hinv Heven Hptr_p)
    as (i0 & s'' & t & Hi0 & E & Hquiet & [(Hlt & _) | (_ & x & lc' & Elc & Hinv' & Hx & Htr)]).
  { assert (i0 = i) as -> by congruence. lia. }
  exists x, lc', s'', (t ++ [EvFree x]).
  split; [exact Elc |]. split; [exact E |]. split; [exact Hinv' |]. split; [exact Hx |].
  split; [exact Htr |]. split.
  - unfold count_free. rewrite count_occ_snoc_eq.
    fold (count_free x t). rewrite (count_free_quiet t x Hquiet). reflexivity.
  - intros y Hy. unfold count_free. rewrite count_occ_snoc_neq by congruence.
    apply (count_free_quiet t y Hquiet).
Qed.

(** ** The protected-byte budget *)

Lemma budget_ok_init dctx uctx cfg :
  0 <= default DEFAULT_PROTECTED_RAW_DATA_MAX_SIZE (cfg_protected_raw_data_max_size cfg) ->
  budget_ok (_private dctx) (session_init dctx uctx cfg).
Proof.
  intros Hb. split.
  - intros i Hi. simpl in Hi. rewrite lookup_singleton_eq in Hi. injection Hi as <-.
    simpl. exact Hb.
  - intros p h Hp. simpl in Hp. rewrite lookup_empty in Hp. discriminate.
Qed.

(** C4. Along every sequence of calls (with buffer lengths that are not
    negative) on a session whose configured budget is not negative, after
    each returning call [protected_raw_data_size] does not exceed
    [protected_raw_data_max_size], which is still the configured budget.
    And the guard's policy at close: if protecting the wrapper's buffer
    would push the counter over the budget, the buffer is passed to
    [raw_data_free] and not to [raw_data_protect], the wrapper forgets it,
    and every session, hence the counter, is left unchanged; otherwise the
    buffer is protected and the counter grows by its length. *)
Theorem protected_bytes_within_budget flag dctx uctx cfg ops u s' :
  0 <= default DEFAULT_PROTECTED_RAW_DATA_MAX_SIZE (cfg_protected_raw_data_max_size cfg) ->
  Forall wf_op ops ->
  run flag dctx ops (session_init dctx uctx cfg) = Ret u s' ->
  (exists i,
     infos s' !! _private dctx = Some i /\
     HPyDebugInfo.protected_raw_data_max_size i
     = default DEFAULT_PROTECTED_RAW_DATA_MAX_SIZE (cfg_protected_raw_data_max_size cfg) /\
     HPyDebugInfo.protected_raw_data_size i <= HPyDebugInfo.protected_raw_data_max_size i) /\
  (forall s info handle h i,
     handles s !! handle = Some h ->
     DebugHandle.associated_data h <> NULL ->
     infos s !! info = Some i ->
     (HPyDebugInfo.protected_raw_data_max_size i
      < HPyDebugInfo.protected_raw_data_size i + DebugHandle.associated_data_size h ->
      protect_raw_data info handle s
      = Ret tt {| handles := <[handle := DebugHandle.set_associated_data NULL h]> (handles s);
                  infos := infos s;
                  trace := trace s ++ [EvRawDataFree (DebugHandle.associated_data h)
                                                     (DebugHandle.associated_data_size h)] |}) /\
     (HPyDebugInfo.protected_raw_data_size i + DebugHandle.associated_data_size h
      <= HPyDebugInfo.protected_raw_data_max_size i ->
      protect_raw_data info handle s
      = Ret tt {| handles := handles s;
                  infos := <[info := HPyDebugInfo.set_protected_raw_data_size
                               (HPyDebugInfo.protected_raw_data_size i
                                + DebugHandle.associated_data_size h) i]> (infos s);
                  trace := trace s ++ [EvRawDataProtect (DebugHandle.associated_data h)
                                                        (DebugHandle.associated_data_size h)] |})).
Proof.
  intros Hb Hwf Hrun. split.
  - pose proof (run_session_step True flag dctx ops _ u s' (fun _ => Hwf) Hrun)
      as [Hinfo _ Hbudget _ _].
    destruct (Hinfo (HPyDebugInfo_init uctx cfg)) as (i & Hi & (_ & _ & _ & _ & Hcfg) & _).
    { simpl. apply lookup_singleton_eq. }
    exists i. split; [exact Hi |]. split; [exact Hcfg |].
    destruct (Hbudget I (budget_ok_init dctx uctx cfg Hb)) as [Hcnt _]. apply Hcnt. exact Hi.
  - intros s info handle h i Hh Hd Hi. split.
    + apply protect_raw_data_over; assumption.
    + apply protect_raw_data_within; assumption.
Qed.

(** ** Generations *)

Lemma StronglySorted_app_r (l1 l2 : list Z) :
  StronglySorted Z.le (l1 ++ l2) -> StronglySorted Z.le l2.
Proof.
  induction l1 as [| x l1 IH]; simpl; intros H; [exact H |].
  apply IH. inversion H; assumption.
Qed.

Lemma open_gens_ordered t t1 pA gA t2 pB gB t3 :
  StronglySorted Z.le (open_gens t) ->
  t = t1 ++ EvOpen pA gA :: t2 ++ EvOpen pB gB :: t3 ->
  gA <= gB.
Proof.
  intros Hs ->. rewrite open_gens_app in Hs. apply StronglySorted_app_r in Hs.
  change (EvOpen pA gA :: t2 ++ EvOpen pB gB :: t3)
    with ([EvOpen pA gA] ++ t2 ++ [EvOpen pB gB] ++ t3) in Hs.
  rewrite !open_gens_app in Hs. simpl in Hs.
  inversion Hs as [| x l _ Hall]; subst.
  rewrite Forall_forall in Hall. apply Hall.
  apply elem_of_app. right. left.
Qed.

(** C5. Along every sequence of calls, from any state: the generations
    assigned by the [DHPy_open] calls are in non-decreasing order (a wrapper
    opened before another has a generation that is not larger), and the
    session's [current_generation] at the end is not smaller than at the
    start. The generation recorded for an open is the one stored in the
    wrapper, and it is the session's counter at that time. *)
Theorem generations_non_decreasing flag dctx ops s u s' :
  run flag dctx ops s = Ret u s' ->
  (exists t, trace s' = trace s ++ t /\
     forall t1 pA gA t2 pB gB t3,
       t = t1 ++ EvOpen pA gA :: t2 ++ EvOpen pB gB :: t3 -> gA <= gB) /\
  (forall i, infos s !! _private dctx = Some i ->
     exists i', infos s' !! _private dctx = Some i' /\
       HPyDebugInfo.current_generation i <= HPyDebugInfo.current_generation i') /\
  (forall s0 lo lc uh m dh s1,
     session_inv dctx s0 lo lc ->
     DHPy_open flag dctx uh m s0 = Ret dh s1 ->
     dh <> HPy_NULL ->
     exists p h i t,
       dh = as_DHPy p /\ handles s1 !! p = Some h /\
       infos s0 !! _private dctx = Some i /\
       DebugHandle.generation h = HPyDebugInfo.current_generation i /\
       trace s1 = trace s0 ++ t ++ [EvOpen p (DebugHandle.generation h)]).
Proof.
  intros Hrun.
  pose proof (run_session_step False flag dctx ops s u s' ltac:(intros []) Hrun)
    as [Hinfo _ _ _ (t & Ht & Hsorted & _)].
  split; [| split].
  - exists t. split; [exact Ht |]. intros t1 pA gA t2 pB gB t3 E.
    eapply open_gens_ordered; eassumption.
  - intros i Hi. destruct (Hinfo i Hi) as (i' & Hi' & _ & Hle). eauto.
  - intros s0 lo lc uh m dh s1 Hinv Hopen Hnn.
    destruct (DHPy_open_inv _ _ _ _ _ _ _ _ _ Hinv Hopen)
      as [[-> _] | (p & lc' & h' & i & i' & t' & -> & _ & _ & Hh' & _ & _ & Hi & _ & Hgen & _ & Htr & _)].
    + congruence.
    + exists p, h', i, t'. tauto.
Qed.

(** ** Default limits *)

(** C8. The default limits are 1024 entries and 10 MiB (10485760 bytes); a
    session constructed without explicit configuration has exactly these
    limits, and after any sequence of calls on a session, however it was
    configured, its two limits are the ones it was constructed with. *)
Theorem default_limits_fixed flag dctx uctx cfg ops u s' :
  run flag dctx ops (session_init dctx uctx cfg) = Ret u s' ->
  DEFAULT_CLOSED_HANDLES_QUEUE_MAX_SIZE = 1024 /\
  DEFAULT_PROTECTED_RAW_DATA_MAX_SIZE = 10485760 /\
  HPyDebugInfo.closed_handles_queue_max_size (HPyDebugInfo_init uctx default_config) = 1024 /\
  HPyDebugInfo.protected_raw_data_max_size (HPyDebugInfo_init uctx default_config) = 10485760 /\
  exists i,
    infos s' !! _private dctx = Some i /\
    HPyDebugInfo.closed_handles_queue_max_size i
    = HPyDebugInfo.closed_handles_queue_max_size (HPyDebugInfo_init uctx cfg) /\
    HPyDebugInfo.protected_raw_data_max_size i
    = HPyDebugInfo.protected_raw_data_max_size (HPyDebugInfo_init uctx cfg).
Proof.
  intros Hrun. repeat (split; [reflexivity |]).
  pose proof (run_session_step False flag dctx ops _ u s' ltac:(intros []) Hrun)
    as [Hinfo _ _ _ _].
  destruct (Hinfo (HPyDebugInfo_init uctx cfg)) as (i & Hi & (_ & _ & _ & Hq & Hb) & _).
  { simpl. apply lookup_singleton_eq. }
  exists i. tauto.
Qed.

(** ** Use after close, in a session *)

(** A quarantined wrapper of a well-formed session is a live, closed
    wrapper at a well-formed address. *)
Lemma quarantined_wrapper_closed dctx s lo lc p :
  session_inv dctx s lo lc -> p ∈ lc ->
  exists i h,
    infos s !! _private dctx = Some i /\
    HPyDebugInfo.magic_number i = HPY_DEBUG_MAGIC /\
    handles s !! p = Some h /\
    DebugHandle.is_closed h = true /\
    DebugHandle_ptr p.
Proof.
  intros [(i & Hi & Hmagic & _ & Hqc & _) _ Hptr (_ & _ & Hclosed)] Hp.
  destruct (queue_repr_lookup _ _ _ p Hqc Hp) as [h Hh].
  exists i, h. split; [exact Hi |]. split; [exact Hmagic |]. split; [exact Hh |]. split.
  - eapply Hclosed; eassumption.
  - apply Hptr. apply elem_of_app. right. exact Hp.
Qed.

(** Closing an open wrapper while the quarantine has room returns, and from
    then on unwrapping it or closing it again is fatal. *)
Lemma use_after_close_is_fatal dctx s lo1 p lo2 lc i :
  session_inv dctx s (lo1 ++ p :: lo2) lc ->
  infos s !! _private dctx = Some i ->
  Z.of_nat (length lc) < HPyDebugInfo.closed_handles_queue_max_size i ->
  exists s1 s2,
    DHPy_close dctx (as_DHPy p) s = Ret tt s1 /\
    session_inv dctx s1 (lo1 ++ lo2) (lc ++ [p]) /\
    DHPy_unwrap dctx (as_DHPy p) s1 = Abort FatalError s2 /\
    DHPy_close dctx (as_DHPy p) s1 = Abort FatalError s2.
Proof.
  intros Hinv Hi Hroom.
  assert (Hpp : DebugHandle_ptr p).
  { destruct Hinv as [_ _ Hptr _]. apply Hptr. set_solver. }
  assert (Heven : Z.land (_i (as_DHPy p)) 1 = 0).
  { simpl. rewrite ssize_of_ptr_low_bit. exact (proj2 Hpp). }
  assert (Hptr_p : ptr_of_ssize (_i (as_DHPy p)) = p).
  { simpl. apply ptr_of_ssize_of_ptr. apply DebugHandle_ptr_range. exact Hpp. }
  destruct (DHPy_close_spec dctx (as_DHPy p) s lo1 p lo2 lc Hinv Heven Hptr_p)
    as (i0 & s1 & t & Hi0 & E & _ & [(_ & Hinv1 & _) | (Heq & _)]).
  - destruct (quarantined_wrapper_closed dctx s1 _ _ p Hinv1 ltac:(set_solver))
      as (i1 & h1 & Hi1 & Hm1 & Hh1 & Hc1 & _).
    exists s1. eexists. split; [exact E |]. split; [exact Hinv1 |].
    split.
    + eapply DHPy_unwrap_closed; eassumption.
    + eapply DHPy_close_closed; eassumption.
  - assert (i0 = i) as -> by congruence. lia.
Qed.

(** A wrapper returned by [DHPy_open] unwraps to the underlying handle it
    was opened with. *)
Lemma unwrap_after_open flag dctx uh m s lo lc dh s' :
  session_inv dctx s lo lc ->
  DHPy_open flag dctx uh m s = Ret dh s' ->
  dh <> HPy_NULL ->
  DHPy_unwrap dctx dh s' = Ret uh s'.
Proof.
  intros Hinv Hopen Hnn.
  destruct (DHPy_open_inv _ _ _ _ _ _ _ _ _ Hinv Hopen)
    as [[-> _] | (p & lc' & h' & i & i' & t & -> & Hinv' & _ & Hh' & Huh & Hcl & _)].
  - congruence.
  - rewrite <- Huh. apply DHPy_unwrap_open; [exact Hh' | exact Hcl |].
    destruct Hinv' as [_ _ Hptr _]. apply Hptr. set_solver.
Qed.

(** ** Wrappers in the quarantine *)









(** ** The scenarios of the design document *)

(** Quarantine of one wrapper: H1 is opened and closed; opening H2 finds the
    quarantine full and reuses the storage of H1; H2 is closed and is now
    the only quarantined wrapper; unwrapping the stale handle is fatal. *)
Example scenario_quarantine_of_one :
  let s := final_state (example_run example_config
             [OpOpen (mkHPy 5) 16; OpClose (mkHPy 16);
              OpOpen (mkHPy 7) 32; OpClose (mkHPy 16)]) in
  (exists i, infos s !! 4096 = Some i /\
     HPyDebugInfo.closed_handles i
     = {| DHQueue.head := 16; DHQueue.tail := 16; DHQueue.size := 1 |}) /\
  dom (handles s) = {[ 16 ]} /\
  trace s = [EvMalloc 16; EvOpen 16 0; EvOpen 16 0] /\
  exists s', DHPy_unwrap example_dctx (mkHPy 16) s = Abort FatalError s'.
Proof.
  vm_compute. split; [eexists; split; reflexivity |].
  split; [reflexivity |]. split; [reflexivity |]. eexists. reflexivity.
Qed.

(** Budget of 100 bytes: a 60-byte buffer is protected (total 60); a 50-byte
    buffer would exceed the budget and is released at once (total still
    60). *)
Example scenario_budget_of_100 :
  let s := final_state (example_run (mkConfig None (Some 100) None)
             [OpOpen (mkHPy 5) 16; OpAttach (mkHPy 16) 8192 60;
              OpOpen (mkHPy 7) 32; OpAttach (mkHPy 32) 12288 50;
              OpClose (mkHPy 16); OpClose (mkHPy 32)]) in
  (exists i, infos s !! 4096 = Some i /\ HPyDebugInfo.protected_raw_data_size i = 60) /\
  trace s = [EvMalloc 16; EvOpen 16 0; EvMalloc 32; EvOpen 32 0;
             EvRawDataProtect 8192 60; EvRawDataFree 12288 50].
Proof.
  vm_compute. split; [eexists; split; reflexivity | reflexivity].
Qed.

(** With the quarantine limited to one wrapper, closing a second wrapper
    evicts the first: its protected bytes are given back and it is freed. *)
Example scenario_eviction_returns_bytes :
  let s := final_state (example_run example_config
             [OpOpen (mkHPy 5) 16; OpAttach (mkHPy 16) 8192 60;
              OpOpen (mkHPy 7) 32;
              OpClose (mkHPy 16); OpClose (mkHPy 32)]) in
  (exists i, infos s !! 4096 = Some i /\ HPyDebugInfo.protected_raw_data_size i = 0) /\
  dom (handles s) = {[ 32 ]} /\
  trace s = [EvMalloc 16; EvOpen 16 0; EvMalloc 32; EvOpen 32 0;
             EvRawDataProtect 8192 60; EvRawDataFree 8192 60; EvFree 16].
Proof.
  vm_compute. split; [eexists; split; reflexivity |]. split; reflexivity.
Qed.

(** ** The statements at work on a concrete session *)


Lemma DHPy_unwrap_open_same_witness :
  let s := final_state (example_run default_config [OpOpen (mkHPy 5) 16]) in
  DHPy_unwrap example_dctx (as_DHPy 16) s = Ret (mkHPy 5) s /\
  DHPy_unwrap_repeat example_dctx (as_DHPy 16) 3 s = Ret [mkHPy 5; mkHPy 5; mkHPy 5] s.
Proof.
  intros s.
  edestruct DHPy_unwrap_open_same
    with (dctx := example_dctx) (p := 16) (s := s) (n := 3%nat) as [H1 H3].
  - vm_compute. reflexivity.
  - reflexivity.
  - split; [vm_compute; split; reflexivity | reflexivity].
  - split; [exact H1 | exact H3].
Defined.

Lemma closed_queue_bounded_witness :
  let ops := [OpOpen (mkHPy 5) 16; OpOpen (mkHPy 7) 32; OpClose (mkHPy 16)] in
  let s := final_state (example_run example_config ops) in
  example_run example_config ops = Ret tt s /\
  exists i lo lc,
    infos s !! 4096 = Some i /\
    session_inv example_dctx s lo lc /\
    DHQueue.size (HPyDebugInfo.closed_handles i) <= 1 /\
    (forall p, count_free p (trace s) <= count_malloc p (trace s))%nat.
Proof.
  intros ops s.
  assert (Hrun : example_run example_config ops = Ret tt s) by (vm_compute; reflexivity).
  split; [exact Hrun |].
  destruct (closed_queue_bounded false example_dctx 0 example_config ops tt s)
    as (i & lo & lc & Hi & Hinv & Hsz & Hle & Hmax & Hbal & Hfree & Hevict).
  - simpl. lia.
  - exact Hrun.
  - exists i, lo, lc. split; [exact Hi |]. split; [exact Hinv |].
    split; [| exact Hfree]. rewrite Hmax in Hle. exact Hle.
Defined.

Lemma protected_bytes_within_budget_witness :
  let ops := [OpOpen (mkHPy 5) 16; OpAttach (mkHPy 16) 8192 60;
              OpOpen (mkHPy 7) 32; OpAttach (mkHPy 32) 12288 50;
              OpClose (mkHPy 16); OpClose (mkHPy 32)] in
  let s := final_state (example_run (mkConfig None (Some 100) None) ops) in
  example_run (mkConfig None (Some 100) None) ops = Ret tt s /\
  exists i,
    infos s !! 4096 = Some i /\
    HPyDebugInfo.protected_raw_data_max_size i = 100 /\
    HPyDebugInfo.protected_raw_data_size i <= 100.
Proof.
  intros ops s.
  assert (Hrun : example_run (mkConfig None (Some 100) None) ops = Ret tt s)
    by (vm_compute; reflexivity).
  split; [exact Hrun |].
  destruct (protected_bytes_within_budget false example_dctx 0
              (mkConfig None (Some 100) None) ops tt s)
    as [(i & Hi & Hmax & Hle) _].
  - simpl. lia.
  - unfold ops. repeat constructor; simpl; lia.
  - exact Hrun.
  - exists i. split; [exact Hi |]. split; [exact Hmax |]. rewrite Hmax in Hle. exact Hle.
Defined.

Lemma generations_non_decreasing_witness :
  let ops := [OpOpen (mkHPy 5) 16; OpNewGeneration; OpOpen (mkHPy 7) 32] in
  let s0 := session_init example_dctx 0 default_config in
  let s := final_state (example_run default_config ops) in
  example_run default_config ops = Ret tt s /\
  exists t, trace s = trace s0 ++ t /\
    forall t1 pA gA t2 pB gB t3,
      t = t1 ++ EvOpen pA gA :: t2 ++ EvOpen pB gB :: t3 -> gA <= gB.
Proof.
  intros ops s0 s.
  assert (Hrun : example_run default_config ops = Ret tt s) by (vm_compute; reflexivity).
  split; [exact Hrun |].
  exact (proj1 (generations_non_decreasing false example_dctx ops s0 tt s Hrun)).
Defined.

Lemma get_info_validates_magic_witness :
  let s := session_init example_dctx 0 default_config in
  let bad := {| handles := ∅;
                infos := {[ 4096 := HPyDebugInfo.mk 0 0 0 HPy_NULL 1024 10485760 0
                                      DHQueue_init DHQueue_init ]};
                trace := [] |} in
  get_info example_dctx s = Ret 4096 s /\
  get_info example_dctx bad = Abort AssertionFailed bad.
Proof.
  intros s bad. split.
  - eapply (proj2 (proj2 (get_info_validates_magic example_dctx s))).
    + vm_compute. reflexivity.
    + reflexivity.
  - eapply (proj1 (proj2 (get_info_validates_magic example_dctx bad))).
    + vm_compute. reflexivity.
    + discriminate.
Defined.

Lemma default_limits_fixed_witness :
  let ops := [OpOpen (mkHPy 5) 16; OpNewGeneration; OpClose (mkHPy 16)] in
  let s := final_state (example_run default_config ops) in
  example_run default_config ops = Ret tt s /\
  exists i,
    infos s !! 4096 = Some i /\
    HPyDebugInfo.closed_handles_queue_max_size i = 1024 /\
    HPyDebugInfo.protected_raw_data_max_size i = 10485760.
Proof.
  intros ops s.
  assert (Hrun : example_run default_config ops = Ret tt s) by (vm_compute; reflexivity).
  split; [exact Hrun |].
  destruct (default_limits_fixed false example_dctx 0 default_config ops tt s Hrun)
    as (_ & _ & _ & _ & i & Hi & Hq & Hb).
  exists i. split; [exact Hi |]. split; [exact Hq | exact Hb].
Defined.

(** * More of the headers *)

(** ** The pointer casts of the universal header *)

Lemma ptr_of_ssize_range i : ptr_range (ptr_of_ssize i).
Proof.
  unfold ptr_range, ptr_of_ssize. apply Z.mod_pos_bound. reflexivity.
Qed.

(** X1. [HPy_FromVoidP] and [HPy_AsVoidP] are inverse of each other: every
    address survives the trip through a handle, also an address in the upper
    half of the address space, whose handle is negative; every handle
    survives the trip through a pointer; and the results are always a
    representable [HPy_ssize_t] and a representable address. *)
Theorem HPy_VoidP_round_trip :
  (forall p, ptr_range p ->
     HPy_AsVoidP (HPy_FromVoidP p) = p /\ ssize_range (_i (HPy_FromVoidP p)) /\
     (ssize_half <= p -> _i (HPy_FromVoidP p) < 0)) /\
  (forall h, ssize_range (_i h) ->
     HPy_FromVoidP (HPy_AsVoidP h) = h /\ ptr_range (HPy_AsVoidP h) /\
     (_i h < 0 -> ssize_half <= HPy_AsVoidP h)).
Proof.
  split.
  - intros p Hp. unfold HPy_AsVoidP, HPy_FromVoidP. cbn [_i].
    split; [apply ptr_of_ssize_of_ptr; exact Hp |].
    split; [apply ssize_of_ptr_range; exact Hp |].
    intros Hhi. unfold ssize_of_ptr.
    destruct (p <? ssize_half) eqn:E.
    + apply Z.ltb_lt in E. lia.
    + unfold ptr_range in Hp. lia.
  - intros [i] Hi. unfold HPy_AsVoidP, HPy_FromVoidP. cbn [_i] in *.
    split; [f_equal; apply ssize_of_ptr_of_ssize; exact Hi |].
    split; [apply ptr_of_ssize_range |].
    intros Hneg. unfold ptr_of_ssize, ssize_range in *.
    assert (Hm : ptr_modulus = 2 * ssize_half) by reflexivity.
    replace i with (i + ptr_modulus + (-1) * ptr_modulus) by ring.
    rewrite Z.mod_add by (rewrite Hm; lia).
    rewrite Z.mod_small by lia. lia.
Qed.

Lemma HPy_VoidP_round_trip_witness :
  HPy_AsVoidP (HPy_FromVoidP (ptr_modulus - 8)) = ptr_modulus - 8 /\
  _i (HPy_FromVoidP (ptr_modulus - 8)) < 0 /\
  HPy_FromVoidP (HPy_AsVoidP (mkHPy (-8))) = mkHPy (-8).
Proof.
  assert (Hp : ptr_range (ptr_modulus - 8)).
  { unfold ptr_range. vm_compute. split; [discriminate | reflexivity]. }
  assert (Hi : ssize_range (_i (mkHPy (-8)))).
  { unfold ssize_range. vm_compute. split; [discriminate | reflexivity]. }
  destruct (proj1 HPy_VoidP_round_trip (ptr_modulus - 8) Hp) as (H1 & _ & H2).
  destruct (proj2 HPy_VoidP_round_trip (mkHPy (-8)) Hi) as (H3 & _ & _).
  split; [exact H1 |]. split; [| exact H3].
  apply H2. vm_compute. discriminate.
Defined.

(** X2. The null pointer and the null handle correspond: the handle of an
    address is [HPy_NULL] exactly when the address is [NULL], for
    [HPy_FromVoidP] and for [as_DHPy], and the pointer of a handle is [NULL]
    exactly when the handle is null. So the null test that [DHPy_unwrap]
    makes on the handle is a null test on the wrapper's address. *)
Theorem null_handle_iff_null_pointer :
  (forall p, ptr_range p ->
     (HPy_IsNull (HPy_FromVoidP p) = true <-> p = NULL) /\
     (HPy_IsNull (as_DHPy p) = true <-> p = NULL) /\
     (as_DHPy p = HPy_NULL <-> p = NULL)) /\
  (forall h, ssize_range (_i h) ->
     (HPy_AsVoidP h = NULL <-> HPy_IsNull h = true) /\
     (HPy_AsVoidP h = NULL <-> h = HPy_NULL)).
Proof.
  split.
  - intros p Hp.
    assert (H0 : ssize_of_ptr p = 0 <-> p = NULL).
    { split; [apply ssize_of_ptr_null; exact Hp | intros ->; reflexivity]. }
    unfold HPy_IsNull, HPy_FromVoidP, as_DHPy, HPy_NULL. cbn [_i].
    rewrite Z.eqb_eq. split; [exact H0 |]. split; [exact H0 |].
    split; [intros [= E]; apply H0; exact E | intros ->; reflexivity].
  - intros [i] Hi. unfold HPy_AsVoidP, HPy_IsNull, HPy_NULL. cbn [_i] in *.
    rewrite Z.eqb_eq.
    assert (H0 : ptr_of_ssize i = NULL <-> i = 0).
    { split.
      - intros E. rewrite <- (ssize_of_ptr_of_ssize i Hi), E. reflexivity.
      - intros ->. reflexivity. }
    split; [exact H0 |].
    split; [intros E; f_equal; apply H0; exact E | intros [= ->]; reflexivity].
Qed.

Lemma null_handle_iff_null_pointer_witness :
  HPy_IsNull (as_DHPy NULL) = true /\ HPy_AsVoidP HPy_NULL = NULL.
Proof.
  assert (Hp : ptr_range NULL).
  { unfold ptr_range. vm_compute. split; [discriminate | reflexivity]. }
  assert (Hi : ssize_range (_i HPy_NULL)).
  { unfold ssize_range. vm_compute. split; [discriminate | reflexivity]. }
  destruct (proj1 null_handle_iff_null_pointer NULL Hp) as (_ & H1 & _).
  destruct (proj2 null_handle_iff_null_pointer HPy_NULL Hi) as (H2 & _).
  split; [apply H1; reflexivity | apply H2; reflexivity].
Defined.

(** ** Wrapper handles and wrapper addresses *)

(** X3. Distinct wrappers have distinct handles and distinct handles name
    distinct wrappers: [as_DHPy] is injective on addresses, and two handles
    that [as_DebugHandle] casts to the same address are equal. *)
Theorem as_DHPy_injective :
  (forall p q, ptr_range p -> ptr_range q -> as_DHPy p = as_DHPy q -> p = q) /\
  (forall d e s s1 s2 p,
     ssize_range (_i d) -> ssize_range (_i e) ->
     as_DebugHandle d s = Ret p s1 -> as_DebugHandle e s = Ret p s2 -> d = e).
Proof.
  split.
  - intros p q Hp Hq [= E].
    rewrite <- (ptr_of_ssize_of_ptr p Hp), <- (ptr_of_ssize_of_ptr q Hq), E.
    reflexivity.
  - intros [i] [j] s s1 s2 p Hi Hj Hd He. cbn [_i] in *.
    apply as_DebugHandle_inv in Hd. apply as_DebugHandle_inv in He.
    destruct Hd as (_ & Hd & _). destruct He as (_ & He & _). cbn [_i] in *.
    f_equal.
    rewrite <- (ssize_of_ptr_of_ssize i Hi), <- (ssize_of_ptr_of_ssize j Hj).
    congruence.
Qed.

Lemma as_DHPy_injective_witness :
  4096 = ptr_of_ssize 4096 /\ mkHPy (-16) = mkHPy (ssize_of_ptr (ptr_modulus - 16)).
Proof.
  assert (Hp : ptr_range 4096).
  { unfold ptr_range. vm_compute. split; [discriminate | reflexivity]. }
  assert (Hi : ssize_range (-16)).
  { unfold ssize_range. vm_compute. split; [discriminate | reflexivity]. }
  split.
  - apply (proj1 as_DHPy_injective 4096 (ptr_of_ssize 4096)).
    + exact Hp.
    + exact Hp.
    + reflexivity.
  - apply (proj2 as_DHPy_injective (mkHPy (-16)) (mkHPy (ssize_of_ptr (ptr_modulus - 16)))
             empty_state empty_state empty_state (ptr_modulus - 16)).
    + exact Hi.
    + exact Hi.
    + reflexivity.
    + reflexivity.
Defined.

(** X4. Casting an address to a [DHPy] and back, for every address: the
    tag bit of the handle is the lowest bit of the address, so an even
    address comes back unchanged and an odd one fails the assertion of
    [DHPy_sanity_check], in the unchanged state. *)
Theorem as_DebugHandle_as_DHPy_any p s :
  ptr_range p ->
  Z.land (_i (as_DHPy p)) 1 = Z.land p 1 /\
  as_DebugHandle (as_DHPy p) s =
    (if Z.even p then Ret p s else Abort AssertionFailed s).
Proof.
  intros Hp.
  assert (Hb : Z.land (_i (as_DHPy p)) 1 = Z.land p 1).
  { unfold as_DHPy. cbn [_i]. apply ssize_of_ptr_low_bit. }
  split; [exact Hb |].
  assert (Hm : Z.land p 1 = if Z.even p then 0 else 1).
  { rewrite land_1_mod, Zmod_even. reflexivity. }
  destruct (Z.even p).
  - apply as_DebugHandle_as_DHPy; assumption.
  - apply as_DebugHandle_odd. rewrite Hb. exact Hm.
Qed.

Lemma as_DebugHandle_as_DHPy_any_witness :
  as_DebugHandle (as_DHPy 4097) empty_state = Abort AssertionFailed empty_state /\
  as_DebugHandle (as_DHPy (ptr_modulus - 16)) empty_state = Ret (ptr_modulus - 16) empty_state.
Proof.
  split.
  - apply (as_DebugHandle_as_DHPy_any 4097 empty_state).
    unfold ptr_range. vm_compute. split; [discriminate | reflexivity].
  - apply (as_DebugHandle_as_DHPy_any (ptr_modulus - 16) empty_state).
    unfold ptr_range. vm_compute. split; [discriminate | reflexivity].
Defined.

(** X5. With [HPY_DEBUG_ENABLE_UHPY_SANITY_CHECK] defined the two sanity
    checks split the non-null handles in two: a handle is accepted by
    exactly one of [DHPy_sanity_check] and [UHPy_sanity_check], according to
    its low bit, also when it is negative; the other check fails its
    assertion. Neither check changes the state. *)
Theorem sanity_checks_exclusive h s :
  HPy_IsNull h = false ->
  (Z.land (_i h) 1 = 0 /\
   DHPy_sanity_check h s = Ret tt s /\
   UHPy_sanity_check true h s = Abort AssertionFailed s) \/
  (Z.land (_i h) 1 = 1 /\
   DHPy_sanity_check h s = Abort AssertionFailed s /\
   UHPy_sanity_check true h s = Ret tt s).
Proof.
  intros Hn. unfold DHPy_sanity_check, UHPy_sanity_check. rewrite Hn. cbn [negb].
  assert (Hb : Z.land (_i h) 1 = 0 \/ Z.land (_i h) 1 = 1).
  { rewrite land_1_mod. pose proof (Z.mod_pos_bound (_i h) 2 ltac:(lia)). lia. }
  destruct Hb as [Hb | Hb]; rewrite Hb; [left | right]; repeat split.
Qed.

Lemma sanity_checks_exclusive_witness :
  DHPy_sanity_check (mkHPy (-3)) empty_state = Abort AssertionFailed empty_state /\
  UHPy_sanity_check true (mkHPy (-3)) empty_state = Ret tt empty_state.
Proof.
  destruct (sanity_checks_exclusive (mkHPy (-3)) empty_state) as [(Hb & _) | (_ & H1 & H2)].
  - reflexivity.
  - vm_compute in Hb. discriminate Hb.
  - split; [exact H1 | exact H2].
Defined.

(** ** [DHPy_unwrap] over any [DHPy_invalid_handle] *)

Lemma DHPy_unwrap_with_DHPy_invalid_handle :
  DHPy_unwrap = DHPy_unwrap_with DHPy_invalid_handle.
Proof. reflexivity. Qed.

Lemma DHPy_unwrap_with_live invalid dctx dh h s :
  HPy_IsNull dh = false ->
  Z.land (_i dh) 1 = 0 ->
  handles s !! ptr_of_ssize (_i dh) = Some h ->
  DHPy_unwrap_with invalid dctx dh s =
    ((if DebugHandle.is_closed h then invalid dctx dh else mret tt);;
     h' ← load_handle (ptr_of_ssize (_i dh));
     mret (DebugHandle.uh h')) s.
Proof.
  intros Hn Hb Hh. unfold DHPy_unwrap_with. rewrite Hn.
  rewrite (bind_Ret _ _ _ _ _ (as_DebugHandle_even dh s Hb)).
  rewrite (bind_Ret _ _ _ _ _ (load_handle_Some _ _ _ Hh)). reflexivity.
Qed.

(** X6. When [DHPy_invalid_handle] does not return, [DHPy_unwrap] returns
    in exactly two cases, and in both leaves the state as it was: the handle
    is null and the result is [HPy_NULL]; or the handle has low bit 0, its
    wrapper is live and not closed, and the result is the [uh] stored in
    it. The context plays no part in either case. *)
Theorem DHPy_unwrap_with_returns_iff invalid dctx dh s u s' :
  (forall t t', invalid dctx dh t <> Ret tt t') ->
  DHPy_unwrap_with invalid dctx dh s = Ret u s' <->
  s' = s /\
  (HPy_IsNull dh = true /\ u = HPy_NULL \/
   HPy_IsNull dh = false /\ Z.land (_i dh) 1 = 0 /\
   exists h, handles s !! ptr_of_ssize (_i dh) = Some h /\
             DebugHandle.is_closed h = false /\ u = DebugHandle.uh h).
Proof.
  intros Hfatal. split.
  - unfold DHPy_unwrap_with. destruct (HPy_IsNull dh) eqn:Hn.
    { intros H. apply mret_inv in H. destruct H as [-> ->]. auto. }
    intros H. inv_bind H as p s0 H0. apply as_DebugHandle_inv in H0.
    destruct H0 as (-> & -> & Hb).
    inv_bind H as h s0 H0. apply load_handle_inv in H0. destruct H0 as [-> Hh].
    inv_bind H as u1 s1 H1. destruct (DebugHandle.is_closed h) eqn:Hc.
    { destruct u1. exfalso. exact (Hfatal _ _ H1). }
    apply mret_inv in H1. destruct H1 as [_ ->].
    inv_bind H as h' s0 H0. apply load_handle_inv in H0. destruct H0 as [-> Hh'].
    apply mret_inv in H. destruct H as [-> ->].
    split; [reflexivity |]. right. split; [reflexivity |]. split; [exact Hb |].
    exists h. rewrite Hh in Hh'. injection Hh' as <-. auto.
  - intros [-> [[Hn ->] | (Hn & Hb & h & Hh & Hc & ->)]].
    + unfold DHPy_unwrap_with. rewrite Hn. reflexivity.
    + rewrite (DHPy_unwrap_with_live invalid dctx dh h s Hn Hb Hh), Hc.
      rewrite bind_run. cbn.
      rewrite (bind_Ret _ _ _ _ _ (load_handle_Some _ _ _ Hh)). reflexivity.
Qed.

Lemma DHPy_unwrap_with_returns_iff_witness :
  let h := DebugHandle.mk (mkHPy 7) 0 false NULL 0 NULL NULL in
  DHPy_unwrap_with (fun _ _ => abort FatalError) example_dctx (as_DHPy 4096)
    (example_wrapper_state h)
  = Ret (mkHPy 7) (example_wrapper_state h).
Proof.
  intros h.
  apply (proj2 (DHPy_unwrap_with_returns_iff (fun _ _ => abort FatalError) example_dctx
                  (as_DHPy 4096) (example_wrapper_state h) (mkHPy 7)
                  (example_wrapper_state h)
                  (fun t t' (E : Abort FatalError t = Ret tt t') =>
                     eq_ind (Abort FatalError t)
                       (fun o => match o with Abort _ _ => True | _ => False end)
                       I _ E))).
  split; [reflexivity |]. right.
  split; [reflexivity |]. split; [reflexivity |].
  exists h. split; [vm_compute; reflexivity |]. split; reflexivity.
Defined.

(** X7. What [DHPy_unwrap] does on a closed wrapper is what
    [DHPy_invalid_handle] does: the routine is called in the state of the
    call; if it terminates the process so does [DHPy_unwrap]; and if it
    returns, [DHPy_unwrap] goes on to read the wrapper and returns the [uh]
    found there. Nothing in [DHPy_unwrap] itself stops the use of a closed
    wrapper. *)
Theorem DHPy_unwrap_with_closed invalid dctx dh s h :
  HPy_IsNull dh = false ->
  Z.land (_i dh) 1 = 0 ->
  handles s !! ptr_of_ssize (_i dh) = Some h ->
  DebugHandle.is_closed h = true ->
  (forall r s1, invalid dctx dh s = Abort r s1 ->
     DHPy_unwrap_with invalid dctx dh s = Abort r s1) /\
  (forall s1 h1, invalid dctx dh s = Ret tt s1 ->
     handles s1 !! ptr_of_ssize (_i dh) = Some h1 ->
     DHPy_unwrap_with invalid dctx dh s = Ret (DebugHandle.uh h1) s1).
Proof.
  intros Hn Hb Hh Hc.
  rewrite (DHPy_unwrap_with_live invalid dctx dh h s Hn Hb Hh), Hc.
  split.
  - intros r s1 E. apply bind_Abort. exact E.
  - intros s1 h1 E Hh1. rewrite (bind_Ret _ _ _ _ _ E).
    rewrite (bind_Ret _ _ _ _ _ (load_handle_Some _ _ _ Hh1)). reflexivity.
Qed.

Lemma DHPy_unwrap_with_closed_witness :
  let h := DebugHandle.mk (mkHPy 7) 0 true NULL 0 NULL NULL in
  let s := example_wrapper_state h in
  let s1 := with_trace s [EvInvalidHandle (as_DHPy 4096)] in
  DHPy_unwrap_with (fun _ dh => emit (EvInvalidHandle dh)) example_dctx (as_DHPy 4096) s
  = Ret (mkHPy 7) s1.
Proof.
  intros h s s1.
  apply (proj2 (DHPy_unwrap_with_closed (fun _ dh => emit (EvInvalidHandle dh))
                  example_dctx (as_DHPy 4096) s h
                  eq_refl eq_refl eq_refl eq_refl) s1 h).
  - reflexivity.
  - vm_compute. reflexivity.
Defined.

(** ** Fatal errors *)

(** X8. [HPy_FatalError] does not return, whatever the context's
    [ctx_FatalError] member does: if the member terminates the process that
    is the outcome, and if it returns, [abort()] terminates the process in
    the state the member left. *)
Theorem HPy_FatalError_no_return (A : Type) ctx_FatalError ctx message s :
  (forall (a : A) s', HPy_FatalError ctx_FatalError ctx message s <> Ret a s') /\
  (forall s1, ctx_FatalError ctx message s = Ret tt s1 ->
     HPy_FatalError (A := A) ctx_FatalError ctx message s = Abort FatalError s1) /\
  (forall r s1, ctx_FatalError ctx message s = Abort r s1 ->
     HPy_FatalError (A := A) ctx_FatalError ctx message s = Abort r s1).
Proof.
  unfold HPy_FatalError. rewrite bind_run.
  destruct (ctx_FatalError ctx message s) as [[] s1 | r s1 |].
  - split; [discriminate |]. split; [intros s2 [= ->]; reflexivity | discriminate].
  - split; [discriminate |]. split; [discriminate | intros r' s2 [= -> ->]; reflexivity].
  - split; [discriminate |]. split; discriminate.
Qed.

Lemma HPy_FatalError_no_return_witness :
  HPy_FatalError (A := UHPy) (fun _ _ => mret tt) example_dctx 0 empty_state
  = Abort FatalError empty_state.
Proof.
  apply (proj1 (proj2 (HPy_FatalError_no_return UHPy (fun _ _ => mret tt)
                         example_dctx 0 empty_state)) empty_state).
  reflexivity.
Defined.
